(** * Otomoto scraper: a shallow embedding of the pure core and its properties

  The development follows the Python sources file by file:

  - [Py]                     the Python values and builtins the code relies on;
  - [car]                    [models/car.py];
  - [config]                 [utils/config.py];
  - [helpers]                [utils/helpers.py] (the price aggregator);
  - [brand_model_validator]  [utils/brand_model_validator.py];
  - [otomoto_scraper]        [scraper/otomoto_scraper.py] (URL builder,
                             deduplication, the two extraction strategies);
  - [next_data]              the same file, continued (the traversal of the
                             embedded payload, the pagination);
  - [full_extraction]        [utils/full_extraction.py] (the bulk run);
  - [main]                   [main.py] (the command line run).

  Conventions.  A Python [str] is a Rocq [string] holding its UTF-8 bytes.
  A Python [int] is a [Z].  A finite Python [float] is the rational it
  denotes, a [Q]: the rounding of floating-point arithmetic, infinities and
  NaN are not part of the model.  A [dict] is an association list in
  insertion order, which is the order Python iterates it in.  [None] is the
  [None] of [option], or [PNone] among dynamically typed values. *)

From Stdlib Require Import List String Ascii ZArith QArith Qround Lia Lqa Bool.
From Stdlib Require Import Permutation Sorted DecimalString.
Import ListNotations.

Set Warnings "-register-all".

(* ===================================================================== *)
(** * Python values and builtins *)
(* ===================================================================== *)

Module Py.

(** What [json.loads] returns: the dynamically typed values the
    structured-data strategy walks over. *)
Inductive pyval : Type :=
| PNone
| PBool (b : bool)
| PInt (z : Z)
| PFloat (q : Q)
| PStr (s : string)
| PList (l : list pyval)
| PDict (d : list (string * pyval)).

(** Truth value of an object, as tested by [if v:] and [not v]. *)
Definition truthy (v : pyval) : bool :=
  match v with
  | PNone => false
  | PBool b => b
  | PInt z => negb (z =? 0)%Z
  | PFloat q => negb (Qeq_bool q 0)
  | PStr s => negb (s =? "")%string
  | PList l => match l with [] => false | _ => true end
  | PDict d => match d with [] => false | _ => true end
  end.

(** [a or b]. *)
Definition or_ (a b : pyval) : pyval := if truthy a then a else b.

(** ** Dictionaries with [str] keys, in insertion order *)

Fixpoint dict_get {V : Type} (k : string) (d : list (string * V)) : option V :=
  match d with
  | [] => None
  | (k', v) :: d' => if (k' =? k)%string then Some v else dict_get k d'
  end.

Definition dict_mem {V : Type} (k : string) (d : list (string * V)) : bool :=
  match dict_get k d with Some _ => true | None => false end.

(** [d[k] = v]: an existing key keeps its position and takes the new
    value, a new key is appended. *)
Fixpoint dict_set {V : Type} (k : string) (v : V) (d : list (string * V))
  : list (string * V) :=
  match d with
  | [] => [(k, v)]
  | (k', v') :: d' =>
      if (k' =? k)%string then (k', v) :: d' else (k', v') :: dict_set k v d'
  end.

Definition dict_keys {V : Type} (d : list (string * V)) : list string :=
  map fst d.

Definition dict_values {V : Type} (d : list (string * V)) : list V :=
  map snd d.

(** [v.get(k, default)] on a value that may or may not be a dict;
    [None] stands for the [AttributeError] of a non-dict receiver. *)
Definition get_default (v : pyval) (k : string) (default : pyval)
  : option pyval :=
  match v with
  | PDict d => Some (match dict_get k d with Some x => x | None => default end)
  | _ => None
  end.

(** ** Numbers *)

(** [str(z)] for an [int]. *)
Definition str_of_int (z : Z) : string := NilZero.string_of_int (Z.to_int z).

(** Rounding to the nearest integer, ties to the even one: the rule of
    [round] and of the [.0f] format. *)
Definition round_half_even (q : Q) : Z :=
  let f := Qfloor q in
  let r := q - inject_Z f in
  match Qcompare r (1 # 2) with
  | Lt => f
  | Gt => (f + 1)%Z
  | Eq => if Z.even f then f else (f + 1)%Z
  end.

(** [round(q, 2)]. *)
Definition round2 (q : Q) : Q := inject_Z (round_half_even (q * 100)) / 100.

(** [f"{q:.0f}"]: a negative value keeps its sign even when it rounds
    to zero. *)
Definition format_0f (q : Q) : string :=
  if Qle_bool 0 q then str_of_int (round_half_even q)
  else ("-" ++ str_of_int (round_half_even (- q)))%string.

(** [sum(l)]. *)
Definition py_sum (l : list Q) : Q := fold_left Qplus l 0.

(** [min(l)] and [max(l)]: the first smallest, respectively largest,
    element; [None] stands for the [ValueError] on an empty list. *)
Definition py_min (l : list Q) : option Q :=
  match l with
  | [] => None
  | x :: l' => Some (fold_left (fun m y => if Qle_bool m y then m else y) l' x)
  end.

Definition py_max (l : list Q) : option Q :=
  match l with
  | [] => None
  | x :: l' => Some (fold_left (fun m y => if Qle_bool y m then m else y) l' x)
  end.

(** [x in l] on a list of floats: membership by [==]. *)
Definition mem (x : Q) (l : list Q) : bool := existsb (Qeq_bool x) l.

(** ** Sorting

    [list.sort()] is a stable sort; so is this insertion sort. *)
Fixpoint insert (x : Q) (l : list Q) : list Q :=
  match l with
  | [] => [x]
  | y :: l' => if Qle_bool x y then x :: l else y :: insert x l'
  end.

Definition sort (l : list Q) : list Q := fold_right insert [] l.

(** ** Slices: [l[start:stop]] for indices already made non-negative *)
Definition slice {A : Type} (l : list A) (start stop : nat) : list A :=
  firstn (stop - start) (skipn start l).

(** ** Strings

    The operations below are exact on UTF-8 bytes: equality, concatenation,
    substring search and the replacement of an ASCII character do not depend
    on where characters start.  [len] and slicing count characters, hence
    skip the continuation bytes (10xxxxxx). *)

Definition is_continuation (c : ascii) : bool :=
  let n := nat_of_ascii c in ((128 <=? n) && (n <? 192))%nat.

(** [len(s)]. *)
Fixpoint str_len (s : string) : nat :=
  match s with
  | EmptyString => 0
  | String c s' => if is_continuation c then str_len s' else S (str_len s')
  end.

Fixpoint drop_continuation (s : string) : string :=
  match s with
  | String c s' => if is_continuation c then drop_continuation s' else s
  | EmptyString => s
  end.

(** [s[n:]]. *)
Fixpoint str_from (n : nat) (s : string) : string :=
  match n, s with
  | O, _ => s
  | S _, EmptyString => s
  | S n', String _ s' => str_from n' (drop_continuation s')
  end.

(** [s.startswith(p)]. *)
Definition startswith (s p : string) : bool := String.prefix p s.

(** [p in s] for two strings. *)
Fixpoint str_in (p s : string) : bool :=
  String.prefix p s ||
  match s with
  | EmptyString => false
  | String _ s' => str_in p s'
  end.

(** [s.replace(old, new)] for a one-character [old]. *)
Fixpoint replace_char (old : ascii) (new : string) (s : string) : string :=
  match s with
  | EmptyString => EmptyString
  | String c s' =>
      ((if Ascii.eqb c old then new else String c EmptyString)
         ++ replace_char old new s')%string
  end.

(** [sep.join(l)]. *)
Fixpoint join (sep : string) (l : list string) : string :=
  match l with
  | [] => EmptyString
  | [x] => x
  | x :: l' => (x ++ sep ++ join sep l')%string
  end.

(** [v == s] for a string literal [s]. *)
Definition eq_str (v : pyval) (s : string) : bool :=
  match v with PStr s' => (s' =? s)%string | _ => false end.

(** Truth value of an [Optional[str]] and of an [Optional[int]]. *)
Definition truthy_str (o : option string) : bool :=
  match o with Some s => negb (s =? "")%string | None => false end.

Definition truthy_int (o : option Z) : bool :=
  match o with Some z => negb (z =? 0)%Z | None => false end.

(** ** Builtins taken as given

    What the interpreter and its libraries contribute and the program
    does not define: Unicode case mapping and whitespace, the conversions
    between text and numbers, and the regular-expression engine.  The
    embedding is parametric in them, so the theorems hold whatever they
    compute.  [None] stands for a raised exception, or for [re.search]
    finding no match; a match is the list of its groups 1, 2, ... *)
Class Builtins : Type := {
  lower : string -> string;                  (* s.lower() *)
  upper : string -> string;                  (* s.upper() *)
  strip : string -> string;                  (* s.strip() *)
  str_of : pyval -> string;                  (* str(v), and v in an f-string *)
  float_of_str : string -> option Q;         (* float(s) *)
  int_of_str : string -> option Z;           (* int(s) *)
  re_search : string -> bool -> string -> option (list string)
                                             (* re.search(pattern, text, IGNORECASE?) *)
}.

(** [m.group(i)], [i >= 1]. *)
Definition group (m : list string) (i : nat) : option string := nth_error m (i - 1).

(** [float(v)]. *)
Definition float_of `{Builtins} (v : pyval) : option Q :=
  match v with
  | PBool b => Some (if b then 1 else 0)
  | PInt z => Some (inject_Z z)
  | PFloat q => Some q
  | PStr s => float_of_str s
  | PNone | PList _ | PDict _ => None
  end.

(** [int(v)]: a float is truncated towards zero. *)
Definition int_of `{Builtins} (v : pyval) : option Z :=
  match v with
  | PBool b => Some (if b then 1 else 0)%Z
  | PInt z => Some z
  | PFloat q => Some (Z.quot (Qnum q) (Zpos (Qden q)))
  | PStr s => int_of_str s
  | PNone | PList _ | PDict _ => None
  end.

(** The elements a [for] loop draws from a value; [None] when the value
    is not iterable.  A dict yields its keys, a string its characters (here
    its bytes: the one loop over such a value fails on the first element). *)
Definition iterate (v : pyval) : option (list pyval) :=
  match v with
  | PList l => Some l
  | PDict d => Some (map (fun kv => PStr (fst kv)) d)
  | PStr s => Some (map (fun c => PStr (String c EmptyString)) (list_ascii_of_string s))
  | PNone | PBool _ | PInt _ | PFloat _ => None
  end.

End Py.

(* ===================================================================== *)
(** * models/car.py *)
(* ===================================================================== *)

Module car.
Import Py.

Record CarSearchParams : Type := mkCarSearchParams {
  marca : option string;
  modelo : option string;
  ano_min : option Z;
  ano_max : option Z;
  km_max : option Z;
  preco_max : option Z;
  caixa : option string;
  combustivel_param : option string
}.

(** The dataclass, with the types its annotations declare. *)
Record Car : Type := mkCar {
  titulo : string;
  preco : string;
  preco_numerico : Q;
  moeda : string;
  ano : option Z;
  quilometragem : option string;
  combustivel : option string;
  url : option string
}.

Definition of_opt_str (o : option string) : pyval :=
  match o with Some s => PStr s | None => PNone end.

Definition of_opt_int (o : option Z) : pyval :=
  match o with Some z => PInt z | None => PNone end.

(** [Car.to_dict]: the numeric price is not part of the dictionary. *)
Definition to_dict (self : Car) : pyval :=
  PDict [ ("Título", PStr (titulo self));
          ("Preço", PStr (preco self));
          ("Moeda", PStr (moeda self));
          ("Ano", of_opt_int (ano self));
          ("Quilometragem", of_opt_str (quilometragem self));
          ("Combustível", of_opt_str (combustivel self));
          ("URL", of_opt_str (url self)) ]%string.

End car.

(* ===================================================================== *)
(** * utils/helpers.py *)
(* ===================================================================== *)

Module helpers.
Import Py car.

Record PriceInterval : Type := mkInterval {
  interval_min : option Q;
  interval_max : option Q
}.

(** The dictionary [calculate_price_interval] returns.  The two early
    returns leave the key [anuncios_usados_para_calculo] out: [None]. *)
Record Summary : Type := mkSummary {
  preco_intervalo : PriceInterval;
  media_aproximada : option Q;
  viaturas_consideradas : nat;
  anuncios_usados_para_calculo : option (list pyval)
}.

Definition empty_summary : Summary :=
  {| preco_intervalo := {| interval_min := None; interval_max := None |};
     media_aproximada := None;
     viaturas_consideradas := 0;
     anuncios_usados_para_calculo := None |}.

(** [c.preco_numerico > 100]. *)
Definition above_100 (c : Car) : bool := negb (Qle_bool (preco_numerico c) 100).

(** Line 10: [[c.preco_numerico for c in cars if c.preco_numerico > 100]]. *)
Definition filtered_prices (cars : list Car) : list Q :=
  map preco_numerico (filter above_100 cars).

(** Line 22: [int(len(prices) * 0.05)], with 0.05 read as 5/100. *)
Definition cut_of (prices : list Q) : nat := (List.length prices * 5 / 100)%nat.

(** Lines 23-26, on the sorted list. *)
Definition trim (prices : list Q) : list Q :=
  let cut := cut_of prices in
  if (0 <? cut)%nat then slice prices cut (List.length prices - cut) else prices.

(** Lines 28-29: [if not clean_prices: clean_prices = prices]. *)
Definition fall_back (clean_prices prices : list Q) : list Q :=
  match clean_prices with [] => prices | _ => clean_prices end.

(** The list the statistics are computed on, from line 19 to line 29. *)
Definition clean_prices_of (prices : list Q) : list Q :=
  let prices := sort prices in
  fall_back (trim prices) prices.

Definition calculate_price_interval (cars : list Car) : Summary :=
  match cars with
  | [] => empty_summary
  | _ =>
      let prices := filtered_prices cars in
      match prices with
      | [] => empty_summary
      | _ =>
          let clean_prices := clean_prices_of prices in
          let avg := py_sum clean_prices / inject_Z (Z.of_nat (List.length clean_prices)) in
          {| preco_intervalo :=
               {| interval_min := py_min clean_prices;
                  interval_max := py_max clean_prices |};
             media_aproximada := Some (round2 avg);
             viaturas_consideradas := List.length clean_prices;
             anuncios_usados_para_calculo :=
               Some (map to_dict
                       (filter (fun c => mem (preco_numerico c) clean_prices) cars)) |}
      end
  end.

End helpers.

(* ===================================================================== *)
(** * utils/config.py *)
(* ===================================================================== *)

Module config.

Definition OTOMOTO_BASE_URL : string := "https://www.otomoto.pl".
Definition OTOMOTO_SEARCH_URL : string := (OTOMOTO_BASE_URL ++ "/osobowe")%string.

Definition FUEL_TYPE_MAP : list (string * string) :=
  [ ("gasolina", "petrol");
    ("gasoleo", "diesel");
    ("diesel", "diesel");
    ("gpl", "lpg");
    ("hibrido", "hybrid");
    ("eletrico", "electric");
    ("hidrogenio", "hydrogen") ]%string.

Definition TRANSMISSION_MAP : list (string * string) :=
  [ ("manual", "manual");
    ("automatica", "automatic") ]%string.

End config.

(* ===================================================================== *)
(** * utils/brand_model_validator.py *)
(* ===================================================================== *)

Module brand_model_validator.
Import Py.

(** The reference catalog, [{brands: {key: {brand_value, brand_text,
    models: [{value, text}]}}}], in file order.  A missing [brand_text]
    reads as the empty string and a missing [models] as the empty list,
    which are the defaults the code passes to [get]. *)
Record ModelEntry : Type := mkModel {
  value : string;
  text : string
}.

Record BrandData : Type := mkBrand {
  brand_value : string;
  brand_text : string;
  models : list ModelEntry
}.

Definition Brands : Type := list (string * BrandData).

Record Suggestions : Type := mkSuggestions {
  marcas : option (list string);
  modelos_disponiveis : option (list string)
}.

(** The [result] dictionary. *)
Record Result : Type := mkResult {
  valid : bool;
  result_brand_value : option string;
  result_model_value : option string;
  errors : list string;
  suggestions : Suggestions
}.

Section Validator.
Context `{Builtins}.

(** The test of lines 40-42. *)
Definition brand_matches (marca_lower : string) (key : string) (data : BrandData)
  : bool :=
  (lower key =? marca_lower)%string
  || (brand_value data =? marca_lower)%string
  || (lower (brand_text data) =? marca_lower)%string.

(** The loop of lines 39-45: the first entry that passes the test. *)
Fixpoint find_brand (marca_lower : string) (brands : Brands) : option BrandData :=
  match brands with
  | [] => None
  | (key, data) :: rest =>
      if brand_matches marca_lower key data then Some data
      else find_brand marca_lower rest
  end.

(** The test of lines 63-64. *)
Definition model_matches (modelo_lower : string) (model : ModelEntry) : bool :=
  (lower (text model) =? modelo_lower)%string
  || (lower (value model) =? modelo_lower)%string.

(** The loop of lines 62-67. *)
Definition find_model (modelo_lower : string) (models_list : list ModelEntry)
  : option ModelEntry :=
  find (model_matches modelo_lower) models_list.

Definition validate_search_params
  (brands : Brands) (marca_input modelo_input : option string) : Result :=
  let result :=
    {| valid := true; result_brand_value := None; result_model_value := None;
       errors := []; suggestions := mkSuggestions None None |} in
  match marca_input with
  | None => result
  | Some marca =>
    if (marca =? "")%string then result else
    let marca_lower := strip (lower marca) in
    match find_brand marca_lower brands with
    | None =>
        {| valid := false;
           result_brand_value := None;
           result_model_value := None;
           errors := [("Marca '" ++ marca ++ "' não encontrada.")%string];
           suggestions := mkSuggestions (Some (firstn 5 (dict_keys brands))) None |}
    | Some brand_found =>
        if truthy_str modelo_input then
          let modelo := match modelo_input with Some m => m | None => EmptyString end in
          let modelo_lower := strip (lower modelo) in
          let models_list := models brand_found in
          match find_model modelo_lower models_list with
          | Some model =>
              {| valid := true;
                 result_brand_value := Some (brand_value brand_found);
                 result_model_value := Some (value model);
                 errors := [];
                 suggestions := mkSuggestions None None |}
          | None =>
              {| valid := false;
                 result_brand_value := Some (brand_value brand_found);
                 result_model_value := None;
                 errors :=
                   [("Modelo '" ++ modelo ++ "' não encontrado para a marca.")%string];
                 suggestions :=
                   mkSuggestions None (Some (map text models_list)) |}
          end
        else
          {| valid := true;
             result_brand_value := Some (brand_value brand_found);
             result_model_value := None;
             errors := [];
             suggestions := mkSuggestions None None |}
    end
  end.

End Validator.

End brand_model_validator.

(* ===================================================================== *)
(** * scraper/otomoto_scraper.py *)
(* ===================================================================== *)

Module otomoto_scraper.
Import Py car config.

(** ** [urllib.parse.urlencode] with its default [quote_plus] *)

(** A value of the [query_params] dictionary: a string or an integer. *)
Inductive query_value : Type :=
| QStr (s : string)
| QInt (z : Z).

(** [str(v)], which [urlencode] applies to every value. *)
Definition query_str (v : query_value) : string :=
  match v with
  | QStr s => s
  | QInt z => str_of_int z
  end.

(** The bytes [quote] never escapes: letters, digits and [_.-~]. *)
Definition always_safe (c : ascii) : bool :=
  let n := nat_of_ascii c in
  (((65 <=? n) && (n <=? 90)) || ((97 <=? n) && (n <=? 122))
   || ((48 <=? n) && (n <=? 57))
   || (n =? 95) || (n =? 46) || (n =? 45) || (n =? 126))%nat.

Definition hex_digit (n : nat) : ascii :=
  nth n (list_ascii_of_string "0123456789ABCDEF") "0"%char.

Definition quote_byte (c : ascii) : string :=
  if always_safe c then String c EmptyString
  else if Ascii.eqb c " " then "+"%string
  else
    let n := nat_of_ascii c in
    String "%" (String (hex_digit (n / 16)) (String (hex_digit (n mod 16)) EmptyString)).

Fixpoint quote_plus (s : string) : string :=
  match s with
  | EmptyString => EmptyString
  | String c s' => (quote_byte c ++ quote_plus s')%string
  end.

Definition urlencode_item (kv : string * query_value) : string :=
  (quote_plus (fst kv) ++ "=" ++ quote_plus (query_str (snd kv)))%string.

Definition urlencode (query : list (string * query_value)) : string :=
  join "&" (map urlencode_item query).

(** ** [_build_url] *)

Definition query := list (string * query_value).

(** [if o: query_params[k] = o], for a string and for an integer. *)
Definition set_str (k : string) (o : option string) (q : query) : query :=
  match o with
  | Some s => if truthy_str o then dict_set k (QStr s) q else q
  | None => q
  end.

Definition set_int (k : string) (o : option Z) (q : query) : query :=
  match o with
  | Some z => if truthy_int o then dict_set k (QInt z) q else q
  | None => q
  end.

(** [if o and o in table: query_params[k] = table[o]]. *)
Definition set_mapped (k : string) (o : option string)
  (table : list (string * string)) (q : query) : query :=
  match o with
  | Some s =>
      if truthy_str o && dict_mem s table then
        match dict_get s table with
        | Some token => dict_set k (QStr token) q
        | None => q
        end
      else q
  | None => q
  end.

(** Lines 45-59: the dictionary handed to [urlencode]. *)
Definition query_params (params : CarSearchParams) (page : Z) : query :=
  let q := [("search[advanced_search_expanded]"%string, QStr "true")] in
  let q := if (1 <? page)%Z then dict_set "page" (QInt page) q else q in
  let q := set_str "search[filter_enum_make]" (marca params) q in
  let q := set_str "search[filter_enum_model]" (modelo params) q in
  let q := set_int "search[filter_float_year:from]" (ano_min params) q in
  let q := set_int "search[filter_float_year:to]" (ano_max params) q in
  let q := set_int "search[filter_float_mileage:to]" (km_max params) q in
  let q := set_int "search[filter_float_price:to]" (preco_max params) q in
  let q := set_mapped "search[filter_enum_fuel_type]" (combustivel_param params)
             FUEL_TYPE_MAP q in
  let q := set_mapped "search[filter_enum_gearbox]" (caixa params)
             TRANSMISSION_MAP q in
  q.

Definition _build_url (params : CarSearchParams) (page : Z) : string :=
  let query_string := urlencode (query_params params page) in
  (OTOMOTO_SEARCH_URL ++ "?" ++ query_string)%string.

(** ** [_deduplicate] *)

(** [f"{c.titulo}_{c.preco}_{c.quilometragem}"]: an absent mileage is
    rendered as [None]. *)
Definition composite_key (c : Car) : string :=
  (titulo c ++ "_" ++ preco c ++ "_"
   ++ match quilometragem c with Some km => km | None => "None" end)%string.

(** Line 127: [c.url if c.url else ...]. *)
Definition car_key (c : Car) : string :=
  match url c with
  | Some u => if truthy_str (url c) then u else composite_key c
  | None => composite_key c
  end.

(** The dictionary [unique] after the loop of lines 125-128, started
    from [d]. *)
Definition unique_after (cars : list Car) (d : list (string * Car))
  : list (string * Car) :=
  fold_left (fun unique c => dict_set (car_key c) c unique) cars d.

Definition _deduplicate (cars : list Car) : list Car :=
  let unique := unique_after cars [] in
  dict_values unique.

(** ** The structured-data strategy: [_parse_node_data] *)

(** The outcome of parsing one record.  [Car] is typed as the dataclass
    declares it, while the payload is dynamically typed and Python does
    not check the annotations: a record whose title, URL, currency or fuel
    value is not of the declared type yields a Python object the typed
    [Car] cannot represent, and the embedding says so with [Untyped]
    instead of guessing. *)
Inductive parsed : Type :=
| Listing (c : Car)   (* the method returns this Car *)
| Rejected            (* the method returns None, by [return] or by [except] *)
| Untyped.            (* a Car is returned, outside the declared types *)

(** What BeautifulSoup reports about one [article] element: the [href]
    of [article.find('a', href=True)], the text of
    [article.select_one('h1, h2, h3')] and [article.get_text(" ")]. *)
Record Article : Type := mkArticle {
  link_href : option string;
  heading_text : option string;
  article_text : string
}.

(** The patterns of lines 245, 265 and 270. *)
Definition PRICE_RE : string :=
  ("(\d[\d\s\.]*" ++ ")\s*[:\|-]?\s*(PLN|EUR|zł)")%string.
Definition YEAR_RE : string := "\b(19\d{2}|20[0-3]\d)\b".
Definition KM_RE : string := ("(\d[\d\s\.]*" ++ ")\s*km\b")%string.

Definition polish_fuels : list (string * string) :=
  [ ("Benzyna", "Benzyna");
    ("Diesel", "Diesel");
    ("Hybryda", "Hybryda");
    ("Elektryczny", "Elektryczny");
    ("LPG", "LPG") ]%string.

Section Extraction.
Context `{Builtins}.

(** Sequencing of steps that may raise: [None] is an exception, which the
    enclosing [try] turns into a dropped record. *)
Local Notation "x <- e ;; k" :=
  (match e with Some x => k | None => None end)
  (at level 100, e at next level, right associativity).

(** A loop whose body may raise. *)
Fixpoint run_loop {S A : Type} (body : S -> A -> option S) (l : list A) (s : S)
  : option S :=
  match l with
  | [] => Some s
  | a :: l' => s' <- body s a ;; run_loop body l' s'
  end.

(** ['amount' in price_obj]: a key of a dict, a substring of a string, an
    element of a list; a [TypeError] on anything else. *)
Definition contains_amount (price_obj : pyval) : option bool :=
  match price_obj with
  | PDict d => Some (dict_mem "amount" d)
  | PStr s => Some (str_in "amount" s)
  | PList l => Some (existsb (fun v => eq_str v "amount") l)
  | PNone | PBool _ | PInt _ | PFloat _ => None
  end.

(** [v['amount']] and the like: only a dict can be indexed by a string. *)
Definition subscript (v : pyval) (k : string) : option pyval :=
  match v with
  | PDict d => dict_get k d
  | _ => None
  end.

Definition is_dict (v : pyval) : bool :=
  match v with PDict _ => true | _ => false end.

(** [isinstance(v, (int, float, str))]; [bool] is a subclass of [int]. *)
Definition is_int_float_str (v : pyval) : bool :=
  match v with
  | PBool _ | PInt _ | PFloat _ | PStr _ => true
  | PNone | PList _ | PDict _ => false
  end.

(** Lines 179-188: the amount and the currency of the record. *)
Definition price_fields (node : pyval) : option (pyval * pyval) :=
  price_obj <- get_default node "price" (PDict []) ;;
  has_amount <- contains_amount price_obj ;;
  nested <- (if has_amount : bool
             then a <- subscript price_obj "amount" ;; Some (is_dict a)
             else Some false) ;;
  if nested : bool then
    a <- subscript price_obj "amount" ;;
    amount <- get_default a "units" PNone ;;
    currency <- get_default a "currencyCode" (PStr "PLN") ;;
    Some (amount, currency)
  else if is_int_float_str price_obj then
    currency <- get_default node "currency" (PStr "PLN") ;;
    Some (price_obj, currency)
  else None.

(** Lines 190-191: [if not amount: return None] and [float(amount)]. *)
Definition price_value (amount : pyval) : option Q :=
  if truthy amount then float_of amount else None.

(** The body of the loop of lines 199-208, on the triple
    [(year, mileage, fuel)]. *)
Definition parameter_step (st : option Z * option string * pyval) (p : pyval)
  : option (option Z * option string * pyval) :=
  let '(year, mileage, fuel) := st in
  key <- get_default p "key" PNone ;;
  display <- get_default p "displayValue" PNone ;;
  plain <- get_default p "value" PNone ;;
  let val := or_ display plain in
  if eq_str key "year" then
    if truthy val then y <- int_of val ;; Some (Some y, mileage, fuel)
    else Some (None, mileage, fuel)
  else if eq_str key "mileage" then
    Some (year,
          if truthy val then Some (str_of val ++ " km")%string else None,
          fuel)
  else if eq_str key "fuel_type" then Some (year, mileage, val)
  else Some st.

Definition as_str (v : pyval) : option string :=
  match v with PStr s => Some s | _ => None end.

Definition as_opt_str (v : pyval) : option (option string) :=
  match v with
  | PNone => Some None
  | PStr s => Some (Some s)
  | _ => None
  end.

(** Lines 210-219: the constructor call. *)
Definition make_car (title : pyval) (price_val : Q) (currency : pyval)
  (year : option Z) (mileage : option string) (fuel url : pyval) : parsed :=
  match as_str title, as_str currency, as_opt_str fuel, as_opt_str url with
  | Some title, Some currency, Some fuel, Some url =>
      Listing {| titulo := title;
                 preco := (format_0f price_val ++ " " ++ currency)%string;
                 preco_numerico := price_val;
                 moeda := currency;
                 ano := year;
                 quilometragem := mileage;
                 combustivel := fuel;
                 url := url |}
  | _, _, _, _ => Untyped
  end.

(** Everything before the constructor call; [None] when the method
    returns [None]. *)
Definition node_fields (node : pyval)
  : option (pyval * pyval * Q * pyval * (option Z * option string * pyval)) :=
  title <- get_default node "title" PNone ;;
  url <- get_default node "url" PNone ;;
  price <- price_fields node ;;
  price_val <- price_value (fst price) ;;
  params <- get_default node "parameters" (PList []) ;;
  entries <- iterate params ;;
  st <- run_loop parameter_step entries (None, None, PNone) ;;
  Some (title, url, price_val, snd price, st).

Definition _parse_node_data (node : pyval) : parsed :=
  match node_fields node with
  | None => Rejected
  | Some (title, url, price_val, currency, (year, mileage, fuel)) =>
      make_car title price_val currency year mileage fuel url
  end.

(** ** The visual-HTML strategy: [_extract_from_html] *)

(** [price_val < 500]. *)
Definition below_500 (price_val : Q) : bool := negb (Qle_bool 500 price_val).

(** The body of the loop of lines 229-300 for one article; [None] when
    the article is skipped, by [continue] or by an exception. *)
Definition parse_article (article : Article) : option Car :=
  url <- link_href article ;;
  let title :=
    match heading_text article with Some t => strip t | None => "N/A"%string end in
  let text := article_text article in
  price_match <- re_search PRICE_RE true text ;;
  number <- group price_match 1 ;;
  let price_str :=
    replace_char "," "." (replace_char "." "" (replace_char " " "" number)) in
  let price_str :=
    if (7 <? str_len price_str)%nat && startswith price_str "20"
    then str_from 4 price_str else price_str in
  price_val <- float_of_str price_str ;;
  if below_500 price_val then None else
  token <- group price_match 2 ;;
  let currency := upper token in
  let currency := if str_in "ZŁ" currency then "PLN"%string else currency in
  year <- match re_search YEAR_RE false text with
          | Some year_match =>
              g <- group year_match 1 ;; y <- int_of_str g ;; Some (Some y)
          | None => Some None
          end ;;
  mileage <- match re_search KM_RE false text with
             | Some km_match =>
                 g <- group km_match 1 ;; Some (Some (strip g ++ " km")%string)
             | None => Some None
             end ;;
  let fuel :=
    option_map snd
      (find (fun kv => str_in (lower (fst kv)) (lower text)) polish_fuels) in
  Some {| titulo := title;
          preco := (format_0f price_val ++ " " ++ currency)%string;
          preco_numerico := price_val;
          moeda := currency;
          ano := year;
          quilometragem := mileage;
          combustivel := fuel;
          url := Some url |}.

Definition _extract_from_html (articles : list Article) : list Car :=
  fold_left
    (fun cars article =>
       match parse_article article with
       | Some c => cars ++ [c]
       | None => cars
       end)
    articles [].

End Extraction.

End otomoto_scraper.

(* ===================================================================== *)
(** * A reference interpretation of the builtins

    A concrete [Builtins] on which the embedding runs.  It is exact on
    ASCII text (and knows the letter pair ł/Ł of the currency symbol):
    case mapping and whitespace beyond ASCII, exponents and special values
    in [float], the rendering of floats with a fractional part and of
    containers by [str], and patterns other than the three of the scraper
    are outside it.  No theorem depends on it; it serves the examples. *)
(* ===================================================================== *)

Module reference.
Import Py otomoto_scraper.

Definition in_range (lo hi : nat) (c : ascii) : bool :=
  let n := nat_of_ascii c in ((lo <=? n) && (n <=? hi))%nat.

Definition is_digit (c : ascii) : bool := in_range 48 57 c.
Definition is_upper (c : ascii) : bool := in_range 65 90 c.
Definition is_lower (c : ascii) : bool := in_range 97 122 c.

(** [\s] on ASCII: tab to carriage return, the four separators, space. *)
Definition is_space (c : ascii) : bool :=
  in_range 9 13 c || in_range 28 32 c.

(** [\w] on ASCII. *)
Definition is_word (c : ascii) : bool :=
  is_digit c || is_upper c || is_lower c || Ascii.eqb c "_".

Definition lower_char (c : ascii) : ascii :=
  if is_upper c then ascii_of_nat (nat_of_ascii c + 32) else c.

Definition upper_char (c : ascii) : ascii :=
  if is_lower c then ascii_of_nat (nat_of_ascii c - 32) else c.

(** Byte 197 followed by 129 is Ł, followed by 130 is ł. *)
Fixpoint ref_lower (s : string) : string :=
  match s with
  | EmptyString => EmptyString
  | String c s' =>
      match s' with
      | String d s'' =>
          if Ascii.eqb c (ascii_of_nat 197) && Ascii.eqb d (ascii_of_nat 129)
          then String c (String (ascii_of_nat 130) (ref_lower s''))
          else String (lower_char c) (ref_lower s')
      | EmptyString => String (lower_char c) EmptyString
      end
  end.

Fixpoint ref_upper (s : string) : string :=
  match s with
  | EmptyString => EmptyString
  | String c s' =>
      match s' with
      | String d s'' =>
          if Ascii.eqb c (ascii_of_nat 197) && Ascii.eqb d (ascii_of_nat 130)
          then String c (String (ascii_of_nat 129) (ref_upper s''))
          else String (upper_char c) (ref_upper s')
      | EmptyString => String (upper_char c) EmptyString
      end
  end.

Fixpoint lstrip (s : string) : string :=
  match s with
  | String c s' => if is_space c then lstrip s' else s
  | EmptyString => s
  end.

(** Removes trailing whitespace. *)
Fixpoint rstrip (s : string) : string :=
  match s with
  | EmptyString => EmptyString
  | String c s' =>
      match rstrip s' with
      | EmptyString => if is_space c then EmptyString else String c EmptyString
      | rest => String c rest
      end
  end.

Definition ref_strip (s : string) : string := rstrip (lstrip s).

(** The longest prefix whose characters satisfy [p], and the rest. *)
Fixpoint span (p : ascii -> bool) (s : string) : string * string :=
  match s with
  | String c s' =>
      if p c then let (a, b) := span p s' in (String c a, b) else (EmptyString, s)
  | EmptyString => (EmptyString, EmptyString)
  end.

(** A run of digits as a number. *)
Definition digits_value (s : string) : Z :=
  fold_left (fun acc c => (acc * 10 + Z.of_nat (nat_of_ascii c - 48))%Z)
            (list_ascii_of_string s) 0%Z.

(** An optional sign in front of [s]. *)
Definition split_sign (s : string) : bool * string :=
  match s with
  | String "-" s' => (true, s')
  | String "+" s' => (false, s')
  | _ => (false, s)
  end.

(** [int(s)] for an optionally signed run of digits. *)
Definition ref_int (s : string) : option Z :=
  let (negative, body) := split_sign (ref_strip s) in
  let (ds, rest) := span is_digit body in
  match ds, rest with
  | String _ _, EmptyString =>
      Some (if negative then - digits_value ds else digits_value ds)%Z
  | _, _ => None
  end.

(** [float(s)] for plain decimal notation: digits, with an optional
    fractional part. *)
Definition ref_float (s : string) : option Q :=
  let (negative, body) := split_sign (ref_strip s) in
  let (ds, rest) := span is_digit body in
  let signed (q : Q) := if negative then - q else q in
  match rest with
  | EmptyString =>
      match ds with
      | EmptyString => None
      | _ => Some (signed (inject_Z (digits_value ds)))
      end
  | String "." frac =>
      let (fs, rest') := span is_digit frac in
      match rest', (ds ++ fs)%string with
      | EmptyString, String _ _ =>
          Some (signed (Qred (Qmake (digits_value (ds ++ fs))
                                    (Z.to_pos (10 ^ Z.of_nat (String.length fs))))))
      | _, _ => None
      end
  | _ => None
  end.

(** [str(v)]. *)
Definition ref_str (v : pyval) : string :=
  match v with
  | PNone => "None"
  | PBool true => "True"
  | PBool false => "False"
  | PInt z => str_of_int z
  | PStr s => s
  | PFloat q =>
      match Qden (Qred q) with
      | 1%positive => str_of_int (Qnum (Qred q)) ++ ".0"
      | _ => "<float>"
      end
  | PList _ => "<list>"
  | PDict _ => "<dict>"
  end%string.

(** ** The three patterns

    Each pattern starts with a digit and its first group is a greedy run
    over a class that contains every character the following [\s*] could
    take, so the engine's backtracking never shortens the run: a match at
    a position exists exactly when the longest run is followed by the
    rest of the pattern.  [re.search] returns the leftmost match. *)

(** [s] starts with [p], up to case when [ignorecase]; the matched text
    and the rest. *)
Definition match_literal (ignorecase : bool) (p s : string) : option (string * string) :=
  let n := String.length p in
  let head := String.substring 0 n s in
  let fold (x : string) := if ignorecase then ref_lower x else x in
  if (String.length head =? n)%nat && (fold head =? fold p)%string
  then Some (head, String.substring n (String.length s - n) s)
  else None.

(** The first of the alternatives that matches. *)
Fixpoint match_any (ignorecase : bool) (ps : list string) (s : string)
  : option (string * string) :=
  match ps with
  | [] => None
  | p :: ps' =>
      match match_literal ignorecase p s with
      | Some r => Some r
      | None => match_any ignorecase ps' s
      end
  end.

(** The class [[\d\s\.]]. *)
Definition in_number (c : ascii) : bool :=
  is_digit c || is_space c || Ascii.eqb c ".".

(** The class [[:\|-]]. *)
Definition is_separator (c : ascii) : bool :=
  Ascii.eqb c ":" || Ascii.eqb c "|" || Ascii.eqb c "-".

Definition starts_with_digit (s : string) : bool :=
  match s with String c _ => is_digit c | EmptyString => false end.

(** No word character at the front of [s]: the [\b] after a word. *)
Definition at_word_end (s : string) : bool :=
  match s with String c _ => negb (is_word c) | EmptyString => true end.

(** The price pattern, anchored at the front of [s]. *)
Definition price_here (ignorecase : bool) (s : string) : option (list string) :=
  if starts_with_digit s then
    let (number, rest) := span in_number s in
    let rest :=
      match rest with
      | String c rest' => if is_separator c then rest' else rest
      | EmptyString => rest
      end in
    let (_, rest) := span is_space rest in
    match match_any ignorecase ["PLN"; "EUR"; "zł"]%string rest with
    | Some (token, _) => Some [number; token]
    | None => None
    end
  else None.

(** The mileage pattern, anchored at the front of [s]. *)
Definition km_here (ignorecase : bool) (s : string) : option (list string) :=
  if starts_with_digit s then
    let (number, rest) := span in_number s in
    match match_literal ignorecase "km" rest with
    | Some (_, rest') => if at_word_end rest' then Some [number] else None
    | None => None
    end
  else None.

(** The year pattern, anchored at the front of [s], the [\b] in front of
    it being checked by the caller. *)
Definition year_here (s : string) : option (list string) :=
  match s with
  | String a (String b (String c (String d rest))) =>
      let century19 := Ascii.eqb a "1" && Ascii.eqb b "9" && is_digit c in
      let century20 := Ascii.eqb a "2" && Ascii.eqb b "0" && in_range 48 51 c in
      if (century19 || century20) && is_digit d && at_word_end rest
      then Some [String a (String b (String c (String d EmptyString)))]
      else None
  | _ => None
  end.

(** Leftmost match of an anchored matcher. *)
Fixpoint search (here : string -> option (list string)) (s : string)
  : option (list string) :=
  match here s with
  | Some m => Some m
  | None =>
      match s with
      | String _ s' => search here s'
      | EmptyString => None
      end
  end.

(** Leftmost match of the year pattern; [after_word] tells whether the
    character in front of [s] is a word character. *)
Fixpoint search_year (after_word : bool) (s : string) : option (list string) :=
  match (if after_word then None else year_here s) with
  | Some m => Some m
  | None =>
      match s with
      | String c s' => search_year (is_word c) s'
      | EmptyString => None
      end
  end.

Definition ref_search (pattern : string) (ignorecase : bool) (text : string)
  : option (list string) :=
  if (pattern =? PRICE_RE)%string then search (price_here ignorecase) text
  else if (pattern =? YEAR_RE)%string then search_year false text
  else if (pattern =? KM_RE)%string then search (km_here ignorecase) text
  else None.

#[export] Instance builtins : Builtins := {|
  lower := ref_lower;
  upper := ref_upper;
  strip := ref_strip;
  str_of := ref_str;
  float_of_str := ref_float;
  int_of_str := ref_int;
  re_search := ref_search
|}.

End reference.

(* ===================================================================== *)
(** * Notions the claims are stated with

    These definitions are not part of the program: they read a URL back
    into its query parameters, and spell out the query the URL builder is
    expected to produce, so that the claims can be stated on the URL
    itself. *)
(* ===================================================================== *)

Module observe.
Import Py car config otomoto_scraper.

(** The text after the first [?]. *)
Fixpoint query_string_of (url : string) : string :=
  match url with
  | EmptyString => EmptyString
  | String c s => if Ascii.eqb c "?" then s else query_string_of s
  end.

(** The pieces of [s] between the occurrences of [sep]. *)
Fixpoint split_on (sep : ascii) (s : string) : list string :=
  match s with
  | EmptyString => [EmptyString]
  | String c s' =>
      if Ascii.eqb c sep then EmptyString :: split_on sep s'
      else
        match split_on sep s' with
        | x :: rest => String c x :: rest
        | [] => [String c EmptyString]
        end
  end.

(** An item [key=value], cut at its first [=]. *)
Fixpoint key_value (item : string) : string * string :=
  match item with
  | EmptyString => (EmptyString, EmptyString)
  | String c s =>
      if Ascii.eqb c "=" then (EmptyString, s)
      else let (k, v) := key_value s in (String c k, v)
  end.

(** The query parameters of a URL, still percent-encoded, in order. *)
Definition url_parameters (url : string) : list (string * string) :=
  map key_value (split_on "&" (query_string_of url)).

(** The parameters named [key]. *)
Definition parameters_named (key : string) (items : list (string * string))
  : list (string * string) :=
  filter (fun kv => (fst kv =? key)%string) items.

(** One entry for a truthy string, a truthy integer, a truthy string that
    the table maps; none otherwise. *)
Definition str_entry (k : string) (o : option string) : query :=
  match o with
  | Some s => if (s =? "")%string then [] else [(k, QStr s)]
  | None => []
  end.

Definition int_entry (k : string) (o : option Z) : query :=
  match o with
  | Some z => if (z =? 0)%Z then [] else [(k, QInt z)]
  | None => []
  end.

Definition mapped_entry (k : string) (o : option string)
  (table : list (string * string)) : query :=
  match o with
  | Some s =>
      if (s =? "")%string then []
      else match dict_get s table with
           | Some token => [(k, QStr token)]
           | None => []
           end
  | None => []
  end.

(** The query as the specification describes it: the marker, the page
    when it exceeds 1, then one entry per parameter that has one. *)
Definition expected_query (params : CarSearchParams) (page : Z) : query :=
  [("search[advanced_search_expanded]"%string, QStr "true")]
  ++ (if (1 <? page)%Z then [("page"%string, QInt page)] else [])
  ++ str_entry "search[filter_enum_make]" (marca params)
  ++ str_entry "search[filter_enum_model]" (modelo params)
  ++ int_entry "search[filter_float_year:from]" (ano_min params)
  ++ int_entry "search[filter_float_year:to]" (ano_max params)
  ++ int_entry "search[filter_float_mileage:to]" (km_max params)
  ++ int_entry "search[filter_float_price:to]" (preco_max params)
  ++ mapped_entry "search[filter_enum_fuel_type]" (combustivel_param params)
       FUEL_TYPE_MAP
  ++ mapped_entry "search[filter_enum_gearbox]" (caixa params) TRANSMISSION_MAP.

(** An encoded item of the query. *)
Definition encoded (kv : string * query_value) : string * string :=
  (quote_plus (fst kv), quote_plus (query_str (snd kv))).

(** The last listing of [cars] whose key is [k]. *)
Fixpoint last_with_key (k : string) (cars : list Car) : option Car :=
  match cars with
  | [] => None
  | c :: rest =>
      match last_with_key k rest with
      | Some c' => Some c'
      | None => if (car_key c =? k)%string then Some c else None
      end
  end.

(** Keys are distinct and every listing is filed under its own key. *)
Definition well_keyed (d : list (string * Car)) : Prop :=
  NoDup (dict_keys d) /\ Forall (fun kc => car_key (snd kc) = fst kc) d.

(** [s] does not contain the character [x]. *)
Fixpoint lacks (x : ascii) (s : string) : bool :=
  match s with
  | EmptyString => true
  | String c s' => negb (Ascii.eqb c x) && lacks x s'
  end.

End observe.

(* ===================================================================== *)
(** * Sample inputs *)
(* ===================================================================== *)

Module examples.
Import Py car helpers brand_model_validator otomoto_scraper.

(** A listing with a title, a whole price in PLN and possibly a URL. *)
Definition listing (title : string) (price : Z) (link : option string) : Car :=
  {| titulo := title;
     preco := (str_of_int price ++ " PLN")%string;
     preco_numerico := inject_Z price;
     moeda := "PLN";
     ano := None;
     quilometragem := None;
     combustivel := None;
     url := link |}.

(** Forty listings: 1000, 2000, ..., 38000 and the two extremes 101 and
    1000000. *)
Definition forty : list Car :=
  listing "low" 101 None :: listing "high" 1000000 None
  :: map (fun i => listing "car" (1000 * Z.of_nat i) None) (seq 1 38).

(** Three listings, none priced above 100. *)
Definition cheap : list Car :=
  [listing "a" 100 None; listing "b" 0 None; listing "c" 50 None].

(** Twenty listings, two of them at the lowest price 200: one of the two
    is trimmed, the other is not. *)
Definition twenty_with_tie : list Car :=
  listing "tie 1" 200 None :: listing "tie 2" 200 None
  :: map (fun i => listing "car" (1000 * Z.of_nat i) None) (seq 1 18).

(** Three listings from two pages; the first and the last share a URL. *)
Definition earlier : Car :=
  listing "Fiat 500" 30000 (Some "https://www.otomoto.pl/oferta/1"%string).
Definition other : Car :=
  listing "Opel Astra" 20000 (Some "https://www.otomoto.pl/oferta/2"%string).
Definition later : Car :=
  listing "Fiat 500 Lounge" 29000 (Some "https://www.otomoto.pl/oferta/1"%string).
Definition pages : list Car := [earlier; other; later].

Definition sample_params : CarSearchParams :=
  {| marca := Some "bmw";
     modelo := Some "x5";
     ano_min := None;
     ano_max := None;
     km_max := None;
     preco_max := Some 50000%Z;
     caixa := Some "automatica";
     combustivel_param := Some "gasoleo" |}%string.

(** A maximum mileage of 0 and nothing else. *)
Definition zero_mileage_params : CarSearchParams :=
  mkCarSearchParams None None None None (Some 0%Z) None None None.

Definition catalog : Brands :=
  [ ("bmw", mkBrand "bmw" "BMW" [mkModel "x5" "X5"; mkModel "seria-3" "Seria 3"]);
    ("audi", mkBrand "audi" "Audi" [mkModel "a4" "A4"]);
    ("fiat", mkBrand "fiat" "Fiat" [mkModel "500" "500"]);
    ("opel", mkBrand "opel" "Opel" []);
    ("volvo", mkBrand "volvo" "Volvo" []);
    ("toyota", mkBrand "toyota" "Toyota" []) ]%string.

(** The display text of the first entry is, up to case, the key of the
    second. *)
Definition romeo : BrandData := mkBrand "romeo-cars" "Romeo Cars" [].
Definition crossed_catalog : Brands :=
  [ ("alfa", mkBrand "alfa-romeo" "Romeo" []); ("romeo", romeo) ]%string.

(** A canonical value stored with capital letters. *)
Definition capital_catalog : Brands :=
  [ ("bmw-group", mkBrand "BMW" "Bayerische Motoren Werke" []) ]%string.

(** A record with all the fields the parser reads. *)
Definition ordinary_node : pyval :=
  PDict [ ("title", PStr "Fiat 500");
          ("url", PStr "https://www.otomoto.pl/oferta/1");
          ("price", PDict [("amount", PDict [("units", PInt 34900);
                                             ("currencyCode", PStr "PLN")])]);
          ("parameters",
           PList [ PDict [("key", PStr "year"); ("value", PStr "2015")];
                   PDict [("key", PStr "mileage"); ("displayValue", PStr "45 000")];
                   PDict [("key", PStr "fuel_type"); ("value", PStr "petrol")] ]) ]%string.

Definition ordinary_listing : Car :=
  {| titulo := "Fiat 500";
     preco := "34900 PLN";
     preco_numerico := 34900;
     moeda := "PLN";
     ano := Some 2015%Z;
     quilometragem := Some "45 000 km";
     combustivel := Some "petrol";
     url := Some "https://www.otomoto.pl/oferta/1" |}%string.

(** The same record with an amount of -5 units. *)
Definition negative_node : pyval :=
  PDict [ ("title", PStr "Fiat 500");
          ("url", PStr "https://www.otomoto.pl/oferta/1");
          ("price", PDict [("amount", PDict [("units", PInt (-5));
                                             ("currencyCode", PStr "PLN")])]) ]%string.

Definition negative_listing : Car :=
  {| titulo := "Fiat 500";
     preco := "-5 PLN";
     preco_numerico := -5;
     moeda := "PLN";
     ano := None;
     quilometragem := None;
     combustivel := None;
     url := Some "https://www.otomoto.pl/oferta/1" |}%string.

(** Four articles: two that parse, one priced below the threshold and
    one without a link. *)
Definition articles : list Article :=
  [ mkArticle (Some "https://www.otomoto.pl/oferta/1") (Some "  Fiat 500  ")
      "Fiat 500 2015 Benzyna 34 900 PLN";
    mkArticle (Some "https://www.otomoto.pl/oferta/2") None
      "Opel 1999 120.000 km diesel 201599000 | zł";
    mkArticle (Some "https://www.otomoto.pl/oferta/3") None "Opel 300 PLN";
    mkArticle None None "Opel 3000 PLN" ]%string.

Definition first_article_listing : Car :=
  {| titulo := "Fiat 500";
     preco := "34900 PLN";
     preco_numerico := 34900;
     moeda := "PLN";
     ano := Some 2015%Z;
     quilometragem := None;
     combustivel := Some "Benzyna";
     url := Some "https://www.otomoto.pl/oferta/1" |}%string.

End examples.

(* ===================================================================== *)
(** * Further notions the properties are stated with *)
(* ===================================================================== *)

Module notions.
Import Py car config otomoto_scraper.

(** Every character of [s] satisfies [p]. *)
Fixpoint string_forall (p : ascii -> bool) (s : string) : bool :=
  match s with
  | EmptyString => true
  | String c s' => p c && string_forall p s'
  end.

(** The characters a built URL is made of: the unreserved ones, the
    delimiters of the address and of the query, the percent sign of an
    escape and the plus sign that stands for a space. *)
Definition url_char (c : ascii) : bool :=
  always_safe c
  || existsb (Ascii.eqb c) (list_ascii_of_string ":/?&=%+").

(** The keys of [keys], each at its first occurrence. *)
Fixpoint first_occurrences (keys : list string) : list string :=
  match keys with
  | [] => []
  | k :: rest =>
      k :: filter (fun k' => negb (k' =? k)%string) (first_occurrences rest)
  end.

End notions.

(* ===================================================================== *)
(** * scraper/otomoto_scraper.py, continued: the embedded payload and the
      pagination *)
(* ===================================================================== *)

Module next_data.
Import Py car otomoto_scraper.

(** What BeautifulSoup reports about a page: the content of the script
    element with id [__NEXT_DATA__] as [json.loads] reads it, and the
    [article] elements.  For the script, [None] says that the page has
    none and [Some None] that its content is not JSON. *)
Record Soup : Type := mkSoup {
  script : option (option pyval);
  soup_articles : list Article
}.

(** The nodes of the edges that are dictionaries with a [node] key. *)
Fixpoint edge_nodes (edges : list pyval) : list pyval :=
  match edges with
  | [] => []
  | PDict edge :: rest =>
      match dict_get "node" edge with
      | Some node => node :: edge_nodes rest
      | None => edge_nodes rest
      end
  | _ :: rest => edge_nodes rest
  end.

(** Lines 144-151: what a dictionary yields by itself. *)
Definition direct_items (obj : list (string * pyval)) : list pyval :=
  match dict_get "edges" obj with
  | Some (PList edges) => edge_nodes edges
  | _ =>
      match dict_get "list" obj with
      | Some (PList items) => items
      | _ => []
      end
  end.

(** [isinstance(v, (dict, list))]. *)
Definition is_dict_or_list (v : pyval) : bool :=
  match v with
  | PDict _ | PList _ => true
  | _ => false
  end.

(** The generator [find_items], as the list of what it yields. *)
Fixpoint find_items (obj : pyval) : list pyval :=
  match obj with
  | PDict d =>
      direct_items d
      ++ (fix over_values (entries : list (string * pyval)) : list pyval :=
            match entries with
            | [] => []
            | (_, v) :: rest =>
                (if is_dict_or_list v then find_items v else [])
                ++ over_values rest
            end) d
  | PList l =>
      (fix over_items (items : list pyval) : list pyval :=
         match items with
         | [] => []
         | item :: rest => find_items item ++ over_items rest
         end) l
  | PNone | PBool _ | PInt _ | PFloat _ | PStr _ => []
  end.

(** Lines 161-163: the minimal shape of a record. *)
Definition is_candidate (item : pyval) : bool :=
  match item with
  | PDict d =>
      dict_mem "title" d && dict_mem "price" d
      && (dict_mem "url" d || dict_mem "id" d)
  | _ => false
  end.

Section Pages.
Context `{Builtins}.

Local Notation "x <- e ;; k" :=
  (match e with Some x => k | None => None end)
  (at level 100, e at next level, right associativity).

(** Lines 160-165, on the candidates: the listings parsed from them, in
    order.  [None] when some record yields a [Car] outside the declared
    types, which the typed list cannot hold. *)
Fixpoint parse_candidates (items : list pyval) : option (list Car) :=
  match items with
  | [] => Some []
  | item :: rest =>
      match _parse_node_data item with
      | Listing c => cars <- parse_candidates rest ;; Some (c :: cars)
      | Rejected => parse_candidates rest
      | Untyped => None
      end
  end.

Definition _extract_next_data (soup : Soup) : option (list Car) :=
  match script soup with
  | None => Some []
  | Some None => Some []
  | Some (Some data) => parse_candidates (filter is_candidate (find_items data))
  end.

(** Lines 85-88 and 105-107: the embedded payload first, the articles
    when it gives nothing. *)
Definition extract_page (soup : Soup) : option (list Car) :=
  page_cars <- _extract_next_data soup ;;
  match page_cars with
  | [] => Some (_extract_from_html (soup_articles soup))
  | _ => Some page_cars
  end.

(** The scraper's flag, and the two ways of fetching an address: the
    HTTP session and the browser.  A fetch answers with the page, or
    with [None] when it raises or, for the session, when the status is
    not 200. *)
Variable use_selenium : bool.
Variable session_get : string -> option Soup.
Variable driver_get : string -> option Soup.

(** Lines 78-109: the listings of one address. *)
Definition fetch_page (url : string) : option (list Car) :=
  page_cars <- match session_get url with
               | Some soup => extract_page soup
               | None => Some []
               end ;;
  match page_cars with
  | [] =>
      if use_selenium then
        match driver_get url with
        | Some soup => extract_page soup
        | None => Some []
        end
      else Some []
  | _ => Some page_cars
  end.

(** The loop of lines 74-119 from [page] on, with [remaining] iterations
    left: the addresses logged at line 76 and the listings gathered. *)
Fixpoint pages_from (params : CarSearchParams) (page : Z) (remaining : nat)
  : option (list string * list Car) :=
  match remaining with
  | O => Some ([], [])
  | S remaining' =>
      let url := _build_url params page in
      page_cars <- fetch_page url ;;
      match page_cars with
      | [] => Some ([url], [])
      | _ =>
          if (List.length page_cars <? 10)%nat then Some ([url], page_cars)
          else
            rest <- pages_from params (page + 1) remaining' ;;
            Some (url :: fst rest, page_cars ++ snd rest)
      end
  end.

(** [search_cars]: the addresses requested and the listings returned. *)
Definition search_cars (params : CarSearchParams) (max_pages : Z)
  : option (list string * list Car) :=
  gathered <- pages_from params 1 (Z.to_nat max_pages) ;;
  Some (fst gathered, _deduplicate (snd gathered)).

End Pages.

(** [inner] is [obj] or lies inside it, at any depth, as a value of a
    dictionary or an element of a list. *)
Inductive inside (inner : pyval) : pyval -> Prop :=
| inside_here : inside inner inner
| inside_dict (k : string) (v : pyval) (d : list (string * pyval)) :
    In (k, v) d -> inside inner v -> inside inner (PDict d)
| inside_list (v : pyval) (l : list pyval) :
    In v l -> inside inner v -> inside inner (PList l).

End next_data.

(* ===================================================================== *)
(** * utils/full_extraction.py

    The bulk run is a loop over the catalog that reads and writes files
    and calls the scraper.  Its state is passed explicitly: the progress
    set, the counters, the files written and the searches made.  What the
    files held before the run and what a search answers are parameters.
    Writing a file is taken to succeed, a directory made during the run is
    taken not to sit at the path of a CSV file, and the run is interrupted
    only while it searches; waiting and logging leave no trace.  Paths are
    joined as [os.path.join] does on POSIX. *)
(* ===================================================================== *)

Module full_extraction.
Import Py car brand_model_validator.

(** From [utils/config.py]. *)
Definition FULL_EXTRACTION_OUTPUT_DIR : string := "cars".
Definition FULL_EXTRACTION_MAX_PAGES : Z := 3.

(** [os.path.join(a, b)]. *)
Definition path_join (a b : string) : string :=
  if startswith b "/" then b
  else if (a =? "")%string || String.prefix "/" (String.substring (String.length a - 1) 1 a)
  then (a ++ b)%string
  else (a ++ "/" ++ b)%string.

Definition PROGRESS_FILE : string :=
  path_join FULL_EXTRACTION_OUTPUT_DIR ".progress.json".

(** The characters of line 38: backslash, slash, colon, asterisk,
    question mark, double quote, the two angle brackets and the bar. *)
Definition forbidden_chars : list ascii :=
  list_ascii_of_string "\/:*?" ++ ascii_of_nat 34 :: list_ascii_of_string "<>|".

(** [s.lstrip('.')] and [s.rstrip('.')]. *)
Fixpoint lstrip_dots (s : string) : string :=
  match s with
  | String c s' => if Ascii.eqb c "." then lstrip_dots s' else s
  | EmptyString => s
  end.

Fixpoint rstrip_dots (s : string) : string :=
  match s with
  | EmptyString => EmptyString
  | String c s' =>
      match rstrip_dots s' with
      | EmptyString => if Ascii.eqb c "." then EmptyString else String c EmptyString
      | rest => String c rest
      end
  end.

(** [s.strip('.')]. *)
Definition strip_dots (s : string) : string := rstrip_dots (lstrip_dots s).

Definition _sanitize `{Builtins} (name : string) : string :=
  let name := fold_left (fun name ch => replace_char ch "-" name) forbidden_chars name in
  strip_dots (strip name).

(** ** The progress set

    A set of tuples, kept as a list of its elements: only membership is
    read from it.  The run looks up and adds pairs of strings; a file may
    bring in anything. *)

Definition pair_tuple (brand_value model_value : string) : list pyval :=
  [PStr brand_value; PStr model_value].

(** A tuple equals the pair of two strings when it is made of those two
    strings. *)
Definition is_pair (brand_value model_value : string) (t : list pyval) : bool :=
  match t with
  | [PStr b; PStr m] => (b =? brand_value)%string && (m =? model_value)%string
  | _ => false
  end.

(** [pair in already_done]. *)
Definition in_done (brand_value model_value : string) (done : list (list pyval))
  : bool :=
  existsb (is_pair brand_value model_value) done.

(** [already_done.add(pair)]. *)
Definition add_done (brand_value model_value : string) (done : list (list pyval))
  : list (list pyval) :=
  if in_done brand_value model_value done then done
  else done ++ [pair_tuple brand_value model_value].

(** Lists and dictionaries cannot be members of a tuple of a set. *)
Definition hashable (v : pyval) : bool :=
  match v with
  | PList _ | PDict _ => false
  | _ => true
  end.

(** The characters of a string, each with the bytes that encode it: a
    byte from 128 to 191 continues the character before it. *)
Definition is_continuation (c : ascii) : bool :=
  (128 <=? nat_of_ascii c)%nat && (nat_of_ascii c <? 192)%nat.

Fixpoint split_characters (s : string) : string * list string :=
  match s with
  | EmptyString => (EmptyString, [])
  | String c s' =>
      let (pending, done) := split_characters s' in
      if is_continuation c then (String c pending, done)
      else (EmptyString, String c pending :: done)
  end.

Definition characters (s : string) : list string := snd (split_characters s).

(** What iterating a value of the file yields: as [iterate], but a string
    by characters. *)
Definition elements (v : pyval) : option (list pyval) :=
  match v with
  | PStr s => Some (map PStr (characters s))
  | _ => iterate v
  end.

(** [tuple(entry) for entry in entries]; [None] when an entry is not
    iterable. *)
Fixpoint tuples_of (entries : list pyval) : option (list (list pyval)) :=
  match entries with
  | [] => Some []
  | entry :: rest =>
      match elements entry, tuples_of rest with
      | Some t, Some ts => Some (t :: ts)
      | _, _ => None
      end
  end.

(** [_load_progress], given what the progress file holds: [None] when
    there is no file, [Some None] when it cannot be read as JSON.  Any
    exception gives the empty set. *)
Definition _load_progress (file : option (option pyval)) : list (list pyval) :=
  match file with
  | None => []
  | Some None => []
  | Some (Some data) =>
      match get_default data "done" (PList []) with
      | Some entries =>
          match elements entries with
          | Some entries =>
              match tuples_of entries with
              | Some done =>
                  if forallb (forallb hashable) done then done else []
              | None => []
              end
          | None => []
          end
      | None => []
      end
  end.

(** The document [_save_progress] writes. *)
Definition progress_document (done : list (list pyval)) : pyval :=
  PDict [("done"%string, PList (map PList done))].

(** ** The run *)

Record Stats : Type := mkStats {
  processed : nat;
  with_results : nat;
  empty : nat;
  skipped : nat;
  errors : nat
}.

Record World : Type := mkWorld {
  already_done : list (list pyval);
  stats : Stats;
  csv_files : list (string * list Car);   (* written by _save_to_csv *)
  progress_file : option (option pyval);  (* as _load_progress reads it *)
  searched : list (string * string)       (* the calls of search_cars *)
}.

(** How a call of [search_cars] ends. *)
Inductive outcome : Type :=
| Found (results : list Car)
| Raised               (* an Exception *)
| Interrupted.         (* a KeyboardInterrupt *)

(** How an iteration ends: the loop goes on, or the function returns. *)
Inductive flow : Type :=
| Continue (w : World)
| Return (w : World).

Section Run.
Context `{Builtins}.

(** The CSV files present before the run, and what the scraper answers
    to its [n]-th search, [n] counted from 0. *)
Variable csv_exists : string -> bool.
Variable search : nat -> CarSearchParams -> Z -> outcome.

Definition brand_dir_of (brand_value : string) : string :=
  path_join FULL_EXTRACTION_OUTPUT_DIR (_sanitize brand_value).

Definition model_dir_of (brand_value model_value : string) : string :=
  path_join (brand_dir_of brand_value) (_sanitize model_value).

Definition csv_path_of (brand_value model_value : string) : string :=
  path_join (model_dir_of brand_value model_value)
            (_sanitize model_value ++ ".csv")%string.

(** [os.path.exists(csv_path)] during the run. *)
Definition path_exists (w : World) (path : string) : bool :=
  csv_exists path || dict_mem path (csv_files w).

Definition count_skipped (s : Stats) : Stats :=
  mkStats (processed s) (with_results s) (empty s) (S (skipped s)) (errors s).

Definition count_processed (s : Stats) : Stats :=
  mkStats (S (processed s)) (with_results s) (empty s) (skipped s) (errors s).

Definition count_with_results (s : Stats) : Stats :=
  mkStats (processed s) (S (with_results s)) (empty s) (skipped s) (errors s).

Definition count_empty (s : Stats) : Stats :=
  mkStats (processed s) (with_results s) (S (empty s)) (skipped s) (errors s).

Definition count_error (s : Stats) : Stats :=
  mkStats (processed s) (with_results s) (empty s) (skipped s) (S (errors s)).

(** [_save_progress(already_done)]. *)
Definition _save_progress (w : World) : World :=
  mkWorld (already_done w) (stats w) (csv_files w)
          (Some (Some (progress_document (already_done w)))) (searched w).

(** The body of the loop of lines 122-200 for one model. *)
Definition process_model (brand_value : string) (model : ModelEntry) (w : World)
  : flow :=
  let model_value := value model in
  if in_done brand_value model_value (already_done w) then
    Continue (mkWorld (already_done w) (count_skipped (stats w)) (csv_files w)
                      (progress_file w) (searched w))
  else
    let csv_path := csv_path_of brand_value model_value in
    if path_exists w csv_path then
      Continue (mkWorld (add_done brand_value model_value (already_done w))
                        (count_skipped (stats w)) (csv_files w)
                        (progress_file w) (searched w))
    else
      let params :=
        mkCarSearchParams (Some brand_value) (Some model_value)
                          None None None None None None in
      let calls := searched w ++ [(brand_value, model_value)] in
      match search (List.length (searched w)) params FULL_EXTRACTION_MAX_PAGES with
      | Found results =>
          let counted := count_processed (stats w) in
          let files :=
            match results with
            | [] => csv_files w
            | _ => dict_set csv_path results (csv_files w)
            end in
          let counted :=
            match results with
            | [] => count_empty counted
            | _ => count_with_results counted
            end in
          Continue
            (_save_progress
               (mkWorld (add_done brand_value model_value (already_done w))
                        counted files (progress_file w) calls))
      | Interrupted =>
          Return
            (_save_progress
               (mkWorld (already_done w) (stats w) (csv_files w)
                        (progress_file w) calls))
      | Raised =>
          Continue (mkWorld (already_done w) (count_error (stats w)) (csv_files w)
                            (progress_file w) calls)
      end.

(** The loop of line 122. *)
Fixpoint process_models (brand_value : string) (models : list ModelEntry)
  (w : World) : flow :=
  match models with
  | [] => Continue w
  | model :: rest =>
      match process_model brand_value model w with
      | Continue w' => process_models brand_value rest w'
      | Return w' => Return w'
      end
  end.

(** The loop of line 110. *)
Fixpoint process_brands (brands : Brands) (w : World) : flow :=
  match brands with
  | [] => Continue w
  | (_, brand_data) :: rest =>
      match process_models (brand_value brand_data) (models brand_data) w with
      | Continue w' => process_brands rest w'
      | Return w' => Return w'
      end
  end.

(** The two loops as one, over the pairs of the catalog. *)
Fixpoint process_pairs (pairs : list (string * ModelEntry)) (w : World) : flow :=
  match pairs with
  | [] => Continue w
  | (brand_value, model) :: rest =>
      match process_model brand_value model w with
      | Continue w' => process_pairs rest w'
      | Return w' => Return w'
      end
  end.

(** [run_full_extraction], given the catalog and the progress file: the
    state at the end, whose counters are the statistics returned. *)
Definition run_full_extraction (brands : Brands) (file : option (option pyval))
  : World :=
  let start :=
    mkWorld (_load_progress file) (mkStats 0 0 0 0 0) [] file [] in
  match process_brands brands start with
  | Continue w => _save_progress w
  | Return w => w
  end.

(** Line 92: [total_models]. *)
Definition total_models (brands : Brands) : nat :=
  list_sum (map (fun kd => List.length (models (snd kd))) brands).

End Run.

(** The state an iteration, or the loops, end with. *)
Definition world_of (f : flow) : World :=
  match f with Continue w => w | Return w => w end.

(** The parameters of the search for a pair. *)
Definition pair_params (brand_value model_value : string) : CarSearchParams :=
  mkCarSearchParams (Some brand_value) (Some model_value)
                    None None None None None None.

(** The pairs of the catalog, in the order of the two loops. *)
Definition catalog_pairs (brands : Brands) : list (string * ModelEntry) :=
  flat_map (fun kd => map (fun m => (brand_value (snd kd), m)) (models (snd kd)))
           brands.

End full_extraction.

(* ===================================================================== *)
(** * main.py

    [main] once the arguments are parsed and [--full_extraction] is not
    given: the request is normalised against the catalog, one search is
    made, one document is printed and the process ends with a code.  The
    catalog and what the search answers are parameters. *)
(* ===================================================================== *)

Module main.
Import Py car helpers brand_model_validator full_extraction.

(** The documents [main] prints: the keys of a summary, and the three
    keys the error document adds. *)
Record Output : Type := mkOutput {
  summary : Summary;
  erro : option string;
  detalhes : option (list string);
  sugestoes : option Suggestions
}.

(** Lines 56-61. *)
Definition empty_output : Summary :=
  {| preco_intervalo := {| interval_min := None; interval_max := None |};
     media_aproximada := None;
     viaturas_consideradas := 0;
     anuncios_usados_para_calculo := Some [] |}.

Definition plain (s : Summary) : Output := mkOutput s None None None.

(** Lines 95-98. *)
Definition error_output (val_result : Result) : Output :=
  mkOutput empty_output (Some "Parâmetros inválidos"%string)
           (Some (brand_model_validator.errors val_result))
           (Some (suggestions val_result)).

(** How the process ends: the searches made, the document printed and
    the exit code, 0 when [main] returns. *)
Record Ended : Type := mkEnded {
  searches : list CarSearchParams;
  printed : Output;
  exit_code : Z
}.

Definition with_names (params : CarSearchParams) (marca' modelo' : option string)
  : CarSearchParams :=
  mkCarSearchParams marca' modelo' (ano_min params) (ano_max params)
                    (km_max params) (preco_max params) (caixa params)
                    (combustivel_param params).

Section Main.
Context `{Builtins}.
Variable brands : Brands.
Variable search : CarSearchParams -> outcome.

(** Lines 79-101: the parameters to search with, or the result of a
    failed validation. *)
Definition normalise (params : CarSearchParams) : CarSearchParams + Result :=
  if truthy_str (marca params) then
    let val_result := validate_search_params brands (marca params) (modelo params) in
    if valid val_result then
      let marca' :=
        if truthy_str (result_brand_value val_result)
        then result_brand_value val_result else marca params in
      let modelo' :=
        if truthy_str (result_model_value val_result)
        then result_model_value val_result else modelo params in
      inl (with_names params marca' modelo')
    else inr val_result
  else inl params.

(** Lines 63-133. *)
Definition main (params : CarSearchParams) : Ended :=
  match normalise params with
  | inr val_result => mkEnded [] (error_output val_result) 1
  | inl params =>
      match search params with
      | Found [] => mkEnded [params] (plain empty_output) 0
      | Found results =>
          mkEnded [params] (plain (calculate_price_interval results)) 0
      | Interrupted => mkEnded [params] (plain empty_output) 0
      | Raised => mkEnded [params] (plain empty_output) 1
      end
  end.

End Main.

End main.

(* ===================================================================== *)
(** * More sample inputs *)
(* ===================================================================== *)

Module scenarios.
Import Py car helpers brand_model_validator otomoto_scraper next_data.
Import full_extraction reference examples.

(** A record whose amount is 0 units. *)
Definition zero_node : pyval :=
  PDict [ ("title", PStr "Fiat 500");
          ("url", PStr "https://www.otomoto.pl/oferta/1");
          ("price", PDict [("amount", PDict [("units", PInt 0);
                                             ("currencyCode", PStr "PLN")])]) ]%string.

(** The record of the advertisement number [i]. *)
Definition node_of (i : Z) : pyval :=
  PDict [ ("title", PStr ("Car " ++ str_of_int i));
          ("url", PStr ("https://www.otomoto.pl/oferta/" ++ str_of_int i));
          ("price", PDict [("amount", PDict [("units", PInt (10000 + i));
                                             ("currencyCode", PStr "PLN")])]) ]%string.

(** A page whose payload lists the advertisements [ids]. *)
Definition page_of (ids : list Z) : Soup :=
  mkSoup (Some (Some (PDict [("props", PDict [("list", PList (map node_of ids))])]%string)))
         [].

(** A site with two pages of results for [sample_params]: ten
    advertisements, then three, the first of which was on the first page
    already. *)
Definition site (address : string) : option Soup :=
  if (address =? _build_url sample_params 1)%string
  then Some (page_of [1; 2; 3; 4; 5; 6; 7; 8; 9; 10]%Z)
  else if (address =? _build_url sample_params 2)%string
  then Some (page_of [10; 11; 12]%Z)
  else None.

Definition no_browser (address : string) : option Soup := None.

(** What [search_cars] gives on that site with a cap of three pages. *)
Definition two_pages : list string * list Car :=
  match search_cars false site no_browser sample_params 3 with
  | Some gathered => gathered
  | None => ([], [])
  end.

(** A bulk run over [catalog] that resumes: the progress file lists the
    first model, the CSV file of the third exists, the first search finds
    one listing and the second fails. *)
Definition progress_before : option (option pyval) :=
  Some (Some (PDict [("done", PList [PList [PStr "bmw"; PStr "x5"]])]))%string.

Definition files_before (path : string) : bool :=
  (path =? "cars/audi/a4/a4.csv")%string.

Definition answers (n : nat) (params : CarSearchParams) (max_pages : Z) : outcome :=
  match n with
  | 0%nat => Found [listing "BMW 320" 45000 (Some "https://www.otomoto.pl/oferta/7"%string)]
  | 1%nat => Raised
  | _ => Found []
  end.

Definition no_files (path : string) : bool := false.

Definition nothing_found (n : nat) (params : CarSearchParams) (max_pages : Z)
  : outcome := Found [].

(** Requests as typed on the command line. *)
Definition typed_request : CarSearchParams :=
  mkCarSearchParams (Some "BMW"%string) (Some "X5"%string) None None None
                    (Some 50000%Z) None None.

Definition canonical_request : CarSearchParams :=
  mkCarSearchParams (Some "bmw"%string) (Some "x5"%string) None None None
                    (Some 50000%Z) None None.

Definition unknown_request : CarSearchParams :=
  mkCarSearchParams (Some "Trabant"%string) None None None None None None None.

Definition no_listing (params : CarSearchParams) : outcome := Found [].

End scenarios.

(* ===================================================================== *)
(** * Dictionaries *)
(* ===================================================================== *)

Section DictionaryFacts.
Import Py.
Context {V : Type}.

Lemma dict_set_fresh (k : string) (v : V) (d : list (string * V)) :
  dict_mem k d = false -> dict_set k v d = d ++ [(k, v)].
Proof.
  unfold dict_mem. induction d as [|[k' v'] d IH]; simpl; [reflexivity|].
  destruct (k' =? k)%string; [discriminate|]. intros E. now rewrite IH.
Qed.

Lemma dict_mem_app (k : string) (a b : list (string * V)) :
  dict_mem k (a ++ b) = dict_mem k a || dict_mem k b.
Proof.
  unfold dict_mem. induction a as [|[k' v'] a IH]; simpl; [reflexivity|].
  destruct (k' =? k)%string; [reflexivity | exact IH].
Qed.

Lemma dict_mem_false (k : string) (d : list (string * V)) :
  dict_mem k d = false -> ~ In k (dict_keys d).
Proof.
  unfold dict_mem, dict_keys. induction d as [|[k' v'] d IH]; simpl; [tauto|].
  destruct (String.eqb_spec k' k); [discriminate|]. intros E [Hk|Hk]; tauto.
Qed.

Lemma dict_set_keys (k : string) (v : V) (d : list (string * V)) :
  NoDup (dict_keys d) -> NoDup (dict_keys (dict_set k v d)).
Proof.
  intros Hd. destruct (dict_mem k d) eqn:E.
  - replace (dict_keys (dict_set k v d)) with (dict_keys d); [exact Hd|].
    clear Hd. unfold dict_mem in E. unfold dict_keys.
    induction d as [|[k' v'] d IH]; simpl in *; [discriminate|].
    destruct (k' =? k)%string; simpl; [reflexivity|]. f_equal. apply IH.
    destruct (dict_get k d); [reflexivity | discriminate].
  - rewrite (dict_set_fresh _ _ _ E). unfold dict_keys. rewrite map_app. simpl.
    apply NoDup_app; [exact Hd | repeat constructor; tauto|].
    intros x Hx [<-|[]]. now apply (dict_mem_false _ _ E).
Qed.

Lemma dict_get_set_same (k : string) (v : V) (d : list (string * V)) :
  dict_get k (dict_set k v d) = Some v.
Proof.
  induction d as [|[k' v'] d IH]; simpl; [now rewrite String.eqb_refl|].
  destruct (k' =? k)%string eqn:E; simpl; now rewrite E.
Qed.

Lemma dict_get_set_other (k k' : string) (v : V) (d : list (string * V)) :
  k <> k' -> dict_get k' (dict_set k v d) = dict_get k' d.
Proof.
  intros Hk. induction d as [|[k0 v0] d IH]; simpl.
  - destruct (String.eqb_spec k k'); congruence.
  - destruct (String.eqb_spec k0 k) as [->|Hk0]; simpl.
    + destruct (String.eqb_spec k k'); congruence.
    + now rewrite IH.
Qed.

Lemma dict_get_In (k : string) (v : V) (d : list (string * V)) :
  NoDup (dict_keys d) -> (In (k, v) d <-> dict_get k d = Some v).
Proof.
  unfold dict_keys. induction d as [|[k0 v0] d IH]; simpl; intros Hd.
  - split; [tauto | discriminate].
  - inversion Hd as [|? ? Hk0 Hd']; subst.
    destruct (String.eqb_spec k0 k) as [->|Hne].
    + split.
      * intros [E|Hin]; [congruence|]. exfalso. apply Hk0.
        apply in_map_iff. now exists (k, v).
      * intros E. left. congruence.
    + rewrite <- (IH Hd'). split; [intros [E|Hin]; [congruence | exact Hin] | tauto].
Qed.

End DictionaryFacts.

(* ===================================================================== *)
(** * Properties of the price aggregator *)
(* ===================================================================== *)

Section AggregatorFacts.
Import Py car helpers.

(** ** Sorting *)

Lemma Qle_bool_false (x y : Q) : Qle_bool x y = false -> y <= x.
Proof.
  intros E. apply Qlt_le_weak, Qnot_le_lt. intros L.
  apply Qle_bool_iff in L. congruence.
Qed.

Lemma insert_perm (x : Q) (l : list Q) : Permutation (x :: l) (insert x l).
Proof.
  induction l as [|y l IH]; simpl; [reflexivity|].
  destruct (Qle_bool x y); [reflexivity|].
  rewrite perm_swap. now apply perm_skip.
Qed.

Lemma sort_perm (l : list Q) : Permutation l (sort l).
Proof.
  induction l as [|x l IH]; simpl; [constructor|].
  rewrite <- insert_perm. now apply perm_skip.
Qed.

Lemma sort_length (l : list Q) : List.length (sort l) = List.length l.
Proof. symmetry. apply Permutation_length, sort_perm. Qed.

Lemma insert_hd (a x : Q) (l : list Q) :
  a <= x -> HdRel Qle a l -> HdRel Qle a (insert x l).
Proof.
  intros Hax Hl. destruct l as [|y l]; simpl; [now constructor|].
  destruct (Qle_bool x y); constructor; auto. now inversion Hl.
Qed.

Lemma insert_sorted (x : Q) (l : list Q) : Sorted Qle l -> Sorted Qle (insert x l).
Proof.
  induction 1 as [|y l Hl IH Hhd]; simpl; [repeat constructor|].
  destruct (Qle_bool x y) eqn:E.
  - constructor; [now constructor|]. constructor. now apply Qle_bool_iff.
  - constructor; [exact IH|]. apply insert_hd; [now apply Qle_bool_false | exact Hhd].
Qed.

Lemma sort_sorted (l : list Q) : StronglySorted Qle (sort l).
Proof.
  apply Sorted_StronglySorted; [exact Qle_trans|].
  induction l as [|x l IH]; simpl; [constructor | now apply insert_sorted].
Qed.

(** ** The trim *)

Lemma cut_of_div20 (prices : list Q) : cut_of prices = (List.length prices / 20)%nat.
Proof.
  unfold cut_of. change 100%nat with (5 * 20)%nat.
  rewrite (Nat.mul_comm (List.length prices) 5).
  now rewrite Nat.Div0.div_mul_cancel_l.
Qed.

(** [floor(0.05 * n)], the count the trim is specified with. *)
Lemma floor_five_percent (n : nat) :
  Z.to_nat (Qfloor ((5 # 100) * inject_Z (Z.of_nat n))) = (n / 20)%nat.
Proof.
  unfold Qfloor, Qmult, inject_Z; simpl Qnum; simpl Qden.
  change (Z.pos (100 * 1)) with (5 * 20)%Z.
  rewrite Z.div_mul_cancel_l by lia.
  change 20%Z with (Z.of_nat 20). rewrite <- Nat2Z.inj_div. apply Nat2Z.id.
Qed.

(** The double nearest to 0.05 is 3602879701896397 / 2^56, slightly above
    5/100.  Truncating its exact product with a length below 2^50 gives
    the same count as 5/100 does, which is why [cut_of] reads the
    constant as 5/100. *)
Lemma binary64_five_percent (n : nat) :
  (Z.of_nat n < 2 ^ 50)%Z ->
  (Z.of_nat n * 3602879701896397 / 2 ^ 56)%Z = Z.of_nat (n / 20).
Proof.
  intros Hn. rewrite Nat2Z.inj_div. change (Z.of_nat 20) with 20%Z.
  pose proof (Z.div_mod (Z.of_nat n) 20 ltac:(lia)) as Hdiv.
  pose proof (Z.mod_pos_bound (Z.of_nat n) 20 ltac:(lia)) as Hmod.
  set (q := (Z.of_nat n / 20)%Z) in *. set (r := (Z.of_nat n mod 20)%Z) in *.
  change (2 ^ 50)%Z with 1125899906842624%Z in Hn.
  change (2 ^ 56)%Z with 72057594037927936%Z.
  symmetry.
  apply (Z.div_unique_pos _ _ q (4 * q + r * 3602879701896397)); lia.
Qed.

Lemma twice_cut_lt (n : nat) : (0 < n -> 2 * (n / 20) < n)%nat.
Proof.
  intros Hn. pose proof (Nat.Div0.mul_div_le n 20). lia.
Qed.

Lemma cut_small (n : nat) : (n <= 19 -> n / 20 = 0)%nat.
Proof. intros Hn. apply Nat.div_small. lia. Qed.

(** The trimmed list sits between the [cut] smallest and the [cut]
    largest elements. *)
Lemma trim_split (prices : list Q) :
  let cut := cut_of prices in
  let n := List.length prices in
  prices = firstn cut prices ++ trim prices ++ skipn (n - cut) prices
  /\ List.length (firstn cut prices) = cut
  /\ List.length (skipn (n - cut) prices) = cut
  /\ List.length (trim prices) = (n - 2 * cut)%nat.
Proof.
  intros cut n.
  assert (Hcut : (2 * cut <= n)%nat).
  { subst cut n. rewrite cut_of_div20.
    destruct prices as [|x l]; [simpl; lia|].
    apply Nat.lt_le_incl, twice_cut_lt. simpl. lia. }
  assert (Htrim : trim prices = slice prices cut (n - cut)).
  { unfold trim. fold cut. fold n. destruct (0 <? cut)%nat eqn:E; [reflexivity|].
    apply Nat.ltb_ge in E. assert (cut = 0%nat) as -> by lia.
    unfold slice. rewrite !Nat.sub_0_r. subst n. simpl skipn. now rewrite firstn_all. }
  rewrite Htrim. unfold slice.
  repeat split.
  - rewrite <- (firstn_skipn cut prices) at 1. f_equal.
    rewrite <- (firstn_skipn (n - cut - cut) (skipn cut prices)) at 1. f_equal.
    rewrite skipn_skipn. f_equal. lia.
  - rewrite length_firstn. fold n. lia.
  - rewrite length_skipn. fold n. lia.
  - rewrite length_firstn, length_skipn. fold n. lia.
Qed.

Lemma trim_nonempty (prices : list Q) : prices <> [] -> trim prices <> [].
Proof.
  intros Hne Htrim.
  destruct (trim_split prices) as (_ & _ & _ & Hlen).
  rewrite Htrim in Hlen. simpl in Hlen.
  rewrite cut_of_div20 in Hlen.
  assert (0 < List.length prices)%nat by (destruct prices; [congruence | simpl; lia]).
  pose proof (twice_cut_lt _ H). lia.
Qed.

Lemma fall_back_nonempty (clean prices : list Q) :
  clean <> [] -> fall_back clean prices = clean.
Proof. destruct clean; [congruence | reflexivity]. Qed.

Lemma clean_prices_of_trim (prices : list Q) :
  prices <> [] -> clean_prices_of prices = trim (sort prices).
Proof.
  intros Hne. unfold clean_prices_of. apply fall_back_nonempty, trim_nonempty.
  intros E. apply Hne. apply Permutation_nil. rewrite <- E.
  apply Permutation_sym, sort_perm.
Qed.

(** ** Minimum and maximum *)

Lemma fold_min_spec (l : list Q) (x : Q) :
  let m := fold_left (fun m y => if Qle_bool m y then m else y) l x in
  In m (x :: l) /\ m <= x /\ Forall (Qle m) l.
Proof.
  revert x. induction l as [|y l IH]; intros x; simpl.
  - split; [now left|]. split; [apply Qle_refl | constructor].
  - destruct (Qle_bool x y) eqn:E.
    + destruct (IH x) as (Hin & Hle & Hall). split; [|split].
      * destruct Hin as [<-|Hin]; [now left | now right; right].
      * exact Hle.
      * constructor; [|exact Hall]. apply Qle_bool_iff in E.
        eapply Qle_trans; eauto.
    + destruct (IH y) as (Hin & Hle & Hall). split; [|split].
      * now right.
      * eapply Qle_trans; [exact Hle|]. now apply Qle_bool_false.
      * now constructor.
Qed.

Lemma fold_max_spec (l : list Q) (x : Q) :
  let m := fold_left (fun m y => if Qle_bool y m then m else y) l x in
  In m (x :: l) /\ x <= m /\ Forall (fun y => y <= m) l.
Proof.
  revert x. induction l as [|y l IH]; intros x; simpl.
  - split; [now left|]. split; [apply Qle_refl | constructor].
  - destruct (Qle_bool y x) eqn:E.
    + destruct (IH x) as (Hin & Hle & Hall). split; [|split].
      * destruct Hin as [<-|Hin]; [now left | now right; right].
      * exact Hle.
      * constructor; [|exact Hall]. apply Qle_bool_iff in E.
        eapply Qle_trans; eauto.
    + destruct (IH y) as (Hin & Hle & Hall). split; [|split].
      * now right.
      * eapply Qle_trans; [|exact Hle]. now apply Qle_bool_false.
      * now constructor.
Qed.

Lemma py_min_spec (l : list Q) :
  l <> [] -> exists m, py_min l = Some m /\ In m l /\ Forall (Qle m) l.
Proof.
  destruct l as [|x l]; [congruence|]. intros _.
  destruct (fold_min_spec l x) as (Hin & Hle & Hall).
  eexists. split; [reflexivity|]. split; [exact Hin|]. now constructor.
Qed.

Lemma py_max_spec (l : list Q) :
  l <> [] -> exists m, py_max l = Some m /\ In m l /\ Forall (fun y => y <= m) l.
Proof.
  destruct l as [|x l]; [congruence|]. intros _.
  destruct (fold_max_spec l x) as (Hin & Hle & Hall).
  eexists. split; [reflexivity|]. split; [exact Hin|]. now constructor.
Qed.

(** ** The filter *)

Lemma above_100_iff (c : Car) : above_100 c = true <-> 100 < preco_numerico c.
Proof.
  unfold above_100. rewrite negb_true_iff. split.
  - intros E. apply Qnot_le_lt. intros L. apply Qle_bool_iff in L. congruence.
  - intros L. destruct (Qle_bool (preco_numerico c) 100) eqn:E; [|reflexivity].
    apply Qle_bool_iff in E. exfalso. eapply Qlt_not_le; eauto.
Qed.

Lemma filtered_prices_above (cars : list Car) :
  Forall (fun p => 100 < p) (filtered_prices cars).
Proof.
  unfold filtered_prices. apply Forall_forall. intros p Hp.
  apply in_map_iff in Hp. destruct Hp as (c & <- & Hc).
  apply filter_In in Hc. now apply above_100_iff.
Qed.

Lemma filtered_prices_nil (cars : list Car) :
  Forall (fun c => preco_numerico c <= 100) cars -> filtered_prices cars = [].
Proof.
  unfold filtered_prices. induction 1 as [|c l Hc _ IH]; simpl; [reflexivity|].
  destruct (above_100 c) eqn:E; [|exact IH].
  apply above_100_iff in E. exfalso. eapply Qlt_not_le; eauto.
Qed.

Lemma filtered_prices_idem (cars : list Car) :
  filtered_prices (filter above_100 cars) = filtered_prices cars.
Proof.
  unfold filtered_prices. f_equal.
  induction cars as [|c l IH]; simpl; [reflexivity|].
  destruct (above_100 c) eqn:E; simpl; [rewrite E; now f_equal | exact IH].
Qed.

Lemma clean_prices_subset (prices : list Q) (p : Q) :
  In p (clean_prices_of prices) -> In p prices.
Proof.
  intros Hp. destruct prices as [|x l] eqn:E; [exact Hp|]. rewrite <- E in *.
  rewrite clean_prices_of_trim in Hp by (subst; discriminate).
  apply (Permutation_in _ (Permutation_sym (sort_perm prices))).
  destruct (trim_split (sort prices)) as (Hsplit & _).
  rewrite Hsplit. apply in_or_app. right. apply in_or_app. now left.
Qed.

Lemma mem_iff (x : Q) (l : list Q) : mem x l = true <-> exists p, In p l /\ x == p.
Proof.
  unfold mem. rewrite existsb_exists.
  split; intros (p & Hp & E); exists p; (split; [exact Hp|]); now apply Qeq_bool_iff.
Qed.


Lemma calculate_nonempty (cars : list Car) :
  filtered_prices cars <> [] ->
  calculate_price_interval cars =
    let clean_prices := clean_prices_of (filtered_prices cars) in
    {| preco_intervalo :=
         {| interval_min := py_min clean_prices;
            interval_max := py_max clean_prices |};
       media_aproximada :=
         Some (round2 (py_sum clean_prices
                       / inject_Z (Z.of_nat (List.length clean_prices))));
       viaturas_consideradas := List.length clean_prices;
       anuncios_usados_para_calculo :=
         Some (map to_dict
                 (filter (fun c => mem (preco_numerico c) clean_prices) cars)) |}.
Proof.
  intros Hne. unfold calculate_price_interval.
  destruct cars as [|c cars]; [now elim Hne|].
  destruct (filtered_prices (c :: cars)); [now elim Hne | reflexivity].
Qed.

Lemma calculate_empty (cars : list Car) :
  filtered_prices cars = [] -> calculate_price_interval cars = empty_summary.
Proof.
  intros E. unfold calculate_price_interval.
  destruct cars; [reflexivity|]. now rewrite E.
Qed.

(** ** The claims about the aggregator *)


(** C10.  On a non-empty price list of length [n] the trim count
    [cut = floor(0.05 * n)] satisfies [2 * cut < n]: the slice taken when
    [cut > 0] is not empty, the fall-back of lines 28-29 is never taken and
    the divisor of the average is positive. *)
Theorem fall_back_unreachable (prices : list Q) :
  prices <> [] ->
  let n := List.length prices in
  let cut := cut_of prices in
  cut = Z.to_nat (Qfloor ((5 # 100) * inject_Z (Z.of_nat n)))
  /\ (2 * cut < n)%nat
  /\ ((0 < cut)%nat -> slice prices cut (n - cut) <> [])
  /\ trim prices <> []
  /\ fall_back (trim prices) prices = trim prices
  /\ 0 < inject_Z (Z.of_nat (List.length (fall_back (trim prices) prices))).
Proof.
  intros Hne n cut.
  assert (Hn : (0 < n)%nat) by (subst n; destruct prices; [congruence | simpl; lia]).
  assert (Hcut : cut = (n / 20)%nat) by apply cut_of_div20.
  pose proof (trim_nonempty _ Hne) as Htrim.
  split; [now rewrite floor_five_percent|].
  split; [rewrite Hcut; now apply twice_cut_lt|].
  split.
  { intros Hpos. unfold trim in Htrim. fold cut in Htrim.
    apply Nat.ltb_lt in Hpos. now rewrite Hpos in Htrim. }
  split; [exact Htrim|].
  rewrite (fall_back_nonempty _ _ Htrim). split; [reflexivity|].
  destruct (trim prices); [congruence|].
  unfold Qlt; simpl. lia.
Qed.

(** C7.  On an input that is empty, or in which every numeric price is at
    most 100, the aggregator returns the interval of two nulls, a null
    average and a count of 0; and on any input the listings priced at most
    100 contribute nothing: removing them beforehand leaves the whole
    result unchanged. *)
Theorem nothing_above_100 (cars : list Car) :
  (Forall (fun c => preco_numerico c <= 100) cars ->
   calculate_price_interval cars =
     {| preco_intervalo := {| interval_min := None; interval_max := None |};
        media_aproximada := None;
        viaturas_consideradas := 0;
        anuncios_usados_para_calculo := None |})
  /\ calculate_price_interval cars
     = calculate_price_interval (filter above_100 cars).
Proof.
  split.
  - intros Hall. now apply calculate_empty, filtered_prices_nil.
  - destruct (filtered_prices cars) as [|p ps] eqn:E.
    + rewrite (calculate_empty cars E). symmetry. apply calculate_empty.
      now rewrite filtered_prices_idem.
    + assert (Hne : filtered_prices cars <> []) by (rewrite E; discriminate).
      rewrite (calculate_nonempty cars Hne).
      rewrite calculate_nonempty by now rewrite filtered_prices_idem.
      rewrite filtered_prices_idem. cbv zeta. f_equal. f_equal. f_equal.
      set (clean := clean_prices_of (filtered_prices cars)).
      assert (Hclean : forall c, mem (preco_numerico c) clean = true ->
                                 above_100 c = true).
      { intros c Hc. apply mem_iff in Hc. destruct Hc as (q & Hq & Heq).
        apply above_100_iff. rewrite Heq.
        pose proof (filtered_prices_above cars) as Hab.
        rewrite Forall_forall in Hab. apply Hab.
        now apply clean_prices_subset. }
      clearbody clean. clear E Hne.
      induction cars as [|c cars IH]; simpl; [reflexivity|].
      destruct (mem (preco_numerico c) clean) eqn:Ec.
      * rewrite (Hclean c Ec). simpl. rewrite Ec. now f_equal.
      * destruct (above_100 c); simpl; [rewrite Ec|]; exact IH.
Qed.

(** C9.  When some numeric price exceeds 100, the listings the aggregator
    reports as used are the dictionaries of exactly those input listings,
    in input order, whose numeric price is equal to some element of the
    trimmed price list: membership is by value, so a listing is reported
    whenever its price occurs there, whichever listing that element came
    from. *)
Theorem used_listings_by_value (cars : list Car) :
  Exists (fun c => 100 < preco_numerico c) cars ->
  let prices := sort (filtered_prices cars) in
  let clean := trim prices in
  let r := calculate_price_interval cars in
  exists used : list Car,
    anuncios_usados_para_calculo r = Some (map to_dict used)
    /\ used = filter (fun c => existsb (Qeq_bool (preco_numerico c)) clean) cars
    /\ (forall c, In c used <->
                  In c cars /\ exists p, In p clean /\ preco_numerico c == p)
    /\ viaturas_consideradas r = List.length clean.
Proof.
  intros Hex prices clean r.
  assert (Hne : filtered_prices cars <> []).
  { apply Exists_exists in Hex. destruct Hex as (c & Hc & Hp).
    intros E. unfold filtered_prices in E. apply map_eq_nil in E.
    assert (Hin : In c (filter above_100 cars)).
    { apply filter_In. split; [exact Hc | now apply above_100_iff]. }
    now rewrite E in Hin. }
  assert (Hr : r = calculate_price_interval cars) by reflexivity.
  rewrite (calculate_nonempty _ Hne) in Hr.
  rewrite (clean_prices_of_trim _ Hne) in Hr. cbv zeta in Hr.
  fold prices in Hr. fold clean in Hr.
  eexists. rewrite Hr; simpl.
  split; [reflexivity|]. split; [reflexivity|]. split; [|reflexivity].
  intros c. rewrite filter_In. fold (mem (preco_numerico c) clean).
  now rewrite mem_iff.
Qed.

End AggregatorFacts.

(* ===================================================================== *)
(** * Properties of the URL builder *)
(* ===================================================================== *)

Section UrlFacts.
Import Py car config otomoto_scraper observe.

(** ** The query dictionary *)

Lemma str_entry_other (k k' : string) (o : option string) :
  (k' =? k)%string = false -> dict_mem k (str_entry k' o) = false.
Proof.
  intros E. unfold str_entry, dict_mem.
  destruct o as [s|]; [destruct (s =? "")%string|]; simpl; now rewrite ?E.
Qed.

Lemma int_entry_other (k k' : string) (o : option Z) :
  (k' =? k)%string = false -> dict_mem k (int_entry k' o) = false.
Proof.
  intros E. unfold int_entry, dict_mem.
  destruct o as [z|]; [destruct (z =? 0)%Z|]; simpl; now rewrite ?E.
Qed.

Lemma mapped_entry_other (k k' : string) (o : option string) table :
  (k' =? k)%string = false -> dict_mem k (mapped_entry k' o table) = false.
Proof.
  intros E. unfold mapped_entry, dict_mem.
  destruct o as [s|]; [|reflexivity].
  destruct (s =? "")%string; [reflexivity|].
  destruct (dict_get s table); simpl; now rewrite ?E.
Qed.

Lemma page_entry_other (k : string) (page : Z) :
  ("page" =? k)%string = false ->
  dict_mem k (if (1 <? page)%Z then [("page"%string, QInt page)] else []) = false.
Proof.
  intros E. destruct (1 <? page)%Z; [|reflexivity].
  unfold dict_mem. cbn [dict_get]. now rewrite E.
Qed.

Lemma set_str_fresh (k : string) (o : option string) (q : query) :
  dict_mem k q = false -> set_str k o q = q ++ str_entry k o.
Proof.
  intros Hq. unfold set_str, str_entry, truthy_str.
  destruct o as [s|]; [|now rewrite app_nil_r].
  destruct (s =? "")%string; simpl; [now rewrite app_nil_r|].
  now apply dict_set_fresh.
Qed.

Lemma set_int_fresh (k : string) (o : option Z) (q : query) :
  dict_mem k q = false -> set_int k o q = q ++ int_entry k o.
Proof.
  intros Hq. unfold set_int, int_entry, truthy_int.
  destruct o as [z|]; [|now rewrite app_nil_r].
  destruct (z =? 0)%Z; simpl; [now rewrite app_nil_r|].
  now apply dict_set_fresh.
Qed.

Lemma set_mapped_fresh (k : string) (o : option string) table (q : query) :
  dict_mem k q = false -> set_mapped k o table q = q ++ mapped_entry k o table.
Proof.
  intros Hq. unfold set_mapped, mapped_entry, truthy_str, dict_mem.
  destruct o as [s|]; [|now rewrite app_nil_r].
  destruct (s =? "")%string; simpl; [now rewrite app_nil_r|].
  destruct (dict_get s table); [now apply dict_set_fresh | now rewrite app_nil_r].
Qed.

(** Discharges the freshness of a literal key in a query built so far. *)
Ltac fresh_key :=
  repeat rewrite dict_mem_app;
  rewrite ?str_entry_other, ?int_entry_other, ?mapped_entry_other,
          ?page_entry_other by reflexivity;
  reflexivity.

(** The dictionary built by successive assignments is the query the
    specification describes: no assignment overwrites an earlier one. *)
Lemma query_params_expected (params : CarSearchParams) (page : Z) :
  query_params params page = expected_query params page.
Proof.
  unfold query_params, expected_query.
  set (q0 := [("search[advanced_search_expanded]"%string, QStr "true")]).
  assert (Hpage :
    (if (1 <? page)%Z then dict_set "page" (QInt page) q0 else q0)
    = q0 ++ (if (1 <? page)%Z then [("page"%string, QInt page)] else [])).
  { destruct (1 <? page)%Z; [reflexivity | now rewrite app_nil_r]. }
  rewrite Hpage.
  rewrite (set_str_fresh "search[filter_enum_make]") by fresh_key.
  rewrite (set_str_fresh "search[filter_enum_model]") by fresh_key.
  rewrite (set_int_fresh "search[filter_float_year:from]") by fresh_key.
  rewrite (set_int_fresh "search[filter_float_year:to]") by fresh_key.
  rewrite (set_int_fresh "search[filter_float_mileage:to]") by fresh_key.
  rewrite (set_int_fresh "search[filter_float_price:to]") by fresh_key.
  rewrite (set_mapped_fresh "search[filter_enum_fuel_type]") by fresh_key.
  rewrite (set_mapped_fresh "search[filter_enum_gearbox]") by fresh_key.
  now rewrite <- !app_assoc.
Qed.

(** ** Reading the URL back *)

Lemma lacks_app (x : ascii) (a b : string) :
  lacks x (a ++ b) = lacks x a && lacks x b.
Proof.
  induction a as [|c a IH]; simpl; [reflexivity|].
  now rewrite IH, andb_assoc.
Qed.

Lemma quote_byte_lacks (c : ascii) :
  lacks "&" (quote_byte c) = true /\ lacks "=" (quote_byte c) = true.
Proof.
  destruct c as [[] [] [] [] [] [] [] []]; split; reflexivity.
Qed.

Lemma quote_plus_lacks (s : string) :
  lacks "&" (quote_plus s) = true /\ lacks "=" (quote_plus s) = true.
Proof.
  induction s as [|c s [IH1 IH2]]; simpl; [now split|].
  rewrite !lacks_app, IH1, IH2.
  destruct (quote_byte_lacks c) as [-> ->]. now split.
Qed.

Lemma split_on_single (sep : ascii) (a : string) :
  lacks sep a = true -> split_on sep a = [a].
Proof.
  induction a as [|c a IH]; simpl; [reflexivity|].
  destruct (Ascii.eqb c sep); simpl; [discriminate|].
  intros E. now rewrite IH.
Qed.

Lemma split_on_cons (sep : ascii) (a b : string) :
  lacks sep a = true ->
  split_on sep (a ++ String sep b) = a :: split_on sep b.
Proof.
  induction a as [|c a IH]; simpl.
  - now rewrite Ascii.eqb_refl.
  - destruct (Ascii.eqb c sep); simpl; [discriminate|].
    intros E. now rewrite IH.
Qed.

Lemma split_on_join (sep : ascii) (items : list string) :
  items <> [] ->
  Forall (fun a => lacks sep a = true) items ->
  split_on sep (join (String sep EmptyString) items) = items.
Proof.
  intros Hne Hall. induction Hall as [|a l Ha Hl IH]; [congruence|].
  destruct l as [|b l]; simpl.
  - now apply split_on_single.
  - change (String sep (join (String sep "") (b :: l)))
      with (String sep EmptyString ++ join (String sep EmptyString) (b :: l))%string.
    simpl append. rewrite split_on_cons by exact Ha.
    f_equal. apply IH. discriminate.
Qed.

Lemma key_value_item (k v : string) :
  lacks "=" k = true -> key_value (k ++ String "=" v) = (k, v).
Proof.
  induction k as [|c k IH]; simpl; [reflexivity|].
  destruct (Ascii.eqb c "="); simpl; [discriminate|].
  intros E. now rewrite IH.
Qed.

Lemma key_value_urlencode_item (kv : string * query_value) :
  key_value (urlencode_item kv) = encoded kv.
Proof.
  unfold urlencode_item, encoded.
  apply (key_value_item (quote_plus (fst kv))), quote_plus_lacks.
Qed.

(** The parameters read back from the URL are the encoded entries of the
    query dictionary, one for one and in order. *)
Lemma url_parameters_build_url (params : CarSearchParams) (page : Z) :
  url_parameters (_build_url params page)
  = map encoded (query_params params page).
Proof.
  unfold url_parameters, _build_url.
  change (query_string_of (OTOMOTO_SEARCH_URL ++ "?" ++ urlencode (query_params params page)))
    with (urlencode (query_params params page)).
  unfold urlencode. rewrite split_on_join.
  - rewrite map_map. apply map_ext. exact key_value_urlencode_item.
  - rewrite query_params_expected. discriminate.
  - apply Forall_forall. intros a Ha. apply in_map_iff in Ha.
    destruct Ha as (kv & <- & _). unfold urlencode_item.
    rewrite !lacks_app.
    destruct (quote_plus_lacks (fst kv)) as [-> _].
    destruct (quote_plus_lacks (query_str (snd kv))) as [-> _]. reflexivity.
Qed.

(** Decimal numerals need no escaping. *)
Lemma quote_plus_uint (u : Decimal.uint) :
  quote_plus (NilEmpty.string_of_uint u) = NilEmpty.string_of_uint u.
Proof. induction u; simpl; now rewrite ?IHu. Qed.

Lemma quote_plus_str_of_int (z : Z) : quote_plus (str_of_int z) = str_of_int z.
Proof.
  unfold str_of_int, NilZero.string_of_int, NilZero.string_of_uint.
  destruct (Z.to_int z) as [u|u].
  - destruct u; try reflexivity; apply quote_plus_uint.
  - change (quote_plus (String "-" ?s)) with (String "-" (quote_plus s)).
    f_equal. destruct u; try reflexivity; apply quote_plus_uint.
Qed.

Lemma set_str_keys (k : string) (o : option string) (q : query) :
  NoDup (dict_keys q) -> NoDup (dict_keys (set_str k o q)).
Proof.
  intros Hq. unfold set_str. destruct o as [s|]; [|exact Hq].
  destruct (truthy_str (Some s)); [now apply dict_set_keys | exact Hq].
Qed.

Lemma set_int_keys (k : string) (o : option Z) (q : query) :
  NoDup (dict_keys q) -> NoDup (dict_keys (set_int k o q)).
Proof.
  intros Hq. unfold set_int. destruct o as [z|]; [|exact Hq].
  destruct (truthy_int (Some z)); [now apply dict_set_keys | exact Hq].
Qed.

Lemma set_mapped_keys (k : string) (o : option string) table (q : query) :
  NoDup (dict_keys q) -> NoDup (dict_keys (set_mapped k o table q)).
Proof.
  intros Hq. unfold set_mapped. destruct o as [s|]; [|exact Hq].
  destruct (truthy_str (Some s) && dict_mem s table); [|exact Hq].
  destruct (dict_get s table); [now apply dict_set_keys | exact Hq].
Qed.

Lemma query_params_keys (params : CarSearchParams) (page : Z) :
  NoDup (dict_keys (query_params params page)).
Proof.
  unfold query_params.
  do 2 apply set_mapped_keys. do 4 apply set_int_keys. do 2 apply set_str_keys.
  destruct (1 <? page)%Z; [apply dict_set_keys|]; repeat constructor; simpl; tauto.
Qed.

(** ** The claims about the URL builder *)

Lemma named_app (key : string) (a b : list (string * string)) :
  parameters_named key (a ++ b) = parameters_named key a ++ parameters_named key b.
Proof. apply filter_app. Qed.

Lemma named_str_entry (key k : string) (o : option string) :
  (quote_plus k =? key)%string = false ->
  parameters_named key (map encoded (str_entry k o)) = [].
Proof.
  intros E. unfold str_entry.
  destruct o as [s|]; [destruct (s =? "")%string|]; try reflexivity.
  unfold parameters_named, encoded. cbn [map filter fst]. now rewrite E.
Qed.

Lemma named_int_entry (key k : string) (o : option Z) :
  (quote_plus k =? key)%string = false ->
  parameters_named key (map encoded (int_entry k o)) = [].
Proof.
  intros E. unfold int_entry.
  destruct o as [z|]; [destruct (z =? 0)%Z|]; try reflexivity.
  unfold parameters_named, encoded. cbn [map filter fst]. now rewrite E.
Qed.

Lemma named_mapped_entry (key k : string) (o : option string) table :
  (quote_plus k =? key)%string = false ->
  parameters_named key (map encoded (mapped_entry k o table)) = [].
Proof.
  intros E. unfold mapped_entry.
  destruct o as [s|]; [destruct (s =? "")%string; [|destruct (dict_get s table)]|];
    try reflexivity.
  unfold parameters_named, encoded. cbn [map filter fst]. now rewrite E.
Qed.

(** C4.  Every URL starts with the search address followed by the
    advanced-search marker; built for a page of at most 1 (page 1 in
    particular) it has no [page] parameter, and built for a page above 1
    it has exactly one [page] parameter, whose value is that page number
    in decimal. *)
Theorem page_parameter (params : CarSearchParams) (page : Z) :
  let url := _build_url params page in
  (exists rest,
      url = (OTOMOTO_SEARCH_URL ++ "?search%5Badvanced_search_expanded%5D=true"
             ++ rest)%string)
  /\ In ("search%5Badvanced_search_expanded%5D", "true")%string (url_parameters url)
  /\ ((page <= 1)%Z -> parameters_named "page" (url_parameters url) = [])
  /\ ((1 < page)%Z ->
      parameters_named "page" (url_parameters url)
      = [("page"%string, str_of_int page)]).
Proof.
  intros url.
  assert (Hnamed : parameters_named "page" (url_parameters url)
                   = if (1 <? page)%Z then [("page"%string, str_of_int page)] else []).
  { unfold url. rewrite url_parameters_build_url, query_params_expected.
    unfold expected_query. rewrite !map_app, !named_app.
    rewrite !named_str_entry, !named_int_entry, !named_mapped_entry by reflexivity.
    rewrite !app_nil_r.
    destruct (1 <? page)%Z; [|reflexivity].
    unfold parameters_named, encoded; cbn [map filter fst snd app query_str].
    change (quote_plus "page") with "page"%string.
    change (quote_plus "search[advanced_search_expanded]" =? "page")%string with false.
    cbn [String.eqb Ascii.eqb Bool.eqb]. now rewrite quote_plus_str_of_int. }
  split; [|split; [|split]].
  - unfold url, _build_url. rewrite query_params_expected.
    unfold expected_query, urlencode. cbn [app map].
    match goal with
    | |- context [join "&" (?a :: ?l)] =>
        exists (match l with [] => EmptyString | _ => "&" ++ join "&" l end)%string;
        destruct l; reflexivity
    end.
  - unfold url. rewrite url_parameters_build_url, query_params_expected.
    now left.
  - intros Hp. rewrite Hnamed.
    destruct (Z.ltb_spec 1 page); [lia | reflexivity].
  - intros Hp. rewrite Hnamed.
    destruct (Z.ltb_spec 1 page); [reflexivity | lia].
Qed.

(** C5 (amended).  The query is the marker, the page when it exceeds 1,
    and then exactly one entry for each parameter whose value is truthy
    (a non-empty string, a non-zero integer), the fuel type and the
    transmission contributing theirs only when the fixed map has an
    entry for the value, with the mapped token as value.  A parameter that
    is absent, empty, zero or unmapped contributes nothing; keys are
    never repeated, and the URL carries the entries one for one. *)
Theorem one_key_per_truthy_parameter (params : CarSearchParams) (page : Z) :
  query_params params page = expected_query params page
  /\ NoDup (dict_keys (query_params params page))
  /\ url_parameters (_build_url params page)
     = map encoded (expected_query params page).
Proof.
  split; [apply query_params_expected|].
  split; [apply query_params_keys|].
  rewrite url_parameters_build_url. now rewrite query_params_expected.
Qed.

End UrlFacts.

(* ===================================================================== *)
(** * Properties of the deduplication *)
(* ===================================================================== *)

Section DeduplicateFacts.
Import Py car otomoto_scraper observe.

Lemma dict_set_well_keyed (c : Car) (d : list (string * Car)) :
  well_keyed d -> well_keyed (dict_set (car_key c) c d).
Proof.
  intros [Hnd Hk]. split; [now apply dict_set_keys|].
  clear Hnd. induction Hk as [|[k0 c0] d Hk0 Hd IH]; simpl.
  - now repeat constructor.
  - destruct (String.eqb_spec k0 (car_key c)) as [->|Hne]; constructor; auto.
Qed.

Lemma unique_after_well_keyed (cars : list Car) (d : list (string * Car)) :
  well_keyed d -> well_keyed (unique_after cars d).
Proof.
  revert d. induction cars as [|c cars IH]; simpl; intros d Hd; [exact Hd|].
  now apply IH, dict_set_well_keyed.
Qed.

Lemma unique_after_get (k : string) (cars : list Car) (d : list (string * Car)) :
  dict_get k (unique_after cars d)
  = match last_with_key k cars with
    | Some c => Some c
    | None => dict_get k d
    end.
Proof.
  revert d. induction cars as [|c cars IH]; simpl; intros d; [reflexivity|].
  rewrite IH. destruct (last_with_key k cars); [reflexivity|].
  destruct (String.eqb_spec (car_key c) k) as [<-|Hne].
  - apply dict_get_set_same.
  - now apply dict_get_set_other.
Qed.

Lemma last_with_key_key (k : string) (cars : list Car) (c : Car) :
  last_with_key k cars = Some c -> car_key c = k.
Proof.
  induction cars as [|c0 cars IH]; simpl; [discriminate|].
  destruct (last_with_key k cars); [exact IH|].
  destruct (String.eqb_spec (car_key c0) k); congruence.
Qed.

Lemma last_with_key_none (k : string) (cars : list Car) :
  last_with_key k cars = None <-> Forall (fun c => car_key c <> k) cars.
Proof.
  induction cars as [|c0 cars IH]; simpl; [split; [constructor | reflexivity]|].
  destruct (last_with_key k cars).
  - split; [discriminate|]. intros Hall. inversion Hall; subst.
    now apply IH in H2.
  - destruct (String.eqb_spec (car_key c0) k) as [E|Hne].
    + split; [discriminate|]. intros Hall. now inversion Hall.
    + split; [|reflexivity]. intros _. constructor; [exact Hne | now apply IH].
Qed.

(** [c] is the last listing of [cars] with its key exactly when it occurs
    in [cars] with no listing of the same key after it. *)
Lemma last_with_key_split (cars : list Car) (c : Car) :
  last_with_key (car_key c) cars = Some c <->
  exists before after,
    cars = before ++ c :: after
    /\ Forall (fun c' => car_key c' <> car_key c) after.
Proof.
  induction cars as [|c0 cars IH]; simpl.
  - split; [discriminate|]. intros (before & after & E & _).
    now destruct before.
  - destruct (last_with_key (car_key c) cars) as [c'|] eqn:El.
    + split.
      * intros E. apply IH in E. destruct E as (before & after & -> & Hall).
        now exists (c0 :: before), after.
      * intros (before & after & E & Hall).
        destruct before as [|b before]; simpl in E; injection E as <- ->.
        -- apply last_with_key_none in Hall. congruence.
        -- apply IH. now exists before, after.
    + apply last_with_key_none in El.
      destruct (String.eqb_spec (car_key c0) (car_key c)) as [Ek|Hne].
      * split.
        -- intros E. injection E as ->. now exists [], cars.
        -- intros (before & after & E & Hall).
           destruct before as [|b before]; simpl in E; injection E as <- ->;
             [reflexivity|].
           exfalso. rewrite Forall_forall in El. apply (El c); [|reflexivity].
           apply in_or_app. right. now left.
      * split; [discriminate|]. intros (before & after & E & Hall).
        destruct before as [|b before]; simpl in E; injection E as <- ->;
          [congruence|].
        exfalso. rewrite Forall_forall in El. apply (El c); [|reflexivity].
        apply in_or_app. right. now left.
Qed.

Lemma in_last_with_key (cars : list Car) (c : Car) :
  In c cars -> exists c', last_with_key (car_key c) cars = Some c'.
Proof.
  induction cars as [|c0 cars IH]; simpl; [tauto|].
  intros [->|Hin].
  - destruct (last_with_key (car_key c) cars); [eauto|].
    rewrite String.eqb_refl. eauto.
  - destruct (IH Hin) as (c' & ->). eauto.
Qed.

Lemma deduplicate_in (cars : list Car) (c : Car) :
  In c (_deduplicate cars) <-> last_with_key (car_key c) cars = Some c.
Proof.
  unfold _deduplicate.
  assert (Hwk : well_keyed (unique_after cars [])).
  { apply unique_after_well_keyed. split; constructor. }
  destruct Hwk as [Hnd Hk].
  assert (Hget : dict_get (car_key c) (unique_after cars [])
                 = last_with_key (car_key c) cars).
  { rewrite unique_after_get.
    destruct (last_with_key (car_key c) cars); reflexivity. }
  rewrite <- Hget, <- (dict_get_In _ _ _ Hnd).
  unfold dict_values. rewrite in_map_iff. split.
  - intros ([k c'] & Ec & Hin). simpl in Ec. subst c'.
    rewrite Forall_forall in Hk. specialize (Hk _ Hin). simpl in Hk. now subst k.
  - intros Hin. now exists (car_key c, c).
Qed.


End DeduplicateFacts.

(* ===================================================================== *)
(** * Properties of the parameter validator *)
(* ===================================================================== *)

Section ValidatorFacts.
Import Py brand_model_validator.
Context `{Builtins}.

(** The loop returns the first entry that passes the test, if any. *)
Lemma find_brand_some (marca_lower : string) (brands : Brands) (data : BrandData) :
  find_brand marca_lower brands = Some data <->
  exists before key after,
    brands = before ++ (key, data) :: after
    /\ Forall (fun kd => brand_matches marca_lower (fst kd) (snd kd) = false) before
    /\ brand_matches marca_lower key data = true.
Proof.
  induction brands as [|[k0 d0] brands IH]; simpl.
  - split; [discriminate|]. intros (before & key & after & E & _).
    now destruct before.
  - destruct (brand_matches marca_lower k0 d0) eqn:E0.
    + split.
      * intros E. injection E as ->. now exists [], k0, brands.
      * intros (before & key & after & E & Hall & Hm).
        destruct before as [|b before]; simpl in E; injection E as E1 E2.
        -- congruence.
        -- subst b. inversion Hall; subst. simpl in *. congruence.
    + rewrite IH. split.
      * intros (before & key & after & -> & Hall & Hm).
        exists ((k0, d0) :: before), key, after. repeat split; auto.
      * intros (before & key & after & E & Hall & Hm).
        destruct before as [|b before]; simpl in E; injection E as E1 E2.
        -- congruence.
        -- subst. inversion Hall; subst. now exists before, key, after.
Qed.

Lemma find_brand_none (marca_lower : string) (brands : Brands) :
  find_brand marca_lower brands = None <->
  Forall (fun kd => brand_matches marca_lower (fst kd) (snd kd) = false) brands.
Proof.
  induction brands as [|[k0 d0] brands IH]; simpl.
  - split; [constructor | reflexivity].
  - destruct (brand_matches marca_lower k0 d0) eqn:E0.
    + split; [discriminate|]. intros Hall. inversion Hall; subst. simpl in *. congruence.
    + rewrite IH. split; [now constructor | intros Hall; now inversion Hall].
Qed.

Lemma validate_found (brands : Brands) (marca : string)
  (modelo_input : option string) (data : BrandData) :
  marca <> EmptyString ->
  find_brand (strip (lower marca)) brands = Some data ->
  let r := validate_search_params brands (Some marca) modelo_input in
  result_brand_value r = Some (brand_value data)
  /\ (truthy_str modelo_input = false -> valid r = true).
Proof.
  intros Hne Hfind r. subst r. unfold validate_search_params.
  destruct (String.eqb_spec marca ""); [contradiction|]. rewrite Hfind.
  destruct (truthy_str modelo_input).
  - destruct (find_model _ _); simpl; split; congruence.
  - simpl. now split.
Qed.

(** C6 (amended).  The lookup lower-cases and strips the input and
    compares it with the lower-cased key and the lower-cased display text
    of each entry in catalog order.  A non-empty input that agrees in this
    way with the key or the display text of some entry is found: the
    result carries the canonical value of the first entry that passes the
    code's test, which makes the request valid when no model is asked for;
    it is the canonical value of the agreeing entry itself whenever no
    entry before it passes the test. *)
Theorem brand_lookup_ignores_case
  (brands : Brands) (marca : string) (modelo_input : option string)
  (key : string) (data : BrandData) :
  marca <> EmptyString ->
  In (key, data) brands ->
  lower key = strip (lower marca)
  \/ lower (brand_text data) = strip (lower marca) ->
  let marca_lower := strip (lower marca) in
  let no_match kd := brand_matches marca_lower (fst kd) (snd kd) = false in
  let r := validate_search_params brands (Some marca) modelo_input in
  (exists before key' data' after,
      brands = before ++ (key', data') :: after
      /\ Forall no_match before
      /\ brand_matches marca_lower key' data' = true
      /\ result_brand_value r = Some (brand_value data')
      /\ (truthy_str modelo_input = false -> valid r = true))
  /\ (forall before after,
        brands = before ++ (key, data) :: after ->
        Forall no_match before ->
        result_brand_value r = Some (brand_value data)).
Proof.
  intros Hne Hin Hagree marca_lower no_match r.
  assert (Hm : brand_matches marca_lower key data = true).
  { unfold brand_matches. fold marca_lower in Hagree.
    destruct Hagree as [-> | ->]; rewrite String.eqb_refl;
      now rewrite ?orb_true_r. }
  split.
  - destruct (find_brand marca_lower brands) as [data'|] eqn:Hfind.
    + pose proof Hfind as Hsplit. apply find_brand_some in Hsplit.
      destruct Hsplit as (before & key' & after & E & Hall & Hm').
      exists before, key', data', after.
      destruct (validate_found brands marca modelo_input data' Hne Hfind) as [Hv Hvalid].
      repeat split; auto.
    + apply find_brand_none in Hfind. rewrite Forall_forall in Hfind.
      specialize (Hfind _ Hin). simpl in Hfind. congruence.
  - intros before after E Hall.
    assert (Hfind : find_brand marca_lower brands = Some data).
    { apply find_brand_some. now exists before, key, after. }
    now destruct (validate_found brands marca modelo_input data Hne Hfind).
Qed.

(** C8.  On a non-empty catalog, a brand that is given (a non-empty
    string) and passes the test of no entry is rejected: the result is
    invalid, its one error message quotes the input, and the suggested
    brands are the first five catalog keys in catalog order, a non-empty
    list of at most five. *)
Theorem unknown_brand
  (brands : Brands) (marca : string) (modelo_input : option string) :
  brands <> [] ->
  marca <> EmptyString ->
  (forall key data, In (key, data) brands ->
     brand_matches (strip (lower marca)) key data = false) ->
  let r := validate_search_params brands (Some marca) modelo_input in
  valid r = false
  /\ result_brand_value r = None
  /\ errors r = [("Marca '" ++ marca ++ "' não encontrada.")%string]
  /\ marcas (suggestions r) = Some (firstn 5 (dict_keys brands))
  /\ (List.length (firstn 5 (dict_keys brands)) <= 5)%nat
  /\ firstn 5 (dict_keys brands) <> [].
Proof.
  intros Hcat Hne Hno r.
  assert (Hfind : find_brand (strip (lower marca)) brands = None).
  { apply find_brand_none, Forall_forall. intros [k d] Hin. now apply Hno. }
  subst r. unfold validate_search_params.
  destruct (String.eqb_spec marca ""); [contradiction|]. rewrite Hfind.
  split; [reflexivity|]. split; [reflexivity|]. split; [reflexivity|].
  split; [reflexivity|]. split.
  - apply firstn_le_length.
  - destruct brands as [|[k d] rest]; [congruence | discriminate].
Qed.

End ValidatorFacts.

(* ===================================================================== *)
(** * Properties of the two extraction strategies *)
(* ===================================================================== *)

Section ExtractionFacts.
Import Py car otomoto_scraper.
Context `{Builtins}.

(** Case analysis on the steps of a parser: every [match] on a step that
    may fail either fails, which contradicts a successful parse, or binds
    its result. *)
Ltac step_through H :=
  repeat match type of H with
  | match ?e with _ => _ end = _ =>
      let E := fresh "E" in destruct e eqn:E; try discriminate H
  | (if ?b then _ else _) = _ =>
      let E := fresh "E" in destruct b eqn:E; try discriminate H
  | (let '(_, _) := ?p in _) = _ => destruct p
  end.

Lemma below_500_false (q : Q) : below_500 q = false -> 500 <= q.
Proof.
  unfold below_500. rewrite negb_false_iff. apply Qle_bool_iff.
Qed.

(** An article that is kept carries a price that passed the guard of
    line 258. *)
Lemma parse_article_price (article : Article) (c : Car) :
  parse_article article = Some c -> 500 <= preco_numerico c.
Proof.
  unfold parse_article. intros Hc. cbv zeta in Hc.
  step_through Hc. injection Hc as <-. simpl.
  now apply below_500_false.
Qed.

(** The listings of a page come from its articles. *)
Lemma extract_from_html_in (articles : list Article) (c : Car) :
  In c (_extract_from_html articles) <->
  exists article, In article articles /\ parse_article article = Some c.
Proof.
  unfold _extract_from_html.
  assert (Hgen : forall acc,
    In c (fold_left
            (fun cars article =>
               match parse_article article with
               | Some c => cars ++ [c]
               | None => cars
               end) articles acc)
    <-> In c acc \/ exists article, In article articles /\ parse_article article = Some c).
  { induction articles as [|a l IH]; simpl; intros acc.
    - split; [tauto|]. intros [Hc|(a & [] & _)]. exact Hc.
    - rewrite IH. destruct (parse_article a) as [c'|] eqn:Ea.
      + rewrite in_app_iff. simpl. split.
        * intros [[Hc|[->|[]]]|(a' & Ha' & Hp)]; eauto.
        * intros [Hc|(a' & [->|Ha'] & Hp)]; eauto.
          left. right. left. congruence.
      + split.
        * intros [Hc|(a' & Ha' & Hp)]; eauto.
        * intros [Hc|(a' & [->|Ha'] & Hp)]; eauto. congruence. }
  rewrite Hgen. simpl. tauto.
Qed.

(** A record that is parsed carries the float value of its amount, and
    the amount passed the guard of line 190. *)
Lemma parse_node_data_price (node : pyval) (c : Car) :
  _parse_node_data node = Listing c ->
  exists amount currency,
    price_fields node = Some (amount, currency)
    /\ truthy amount = true
    /\ float_of amount = Some (preco_numerico c).
Proof.
  unfold _parse_node_data, node_fields. intros Hc.
  destruct (get_default node "title" PNone) as [title|]; [|discriminate].
  destruct (get_default node "url" PNone) as [url|]; [|discriminate].
  destruct (price_fields node) as [[amount currency]|]; [|discriminate].
  simpl fst in Hc; simpl snd in Hc.
  destruct (price_value amount) as [price_val|] eqn:Ev; [|discriminate].
  exists amount, currency.
  unfold price_value in Ev. destruct (truthy amount); [|discriminate].
  split; [reflexivity|]. split; [reflexivity|]. rewrite Ev. f_equal.
  destruct (get_default node "parameters" (PList [])) as [params|]; [|discriminate].
  destruct (iterate params) as [entries|]; [|discriminate].
  destruct (run_loop parameter_step entries (None, None, PNone))
    as [[[year mileage] fuel]|]; [|discriminate].
  unfold make_car in Hc. step_through Hc.
  now injection Hc as <-.
Qed.


End ExtractionFacts.

(* ===================================================================== *)
(** * The claims on sample inputs *)
(* ===================================================================== *)

Section Samples.
Import Py car helpers config brand_model_validator otomoto_scraper observe.
Import reference examples.

(** ** The aggregator *)

Example forty_trimmed :
  let r := calculate_price_interval forty in
  viaturas_consideradas r = 36%nat
  /\ preco_intervalo r = {| interval_min := Some 2000; interval_max := Some 37000 |}
  /\ exists avg, media_aproximada r = Some avg /\ avg == 19500.
Proof.
  split; [reflexivity|]. split; [reflexivity|].
  eexists. split; reflexivity.
Qed.

(** The two listings priced 200 are both reported although only one of
    the two prices is in the trimmed list, and the count stays 18. *)
Example tie_reported_twice :
  let r := calculate_price_interval twenty_with_tie in
  viaturas_consideradas r = 18%nat
  /\ option_map (@List.length pyval) (anuncios_usados_para_calculo r) = Some 19%nat.
Proof. vm_compute. split; reflexivity. Qed.


Lemma fall_back_unreachable_witness :
  sort (filtered_prices forty) <> []
  /\ trim (sort (filtered_prices forty)) <> []
  /\ fall_back (trim (sort (filtered_prices forty))) (sort (filtered_prices forty))
     = trim (sort (filtered_prices forty)).
Proof.
  assert (Hne : sort (filtered_prices forty) <> []) by (vm_compute; discriminate).
  split; [exact Hne|].
  destruct (fall_back_unreachable (sort (filtered_prices forty)) Hne)
    as (_ & _ & _ & Htrim & Hfall & _).
  split; [exact Htrim | exact Hfall].
Defined.

Lemma nothing_above_100_witness :
  Forall (fun c => preco_numerico c <= 100) cheap
  /\ calculate_price_interval cheap =
       {| preco_intervalo := {| interval_min := None; interval_max := None |};
          media_aproximada := None;
          viaturas_consideradas := 0;
          anuncios_usados_para_calculo := None |}.
Proof.
  assert (Hall : Forall (fun c => preco_numerico c <= 100) cheap).
  { repeat constructor; vm_compute; discriminate. }
  split; [exact Hall|].
  exact (proj1 (nothing_above_100 cheap) Hall).
Defined.

Lemma used_listings_by_value_witness :
  Exists (fun c => 100 < preco_numerico c) twenty_with_tie
  /\ exists used : list Car,
       anuncios_usados_para_calculo (calculate_price_interval twenty_with_tie)
       = Some (map to_dict used)
       /\ used = filter
                   (fun c => existsb (Qeq_bool (preco_numerico c))
                               (trim (sort (filtered_prices twenty_with_tie))))
                   twenty_with_tie.
Proof.
  assert (Hex : Exists (fun c => 100 < preco_numerico c) twenty_with_tie).
  { apply Exists_cons_hd. reflexivity. }
  split; [exact Hex|].
  destruct (used_listings_by_value twenty_with_tie Hex) as (used & Hused & Hfilter & _).
  exists used. split; [exact Hused | exact Hfilter].
Defined.

(** ** The URL builder *)

Example sample_url :
  _build_url sample_params 2
  = ("https://www.otomoto.pl/osobowe?search%5Badvanced_search_expanded%5D=true"
     ++ "&page=2&search%5Bfilter_enum_make%5D=bmw&search%5Bfilter_enum_model%5D=x5"
     ++ "&search%5Bfilter_float_price%3Ato%5D=50000"
     ++ "&search%5Bfilter_enum_fuel_type%5D=diesel"
     ++ "&search%5Bfilter_enum_gearbox%5D=automatic")%string.
Proof. reflexivity. Qed.

Lemma page_parameter_witness :
  (1 <= 1)%Z /\ (1 < 3)%Z
  /\ parameters_named "page" (url_parameters (_build_url sample_params 1)) = []
  /\ parameters_named "page" (url_parameters (_build_url sample_params 3))
     = [("page", "3")]%string.
Proof.
  assert (H1 : (1 <= 1)%Z) by lia.
  assert (H3 : (1 < 3)%Z) by lia.
  split; [exact H1|]. split; [exact H3|].
  destruct (page_parameter sample_params 1) as (_ & _ & Hfirst & _).
  destruct (page_parameter sample_params 3) as (_ & _ & _ & Hthird).
  split; [exact (Hfirst H1) | exact (Hthird H3)].
Defined.

(** ** The deduplication *)

Example pages_deduplicated : _deduplicate pages = [later; other].
Proof. reflexivity. Qed.


(** ** The validator *)

Lemma brand_lookup_ignores_case_witness :
  "BMW"%string <> EmptyString
  /\ In ("bmw"%string, mkBrand "bmw" "BMW" [mkModel "x5" "X5"; mkModel "seria-3" "Seria 3"])
        catalog
  /\ lower "bmw" = strip (lower "BMW")
  /\ result_brand_value (validate_search_params catalog (Some "BMW"%string) None)
     = Some "bmw"%string.
Proof.
  assert (Hne : "BMW"%string <> EmptyString) by discriminate.
  assert (Hin : In ("bmw"%string,
                    mkBrand "bmw" "BMW" [mkModel "x5" "X5"; mkModel "seria-3" "Seria 3"])
                   catalog) by (simpl; left; reflexivity).
  assert (Hkey : lower "bmw" = strip (lower "BMW")) by reflexivity.
  split; [exact Hne|]. split; [exact Hin|]. split; [exact Hkey|].
  destruct (brand_lookup_ignores_case catalog "BMW" None "bmw" _ Hne Hin (or_introl Hkey))
    as (_ & Hown).
  apply (Hown [] (tl catalog)); [reflexivity | constructor].
Defined.

Lemma unknown_brand_witness :
  catalog <> []
  /\ "Trabant"%string <> EmptyString
  /\ (forall key data, In (key, data) catalog ->
        brand_matches (strip (lower "Trabant")) key data = false)
  /\ valid (validate_search_params catalog (Some "Trabant"%string) None) = false
  /\ marcas (suggestions (validate_search_params catalog (Some "Trabant"%string) None))
     = Some ["bmw"; "audi"; "fiat"; "opel"; "volvo"]%string.
Proof.
  assert (Hcat : catalog <> []) by discriminate.
  assert (Hne : "Trabant"%string <> EmptyString) by discriminate.
  assert (Hno : forall key data, In (key, data) catalog ->
                  brand_matches (strip (lower "Trabant")) key data = false).
  { intros key data Hin. simpl in Hin.
    repeat (destruct Hin as [Hin|Hin]; [injection Hin as <- <-; reflexivity|]).
    contradiction. }
  split; [exact Hcat|]. split; [exact Hne|]. split; [exact Hno|].
  destruct (unknown_brand catalog "Trabant" None Hcat Hne Hno)
    as (Hvalid & _ & _ & Hsuggest & _).
  split; [exact Hvalid | exact Hsuggest].
Defined.

(** C6, as stated, fails: ROMEO differs only in case from the key of the
    second entry, and is normalized to the canonical value of the first,
    whose display text it also agrees with. *)
Lemma first_match_wins_across_fields :
  In ("romeo"%string, romeo) crossed_catalog
  /\ lower "ROMEO" = lower "romeo"
  /\ result_brand_value
       (validate_search_params crossed_catalog (Some "ROMEO"%string) None)
     = Some "alfa-romeo"%string
  /\ result_brand_value
       (validate_search_params crossed_catalog (Some "ROMEO"%string) None)
     <> Some (brand_value romeo).
Proof.
  split; [simpl; right; left; reflexivity|].
  split; [reflexivity|]. split; [reflexivity | discriminate].
Qed.

(** The canonical value is compared as stored: an input that differs from
    it only in case is not found when the stored value has capitals. *)
Example canonical_value_compared_as_stored :
  lower "bmw" = lower "BMW"
  /\ valid (validate_search_params capital_catalog (Some "bmw"%string) None) = false.
Proof. split; reflexivity. Qed.

(** ** The extraction strategies *)

Example articles_extracted :
  map preco_numerico (_extract_from_html articles) = [34900; 99000].
Proof. reflexivity. Qed.



(** C5, as stated, fails: a maximum mileage of 0 is present on the
    parameters and contributes no key. *)
Lemma zero_mileage_has_no_key :
  km_max zero_mileage_params = Some 0%Z
  /\ _build_url zero_mileage_params 1
     = "https://www.otomoto.pl/osobowe?search%5Badvanced_search_expanded%5D=true"%string
  /\ parameters_named "search%5Bfilter_float_mileage%3Ato%5D"
       (url_parameters (_build_url zero_mileage_params 1)) = [].
Proof. repeat split. Qed.

End Samples.

(* ===================================================================== *)
(** * Further properties of the price aggregator *)
(* ===================================================================== *)

Section AggregatorBounds.
Import Py car helpers.

(** ** Sums and means *)

Lemma fold_left_Qplus_acc (l : list Q) (a : Q) :
  fold_left Qplus l a == a + fold_left Qplus l 0.
Proof.
  revert a. induction l as [|x l IH]; intros a; simpl.
  - ring.
  - rewrite (IH (a + x)), (IH (0 + x)). ring.
Qed.

Lemma py_sum_cons (x : Q) (l : list Q) : py_sum (x :: l) == x + py_sum l.
Proof.
  unfold py_sum. simpl. rewrite fold_left_Qplus_acc. ring.
Qed.

Lemma py_sum_lower (lo : Q) (l : list Q) :
  Forall (fun p => lo <= p) l ->
  lo * inject_Z (Z.of_nat (List.length l)) <= py_sum l.
Proof.
  induction 1 as [|x l Hx _ IH].
  - unfold py_sum; simpl. rewrite Qmult_0_r. apply Qle_refl.
  - rewrite py_sum_cons. simpl List.length. rewrite Nat2Z.inj_succ.
    unfold Z.succ. rewrite inject_Z_plus. change (inject_Z 1) with 1.
    set (n := inject_Z (Z.of_nat (List.length l))) in *. nra.
Qed.

Lemma py_sum_upper (hi : Q) (l : list Q) :
  Forall (fun p => p <= hi) l ->
  py_sum l <= hi * inject_Z (Z.of_nat (List.length l)).
Proof.
  induction 1 as [|x l Hx _ IH].
  - unfold py_sum; simpl. rewrite Qmult_0_r. apply Qle_refl.
  - rewrite py_sum_cons. simpl List.length. rewrite Nat2Z.inj_succ.
    unfold Z.succ. rewrite inject_Z_plus. change (inject_Z 1) with 1.
    set (n := inject_Z (Z.of_nat (List.length l))) in *. nra.
Qed.

Lemma length_pos_Q {A : Type} (l : list A) :
  l <> [] -> 0 < inject_Z (Z.of_nat (List.length l)).
Proof.
  destruct l; [congruence|]. intros _. unfold Qlt; simpl. lia.
Qed.

(** The mean of a non-empty list lies between any two bounds of its
    elements. *)
Lemma mean_between (lo hi : Q) (l : list Q) :
  l <> [] ->
  Forall (fun p => lo <= p) l -> Forall (fun p => p <= hi) l ->
  let mean := py_sum l / inject_Z (Z.of_nat (List.length l)) in
  lo <= mean /\ mean <= hi.
Proof.
  intros Hne Hlo Hhi mean. subst mean.
  pose proof (length_pos_Q l Hne) as Hn.
  pose proof (py_sum_lower lo l Hlo) as H1.
  pose proof (py_sum_upper hi l Hhi) as H2.
  split.
  - apply Qle_shift_div_l; [exact Hn | exact H1].
  - apply Qle_shift_div_r; [exact Hn | exact H2].
Qed.

(** ** Rounding *)

Lemma round_half_even_error (q : Q) :
  q - (1 # 2) <= inject_Z (round_half_even q) <= q + (1 # 2).
Proof.
  unfold round_half_even.
  pose proof (Qfloor_le q) as Hlo. pose proof (Qlt_floor q) as Hhi.
  rewrite inject_Z_plus in Hhi. change (inject_Z 1) with 1 in Hhi.
  set (f := Qfloor q) in *.
  destruct (Qcompare (q - inject_Z f) (1 # 2)) eqn:E.
  - apply Qeq_alt in E.
    destruct (Z.even f); rewrite ?inject_Z_plus; change (inject_Z 1) with 1; lra.
  - apply Qlt_alt in E. lra.
  - apply Qgt_alt in E. rewrite inject_Z_plus. change (inject_Z 1) with 1. lra.
Qed.

(** [round(q, 2)] is a whole number of hundredths within half a
    hundredth of [q]. *)
Lemma round2_error (q : Q) : q - (1 # 200) <= round2 q <= q + (1 # 200).
Proof.
  unfold round2. pose proof (round_half_even_error (q * 100)) as [H1 H2].
  set (z := inject_Z (round_half_even (q * 100))) in *.
  split.
  - apply Qle_shift_div_l; [reflexivity | lra].
  - apply Qle_shift_div_r; [reflexivity | lra].
Qed.

(** ** Counting *)

Lemma filter_length_perm {A : Type} (f : A -> bool) (l l' : list A) :
  Permutation l l' -> List.length (filter f l) = List.length (filter f l').
Proof.
  induction 1 as [|x l l' _ IH|x y l|l l' l'' _ IH1 _ IH2]; simpl.
  - reflexivity.
  - destruct (f x); simpl; now rewrite IH.
  - destruct (f x), (f y); reflexivity.
  - now rewrite IH1.
Qed.

Lemma filter_length_all {A : Type} (f : A -> bool) (l : list A) :
  Forall (fun x => f x = true) l -> List.length (filter f l) = List.length l.
Proof.
  induction 1 as [|x l Hx _ IH]; simpl; [reflexivity|].
  rewrite Hx. simpl. now rewrite IH.
Qed.

Lemma mem_refl (l : list Q) : Forall (fun p => mem p l = true) l.
Proof.
  apply Forall_forall. intros p Hp. apply mem_iff. exists p. split; [exact Hp|].
  reflexivity.
Qed.

(** At least as many prices pass the membership test as the trimmed list
    has elements. *)
Lemma members_at_least (prices : list Q) :
  prices <> [] ->
  (List.length (clean_prices_of prices)
   <= List.length (filter (fun p => mem p (clean_prices_of prices)) prices))%nat.
Proof.
  intros Hne. rewrite (clean_prices_of_trim _ Hne).
  set (clean := trim (sort prices)).
  rewrite (filter_length_perm _ _ _ (sort_perm prices)).
  destruct (trim_split (sort prices)) as (Hsplit & _). fold clean in Hsplit.
  rewrite Hsplit at 1. rewrite !filter_app, !length_app.
  rewrite (filter_length_all _ clean (mem_refl clean)). lia.
Qed.

Lemma filter_map_price (f : Q -> bool) (cars : list Car) :
  List.length (filter f (map preco_numerico cars))
  = List.length (filter (fun c => f (preco_numerico c)) cars).
Proof.
  induction cars as [|c cars IH]; simpl; [reflexivity|].
  destruct (f (preco_numerico c)); simpl; now rewrite IH.
Qed.

Lemma filter_filter_length {A : Type} (f g : A -> bool) (l : list A) :
  (List.length (filter f (filter g l)) <= List.length (filter f l))%nat.
Proof.
  induction l as [|x l IH]; simpl; [lia|].
  destruct (g x); simpl; destruct (f x); simpl; lia.
Qed.

(** ** The statistics of a non-empty selection *)

(** X1.  When some listing is priced above 100, both bounds of the
    reported interval are numeric prices of input listings, both exceed
    100, and the lower bound is at most the upper bound. *)
Theorem interval_bounds (cars : list Car) :
  Exists (fun c => 100 < preco_numerico c) cars ->
  exists lo hi,
    preco_intervalo (calculate_price_interval cars)
    = {| interval_min := Some lo; interval_max := Some hi |}
    /\ In lo (map preco_numerico cars)
    /\ In hi (map preco_numerico cars)
    /\ 100 < lo
    /\ lo <= hi.
Proof.
  intros Hex.
  assert (Hne : filtered_prices cars <> []).
  { apply Exists_exists in Hex. destruct Hex as (c & Hc & Hp).
    intros E. unfold filtered_prices in E. apply map_eq_nil in E.
    assert (Hin : In c (filter above_100 cars)).
    { apply filter_In. split; [exact Hc | now apply above_100_iff]. }
    now rewrite E in Hin. }
  rewrite (calculate_nonempty _ Hne). cbv zeta. simpl preco_intervalo.
  set (clean := clean_prices_of (filtered_prices cars)).
  assert (Hclean : clean <> []).
  { unfold clean. rewrite (clean_prices_of_trim _ Hne). apply trim_nonempty.
    intros E. apply Hne. apply Permutation_nil. rewrite <- E.
    apply Permutation_sym, sort_perm. }
  destruct (py_min_spec clean Hclean) as (lo & -> & Hlo & Hlo_all).
  destruct (py_max_spec clean Hclean) as (hi & -> & Hhi & Hhi_all).
  assert (Hsub : forall p, In p clean -> In p (map preco_numerico cars) /\ 100 < p).
  { intros p Hp. apply clean_prices_subset in Hp. split.
    - unfold filtered_prices in Hp. apply in_map_iff in Hp.
      destruct Hp as (c & <- & Hc). apply in_map. now apply filter_In in Hc.
    - pose proof (filtered_prices_above cars) as Hab.
      rewrite Forall_forall in Hab. now apply Hab. }
  exists lo, hi. split; [reflexivity|].
  split; [now apply Hsub|]. split; [now apply Hsub|]. split; [now apply Hsub|].
  rewrite Forall_forall in Hlo_all. now apply Hlo_all.
Qed.


(** X3.  The number of listings considered is [n - 2 * floor(n / 20)],
    [n] being the number of input listings priced above 100: never more
    than the input has, at least nine tenths of [n], and positive as soon
    as [n] is. *)
Theorem considered_count (cars : list Car) :
  let n := List.length (filter above_100 cars) in
  let count := viaturas_consideradas (calculate_price_interval cars) in
  (count = n - 2 * (n / 20)
   /\ count <= List.length cars
   /\ 9 * n <= 10 * count
   /\ (0 < n -> 0 < count))%nat.
Proof.
  intros n count.
  assert (Hn : List.length (filtered_prices cars) = n).
  { unfold filtered_prices. now rewrite length_map. }
  assert (Hle : (n <= List.length cars)%nat) by apply filter_length_le.
  assert (Hcount : (count = n - 2 * (n / 20))%nat).
  { unfold count. destruct (filtered_prices cars) as [|p ps] eqn:E.
    - rewrite (calculate_empty _ E). simpl in Hn. now rewrite <- Hn.
    - rewrite <- E in Hn.
      assert (Hne : filtered_prices cars <> []) by (rewrite E; discriminate).
      rewrite (calculate_nonempty _ Hne). cbv zeta. simpl viaturas_consideradas.
      rewrite (clean_prices_of_trim _ Hne).
      destruct (trim_split (sort (filtered_prices cars))) as (_ & _ & _ & Hlen).
      rewrite Hlen, cut_of_div20, sort_length. now rewrite Hn. }
  pose proof (Nat.Div0.mul_div_le n 20).
  repeat split; lia.
Qed.

(** X4.  When some listing is priced above 100, the listings reported as
    used are input listings priced above 100 and within the reported
    interval, and there are at least as many of them as listings
    considered. *)
Theorem used_listings_within_interval (cars : list Car) :
  Exists (fun c => 100 < preco_numerico c) cars ->
  exists (used : list Car) (lo hi : Q),
    anuncios_usados_para_calculo (calculate_price_interval cars)
    = Some (map to_dict used)
    /\ preco_intervalo (calculate_price_interval cars)
       = {| interval_min := Some lo; interval_max := Some hi |}
    /\ (forall c, In c used ->
          In c cars /\ 100 < preco_numerico c
          /\ lo <= preco_numerico c /\ preco_numerico c <= hi)
    /\ (viaturas_consideradas (calculate_price_interval cars)
        <= List.length used)%nat.
Proof.
  intros Hex.
  assert (Hne : filtered_prices cars <> []).
  { apply Exists_exists in Hex. destruct Hex as (c & Hc & Hp).
    intros E. unfold filtered_prices in E. apply map_eq_nil in E.
    assert (Hin : In c (filter above_100 cars)).
    { apply filter_In. split; [exact Hc | now apply above_100_iff]. }
    now rewrite E in Hin. }
  rewrite (calculate_nonempty _ Hne). cbv zeta.
  simpl preco_intervalo; simpl anuncios_usados_para_calculo;
    simpl viaturas_consideradas.
  set (clean := clean_prices_of (filtered_prices cars)).
  assert (Hclean : clean <> []).
  { unfold clean. rewrite (clean_prices_of_trim _ Hne). apply trim_nonempty.
    intros E. apply Hne. apply Permutation_nil. rewrite <- E.
    apply Permutation_sym, sort_perm. }
  destruct (py_min_spec clean Hclean) as (lo & -> & _ & Hlo_all).
  destruct (py_max_spec clean Hclean) as (hi & -> & _ & Hhi_all).
  rewrite Forall_forall in Hlo_all, Hhi_all.
  eexists _, lo, hi. split; [reflexivity|]. split; [reflexivity|]. split.
  - intros c Hc. apply filter_In in Hc. destruct Hc as [Hin Hmem].
    apply mem_iff in Hmem. destruct Hmem as (p & Hp & Heq).
    split; [exact Hin|]. rewrite Heq.
    split; [|split; [now apply Hlo_all | now apply Hhi_all]].
    pose proof (filtered_prices_above cars) as Hab.
    rewrite Forall_forall in Hab. apply Hab. now apply clean_prices_subset.
  - pose proof (members_at_least (filtered_prices cars) Hne) as Hm.
    fold clean in Hm. unfold filtered_prices in Hm.
    rewrite filter_map_price in Hm.
    pose proof (filter_filter_length
                  (fun c => mem (preco_numerico c) clean) above_100 cars).
    lia.
Qed.

End AggregatorBounds.

(* ===================================================================== *)
(** * Further properties of the URL builder *)
(* ===================================================================== *)

Section UrlShape.
Import Py car config otomoto_scraper observe notions.

Lemma string_forall_app (p : ascii -> bool) (a b : string) :
  string_forall p (a ++ b) = string_forall p a && string_forall p b.
Proof.
  induction a as [|c a IH]; simpl; [reflexivity|].
  now rewrite IH, andb_assoc.
Qed.

Lemma quote_byte_url_chars (c : ascii) : string_forall url_char (quote_byte c) = true.
Proof. destruct c as [[] [] [] [] [] [] [] []]; reflexivity. Qed.

Lemma quote_plus_url_chars (s : string) : string_forall url_char (quote_plus s) = true.
Proof.
  induction s as [|c s IH]; simpl; [reflexivity|].
  now rewrite string_forall_app, quote_byte_url_chars, IH.
Qed.

Lemma join_url_chars (items : list string) :
  Forall (fun a => string_forall url_char a = true) items ->
  string_forall url_char (join "&" items) = true.
Proof.
  induction 1 as [|a l Ha _ IH]; [reflexivity|].
  destruct l as [|b l]; [exact Ha|].
  change (join "&" (a :: b :: l)) with (a ++ "&" ++ join "&" (b :: l))%string.
  rewrite !string_forall_app, Ha, IH. reflexivity.
Qed.

(** X5.  Whatever the parameters and the page, the built URL consists of
    unreserved characters (letters, digits, [_.-~]), the delimiters
    [:/?&=], the percent sign and the plus sign: no space, no quote, no
    bracket and no byte outside ASCII reaches it unescaped. *)
Theorem build_url_characters (params : CarSearchParams) (page : Z) :
  string_forall url_char (_build_url params page) = true.
Proof.
  unfold _build_url. cbv zeta. rewrite !string_forall_app.
  replace (string_forall url_char OTOMOTO_SEARCH_URL) with true by reflexivity.
  replace (string_forall url_char "?") with true by reflexivity.
  simpl andb. unfold urlencode. apply join_url_chars.
  apply Forall_forall. intros a Ha. apply in_map_iff in Ha.
  destruct Ha as (kv & <- & _). unfold urlencode_item.
  rewrite !string_forall_app, !quote_plus_url_chars. reflexivity.
Qed.

Lemma in_encoded_str_entry (k : string) (o : option string) (ek v : string) :
  In (ek, v) (map encoded (str_entry k o)) -> ek = quote_plus k.
Proof.
  unfold str_entry. destruct o as [s|]; [destruct (s =? "")%string|]; simpl;
    try tauto.
  intros [E|[]]. unfold encoded in E. simpl in E. congruence.
Qed.

Lemma in_encoded_int_entry (k : string) (o : option Z) (ek v : string) :
  In (ek, v) (map encoded (int_entry k o)) -> ek = quote_plus k.
Proof.
  unfold int_entry. destruct o as [z|]; [destruct (z =? 0)%Z|]; simpl;
    try tauto.
  intros [E|[]]. unfold encoded in E. simpl in E. congruence.
Qed.

Lemma in_encoded_mapped_entry (k : string) (o : option string) table (ek v : string) :
  In (ek, v) (map encoded (mapped_entry k o table)) ->
  ek = quote_plus k
  /\ exists s token,
       o = Some s /\ dict_get s table = Some token /\ v = quote_plus token.
Proof.
  unfold mapped_entry. destruct o as [s|]; [|simpl; tauto].
  destruct (s =? "")%string; [simpl; tauto|].
  destruct (dict_get s table) as [token|] eqn:E; [|simpl; tauto].
  intros [Ev|[]]. unfold encoded in Ev. simpl in Ev.
  injection Ev as <- <-. split; [reflexivity|]. now exists s, token.
Qed.

Lemma dict_get_value {V : Type} (k : string) (v : V) (d : list (string * V)) :
  dict_get k d = Some v -> In v (dict_values d).
Proof.
  unfold dict_values. induction d as [|[k0 v0] d IH]; simpl; [discriminate|].
  destruct (k0 =? k)%string; [intros E; left; congruence | auto].
Qed.

(** What an item of the built URL can be, by its key. *)
Lemma url_item_cases (params : CarSearchParams) (page : Z) (ek v : string) :
  In (ek, v) (url_parameters (_build_url params page)) ->
  In ek (map quote_plus
           [ "search[advanced_search_expanded]"; "page";
             "search[filter_enum_make]"; "search[filter_enum_model]";
             "search[filter_float_year:from]"; "search[filter_float_year:to]";
             "search[filter_float_mileage:to]"; "search[filter_float_price:to]" ]%string)
  \/ (ek = quote_plus "search[filter_enum_fuel_type]"
      /\ exists s token, combustivel_param params = Some s
                         /\ dict_get s FUEL_TYPE_MAP = Some token
                         /\ v = quote_plus token)
  \/ (ek = quote_plus "search[filter_enum_gearbox]"
      /\ exists s token, caixa params = Some s
                         /\ dict_get s TRANSMISSION_MAP = Some token
                         /\ v = quote_plus token).
Proof.
  rewrite url_parameters_build_url, query_params_expected.
  unfold expected_query. rewrite !map_app, !in_app_iff.
  intros [Hin|[Hin|[Hin|[Hin|[Hin|[Hin|[Hin|[Hin|[Hin|Hin]]]]]]]]].
  - left. destruct Hin as [E|[]]. injection E as <- _.
    apply (in_map quote_plus _ "search[advanced_search_expanded]"%string).
    cbn [In]. tauto.
  - left. destruct (1 <? page)%Z; [|contradiction].
    destruct Hin as [E|[]]. injection E as <- _.
    apply (in_map quote_plus _ "page"%string). cbn [In]. tauto.
  - left. apply in_encoded_str_entry in Hin. subst ek. apply in_map. cbn [In]. tauto.
  - left. apply in_encoded_str_entry in Hin. subst ek. apply in_map. cbn [In]. tauto.
  - left. apply in_encoded_int_entry in Hin. subst ek. apply in_map. cbn [In]. tauto.
  - left. apply in_encoded_int_entry in Hin. subst ek. apply in_map. cbn [In]. tauto.
  - left. apply in_encoded_int_entry in Hin. subst ek. apply in_map. cbn [In]. tauto.
  - left. apply in_encoded_int_entry in Hin. subst ek. apply in_map. cbn [In]. tauto.
  - right. left. now apply in_encoded_mapped_entry in Hin.
  - right. right. now apply in_encoded_mapped_entry in Hin.
Qed.

(** X6.  The fuel-type and gearbox values of a built URL are never the
    user's words: a fuel-type item carries the token the fixed map gives
    for the requested fuel, one of the site's six, and a gearbox item the
    token for the requested transmission, one of the site's two. *)
Theorem enum_values_are_site_tokens (params : CarSearchParams) (page : Z) (v : string) :
  let items := url_parameters (_build_url params page) in
  (In ("search%5Bfilter_enum_fuel_type%5D"%string, v) items ->
     In v ["petrol"; "diesel"; "lpg"; "hybrid"; "electric"; "hydrogen"]%string
     /\ exists s, combustivel_param params = Some s
                  /\ dict_get s FUEL_TYPE_MAP = Some v)
  /\ (In ("search%5Bfilter_enum_gearbox%5D"%string, v) items ->
        In v ["manual"; "automatic"]%string
        /\ exists s, caixa params = Some s
                     /\ dict_get s TRANSMISSION_MAP = Some v).
Proof.
  intros items. split; intros Hin; apply url_item_cases in Hin;
    destruct Hin as [Hk|[(Hk & s & token & Hs & Hget & ->)|(Hk & s & token & Hs & Hget & ->)]];
    try discriminate Hk;
    try (simpl in Hk; repeat (destruct Hk as [Hk|Hk]; [discriminate Hk|]);
         contradiction).
  - pose proof (dict_get_value _ _ _ Hget) as Hv. simpl in Hv.
    assert (Hq : quote_plus token = token).
    { repeat (destruct Hv as [<-|Hv]; [reflexivity|]). contradiction. }
    rewrite Hq. split; [|now exists s].
    simpl. repeat (destruct Hv as [<-|Hv]; [tauto|]). contradiction.
  - pose proof (dict_get_value _ _ _ Hget) as Hv. simpl in Hv.
    assert (Hq : quote_plus token = token).
    { repeat (destruct Hv as [<-|Hv]; [reflexivity|]). contradiction. }
    rewrite Hq. split; [|now exists s].
    simpl. repeat (destruct Hv as [<-|Hv]; [tauto|]). contradiction.
Qed.

End UrlShape.

(* ===================================================================== *)
(** * Further properties of the deduplication *)
(* ===================================================================== *)

Section DeduplicateOrder.
Import Py car otomoto_scraper observe notions.

Lemma dict_mem_set {V : Type} (k k' : string) (v : V) (d : list (string * V)) :
  dict_mem k' (dict_set k v d) = dict_mem k' d || (k =? k')%string.
Proof.
  unfold dict_mem. destruct (String.eqb_spec k k') as [<-|Hne].
  - rewrite dict_get_set_same. now rewrite orb_true_r.
  - rewrite dict_get_set_other by exact Hne. now rewrite orb_false_r.
Qed.

Lemma dict_set_keys_eq {V : Type} (k : string) (v : V) (d : list (string * V)) :
  dict_keys (dict_set k v d)
  = if dict_mem k d then dict_keys d else dict_keys d ++ [k].
Proof.
  unfold dict_mem, dict_keys. induction d as [|[k0 v0] d IH]; simpl; [reflexivity|].
  destruct (k0 =? k)%string; simpl; [reflexivity|].
  rewrite IH. now destruct (dict_get k d).
Qed.

Lemma filter_filter {A : Type} (f g : A -> bool) (l : list A) :
  filter f (filter g l) = filter (fun x => g x && f x) l.
Proof.
  induction l as [|x l IH]; simpl; [reflexivity|].
  destruct (g x); simpl; [destruct (f x)|]; now rewrite IH.
Qed.

(** The keys of the dictionary after the loop: those it started with,
    then the new keys in the order in which they first occur. *)
Lemma unique_after_keys (cars : list Car) (d : list (string * Car)) :
  dict_keys (unique_after cars d)
  = dict_keys d
    ++ filter (fun k => negb (dict_mem k d))
              (first_occurrences (map car_key cars)).
Proof.
  revert d. induction cars as [|c cars IH]; intros d; simpl.
  - now rewrite app_nil_r.
  - change (fold_left (fun unique c0 => dict_set (car_key c0) c0 unique) cars
              (dict_set (car_key c) c d))
      with (unique_after cars (dict_set (car_key c) c d)).
    rewrite IH, dict_set_keys_eq, filter_filter.
    destruct (dict_mem (car_key c) d) eqn:E; simpl.
    + f_equal. apply filter_ext_in. intros k _.
      rewrite dict_mem_set.
      destruct (String.eqb_spec k (car_key c)) as [->|Hne]; simpl.
      * now rewrite E.
      * destruct (String.eqb_spec (car_key c) k); [congruence|].
        now rewrite orb_false_r.
    + rewrite <- app_assoc. simpl. f_equal. f_equal.
      apply filter_ext. intros k. rewrite dict_mem_set.
      rewrite (String.eqb_sym (car_key c) k).
      destruct (dict_mem k d), (k =? car_key c)%string; reflexivity.
Qed.

Lemma well_keyed_values (d : list (string * Car)) :
  well_keyed d -> map car_key (dict_values d) = dict_keys d.
Proof.
  intros [_ Hk]. unfold dict_keys, dict_values. rewrite map_map.
  induction Hk as [|kc d E _ IH]; simpl; [reflexivity|]. now rewrite IH, E.
Qed.

Lemma values_by_key {V : Type} (d : list (string * V)) :
  NoDup (dict_keys d) ->
  map Some (dict_values d) = map (fun k => dict_get k d) (dict_keys d).
Proof.
  unfold dict_keys, dict_values.
  induction d as [|[k0 v0] d IH]; simpl; intros Hd; [reflexivity|].
  inversion Hd as [|? ? Hk0 Hd']; subst.
  rewrite String.eqb_refl. f_equal. rewrite (IH Hd').
  apply map_ext_in. intros k Hk.
  destruct (String.eqb_spec k0 k) as [->|Hne]; [contradiction | reflexivity].
Qed.

Lemma first_occurrences_incl (keys : list string) (k : string) :
  In k (first_occurrences keys) -> In k keys.
Proof.
  induction keys as [|k0 keys IH]; simpl; [tauto|].
  intros [E|Hin]; [now left|]. apply filter_In in Hin. right. now apply IH.
Qed.

Lemma first_occurrences_length (keys : list string) :
  (List.length (first_occurrences keys) <= List.length keys)%nat.
Proof.
  induction keys as [|k0 keys IH]; simpl; [lia|].
  pose proof (filter_length_le (fun k' => negb (k' =? k0)%string)
                (first_occurrences keys)). lia.
Qed.

Lemma first_occurrences_nodup (keys : list string) :
  NoDup keys -> first_occurrences keys = keys.
Proof.
  induction 1 as [|k0 keys Hk0 _ IH]; simpl; [reflexivity|].
  rewrite IH. f_equal. apply forallb_filter_id. apply forallb_forall.
  intros k Hk. destruct (String.eqb_spec k k0); [congruence | reflexivity].
Qed.

Lemma deduplicate_keys (cars : list Car) :
  map car_key (_deduplicate cars) = first_occurrences (map car_key cars).
Proof.
  unfold _deduplicate. cbv zeta.
  rewrite well_keyed_values
    by (apply unique_after_well_keyed; split; constructor).
  rewrite unique_after_keys. simpl.
  apply forallb_filter_id. apply forallb_forall. reflexivity.
Qed.

Lemma deduplicate_keys_nodup (cars : list Car) :
  NoDup (map car_key (_deduplicate cars)).
Proof.
  unfold _deduplicate. cbv zeta.
  rewrite well_keyed_values
    by (apply unique_after_well_keyed; split; constructor).
  apply unique_after_well_keyed. split; constructor.
Qed.

(** X7.  The result lists each key once, in the order in which the keys
    first occur in the input, and under each key the listing supplied
    last with it: a duplicate keeps the position of the first copy and
    takes the values of the last. *)
Theorem deduplicate_order (cars : list Car) :
  map car_key (_deduplicate cars) = first_occurrences (map car_key cars)
  /\ map Some (_deduplicate cars)
     = map (fun k => last_with_key k cars)
           (first_occurrences (map car_key cars)).
Proof.
  split; [apply deduplicate_keys|].
  rewrite <- deduplicate_keys.
  unfold _deduplicate. cbv zeta.
  destruct (unique_after_well_keyed cars []) as [Hnd Hk]; [split; constructor|].
  rewrite well_keyed_values by (split; assumption).
  rewrite (values_by_key _ Hnd). apply map_ext. intros k.
  rewrite unique_after_get. now destruct (last_with_key k cars).
Qed.

(** X8.  Deduplication changes nothing in a list whose keys are pairwise
    distinct; hence it is idempotent.  It never lengthens the list, and
    leaves it empty only when it was. *)
Theorem deduplicate_stable (cars : list Car) :
  (NoDup (map car_key cars) -> _deduplicate cars = cars)
  /\ _deduplicate (_deduplicate cars) = _deduplicate cars
  /\ (List.length (_deduplicate cars) <= List.length cars)%nat
  /\ (_deduplicate cars = [] <-> cars = []).
Proof.
  assert (Hid : forall l, NoDup (map car_key l) -> _deduplicate l = l).
  { intros l Hnd.
    assert (Hgen : forall d,
               (forall c, In c l -> dict_mem (car_key c) d = false) ->
               unique_after l d = d ++ map (fun c => (car_key c, c)) l).
    { induction l as [|c l IH]; intros d Hd; simpl; [now rewrite app_nil_r|].
      change (fold_left (fun unique c0 => dict_set (car_key c0) c0 unique) l
                (dict_set (car_key c) c d))
        with (unique_after l (dict_set (car_key c) c d)).
      inversion Hnd as [|? ? Hc Hnd']; subst.
      rewrite IH; [|exact Hnd'|].
      - rewrite dict_set_fresh by (apply Hd; now left).
        now rewrite <- app_assoc.
      - intros c' Hc'. rewrite dict_mem_set, Hd by now right.
        destruct (String.eqb_spec (car_key c) (car_key c')) as [E|]; [|reflexivity].
        exfalso. apply Hc. rewrite E. now apply in_map. }
    unfold _deduplicate. cbv zeta. rewrite Hgen by reflexivity.
    unfold dict_values. simpl. rewrite map_map. simpl. apply map_id. }
  split; [apply Hid|]. split; [apply Hid, deduplicate_keys_nodup|]. split.
  - rewrite <- (length_map car_key (_deduplicate cars)), deduplicate_keys.
    rewrite <- (length_map car_key cars). apply first_occurrences_length.
  - split; [|intros ->; reflexivity].
    intros E. pose proof (deduplicate_keys cars) as Hk. rewrite E in Hk.
    destruct cars; [reflexivity | discriminate].
Qed.

End DeduplicateOrder.

(* ===================================================================== *)
(** * Further properties of the parameter validator *)
(* ===================================================================== *)

Section ValidatorModels.
Import Py brand_model_validator.
Context `{Builtins}.

Lemma find_model_some (modelo_lower : string) (models_list : list ModelEntry)
  (model : ModelEntry) :
  find_model modelo_lower models_list = Some model <->
  exists before after,
    models_list = before ++ model :: after
    /\ Forall (fun m => model_matches modelo_lower m = false) before
    /\ model_matches modelo_lower model = true.
Proof.
  unfold find_model. induction models_list as [|m0 l IH]; simpl.
  - split; [discriminate|]. intros (before & after & E & _). now destruct before.
  - destruct (model_matches modelo_lower m0) eqn:E0.
    + split.
      * intros E. injection E as ->. now exists [], l.
      * intros (before & after & E & Hall & Hm).
        destruct before as [|b before]; simpl in E; injection E as E1 E2.
        -- congruence.
        -- subst b. inversion Hall; subst. congruence.
    + rewrite IH. split.
      * intros (before & after & -> & Hall & Hm).
        exists (m0 :: before), after. repeat split; auto.
      * intros (before & after & E & Hall & Hm).
        destruct before as [|b before]; simpl in E; injection E as E1 E2.
        -- congruence.
        -- subst. inversion Hall; subst. now exists before, after.
Qed.

Lemma find_model_none (modelo_lower : string) (models_list : list ModelEntry) :
  find_model modelo_lower models_list = None <->
  Forall (fun m => model_matches modelo_lower m = false) models_list.
Proof.
  unfold find_model. induction models_list as [|m0 l IH]; simpl.
  - split; [constructor | reflexivity].
  - destruct (model_matches modelo_lower m0) eqn:E0.
    + split; [discriminate|]. intros Hall. inversion Hall; subst. congruence.
    + rewrite IH. split; [now constructor | intros Hall; now inversion Hall].
Qed.

Lemma find_brand_in (marca_lower : string) (brands : Brands) (data : BrandData) :
  find_brand marca_lower brands = Some data ->
  exists key, In (key, data) brands.
Proof.
  induction brands as [|[k0 d0] brands IH]; simpl; [discriminate|].
  destruct (brand_matches marca_lower k0 d0).
  - intros E. injection E as ->. exists k0. now left.
  - intros E. destruct (IH E) as (key & Hin). exists key. now right.
Qed.

(** X9.  Once the brand is found, the model is looked up without regard
    to case in both of its fields: an input that, lower-cased and
    stripped, equals the lower-cased text or the lower-cased value of a
    model of that brand makes the request valid, and the result carries
    the value of the first model of the list that passes the test. *)
Theorem model_lookup_ignores_case
  (brands : Brands) (marca modelo : string) (data : BrandData) (model : ModelEntry) :
  marca <> EmptyString ->
  modelo <> EmptyString ->
  find_brand (strip (lower marca)) brands = Some data ->
  In model (models data) ->
  lower (text model) = strip (lower modelo)
  \/ lower (value model) = strip (lower modelo) ->
  let r := validate_search_params brands (Some marca) (Some modelo) in
  valid r = true
  /\ errors r = []
  /\ result_brand_value r = Some (brand_value data)
  /\ exists before first after,
       models data = before ++ first :: after
       /\ Forall (fun m => model_matches (strip (lower modelo)) m = false) before
       /\ model_matches (strip (lower modelo)) first = true
       /\ result_model_value r = Some (value first).
Proof.
  intros Hmarca Hmodelo Hfind Hin Hagree r.
  assert (Hm : model_matches (strip (lower modelo)) model = true).
  { unfold model_matches. destruct Hagree as [-> | ->]; rewrite String.eqb_refl;
      now rewrite ?orb_true_r. }
  destruct (find_model (strip (lower modelo)) (models data)) as [first|] eqn:Ef.
  - subst r. unfold validate_search_params.
    destruct (String.eqb_spec marca ""); [contradiction|]. rewrite Hfind.
    unfold truthy_str. destruct (String.eqb_spec modelo ""); [contradiction|].
    simpl negb. cbv iota. rewrite Ef. simpl.
    split; [reflexivity|]. split; [reflexivity|]. split; [reflexivity|].
    apply find_model_some in Ef. destruct Ef as (before & after & E & Hall & Hf).
    now exists before, first, after.
  - apply find_model_none in Ef. rewrite Forall_forall in Ef.
    specialize (Ef _ Hin). congruence.
Qed.

(** X10.  Once the brand is found, a model that passes the test of none
    of the brand's models makes the request invalid: the brand stays
    normalized, no model value is returned, the one error message quotes
    the model as typed, and the suggestions are the display texts of all
    the models of the brand, in catalog order and without a cap. *)
Theorem unknown_model
  (brands : Brands) (marca modelo : string) (data : BrandData) :
  marca <> EmptyString ->
  modelo <> EmptyString ->
  find_brand (strip (lower marca)) brands = Some data ->
  (forall m, In m (models data) ->
     model_matches (strip (lower modelo)) m = false) ->
  let r := validate_search_params brands (Some marca) (Some modelo) in
  valid r = false
  /\ result_brand_value r = Some (brand_value data)
  /\ result_model_value r = None
  /\ errors r = [("Modelo '" ++ modelo ++ "' não encontrado para a marca.")%string]
  /\ suggestions r
     = {| marcas := None;
          modelos_disponiveis := Some (map text (models data)) |}.
Proof.
  intros Hmarca Hmodelo Hfind Hno r.
  assert (Ef : find_model (strip (lower modelo)) (models data) = None).
  { apply find_model_none, Forall_forall. exact Hno. }
  subst r. unfold validate_search_params.
  destruct (String.eqb_spec marca ""); [contradiction|]. rewrite Hfind.
  unfold truthy_str. destruct (String.eqb_spec modelo ""); [contradiction|].
  simpl negb. cbv iota. rewrite Ef. repeat split.
Qed.

(** X11.  On every input the result is coherent: it is valid exactly when
    it has no error; a valid result carries no suggestion; an invalid one
    carries exactly one error and exactly one kind of suggestion, brands
    when no brand was recognized and models otherwise; and a model value
    is only ever returned together with a brand value, in a valid
    result. *)
Theorem result_coherent
  (brands : Brands) (marca_input modelo_input : option string) :
  let r := validate_search_params brands marca_input modelo_input in
  (valid r = true <-> errors r = [])
  /\ (valid r = true -> suggestions r = mkSuggestions None None)
  /\ (valid r = false ->
        List.length (errors r) = 1%nat
        /\ ((result_brand_value r = None
             /\ marcas (suggestions r) <> None
             /\ modelos_disponiveis (suggestions r) = None)
            \/ (result_brand_value r <> None
                /\ marcas (suggestions r) = None
                /\ modelos_disponiveis (suggestions r) <> None)))
  /\ (result_model_value r <> None ->
        result_brand_value r <> None /\ valid r = true).
Proof.
  intros r. subst r. unfold validate_search_params.
  destruct marca_input as [marca|]; [|simpl; intuition congruence].
  destruct (marca =? "")%string; [simpl; intuition congruence|].
  destruct (find_brand (strip (lower marca)) brands) as [data|];
    [|simpl; intuition congruence].
  destruct (truthy_str modelo_input); [|simpl; intuition congruence].
  destruct (find_model _ _); simpl; intuition congruence.
Qed.

(** X12.  The validator never invents a value: a returned brand value is
    the canonical value of an entry of the catalog, and a returned model
    value is the value of a model listed under that same entry. *)
Theorem values_from_catalog
  (brands : Brands) (marca_input modelo_input : option string) (brand : string) :
  let r := validate_search_params brands marca_input modelo_input in
  result_brand_value r = Some brand ->
  exists key data,
    In (key, data) brands
    /\ brand_value data = brand
    /\ forall model_value,
         result_model_value r = Some model_value ->
         exists model, In model (models data) /\ value model = model_value.
Proof.
  intros r. subst r. unfold validate_search_params.
  destruct marca_input as [marca|]; [|discriminate].
  destruct (marca =? "")%string; [discriminate|].
  destruct (find_brand (strip (lower marca)) brands) as [data|] eqn:Ef;
    [|discriminate].
  destruct (find_brand_in _ _ _ Ef) as (key & Hin).
  destruct (truthy_str modelo_input).
  - destruct (find_model _ _) as [model|] eqn:Em; simpl; intros E;
      injection E as <-; exists key, data;
      (split; [exact Hin|]); (split; [reflexivity|]); [|discriminate].
    intros mv Emv. injection Emv as <-. exists model. split; [|reflexivity].
    apply find_model_some in Em. destruct Em as (before & after & -> & _).
    apply in_or_app. right. now left.
  - simpl. intros E. injection E as <-. exists key, data.
    split; [exact Hin|]. split; [reflexivity | discriminate].
Qed.

(** X13.  With an empty catalog, which is what a missing database file
    yields, every brand that is given is rejected, whatever the model:
    the one error quotes the brand and the list of suggested brands is
    empty. *)
Theorem empty_catalog_rejects (marca : string) (modelo_input : option string) :
  marca <> EmptyString ->
  let r := validate_search_params [] (Some marca) modelo_input in
  valid r = false
  /\ result_brand_value r = None
  /\ result_model_value r = None
  /\ errors r = [("Marca '" ++ marca ++ "' não encontrada.")%string]
  /\ suggestions r = {| marcas := Some []; modelos_disponiveis := None |}.
Proof.
  intros Hne r. subst r. unfold validate_search_params.
  destruct (String.eqb_spec marca ""); [contradiction|]. repeat split.
Qed.

End ValidatorModels.

(* ===================================================================== *)
(** * Further properties of the two extraction strategies *)
(* ===================================================================== *)

Section ExtractionShapes.
Import Py car otomoto_scraper.
Context `{Builtins}.

Ltac step_into H :=
  repeat match type of H with
  | match ?e with _ => _ end = _ =>
      let E := fresh "E" in destruct e eqn:E; try discriminate H
  | (if ?b then _ else _) = _ =>
      let E := fresh "E" in destruct b eqn:E; try discriminate H
  end.

Lemma extract_from_html_app (a b : list Article) :
  _extract_from_html (a ++ b) = _extract_from_html a ++ _extract_from_html b.
Proof.
  unfold _extract_from_html.
  set (step := fun (cars : list Car) (article : Article) =>
                 match parse_article article with
                 | Some c => cars ++ [c]
                 | None => cars
                 end).
  assert (Hacc : forall l acc, fold_left step l acc = acc ++ fold_left step l []).
  { induction l as [|x l IH]; intros acc; simpl; [now rewrite app_nil_r|].
    rewrite IH, (IH (step [] x)). unfold step at 1 3.
    destruct (parse_article x); simpl; [now rewrite <- app_assoc | reflexivity]. }
  rewrite fold_left_app. apply Hacc.
Qed.

Lemma extract_from_html_cons (article : Article) (rest : list Article) :
  _extract_from_html (article :: rest)
  = match parse_article article with
    | Some c => c :: _extract_from_html rest
    | None => _extract_from_html rest
    end.
Proof.
  change (article :: rest) with ([article] ++ rest).
  rewrite extract_from_html_app. unfold _extract_from_html at 1. simpl.
  now destruct (parse_article article).
Qed.

Lemma parse_article_fields (article : Article) (c : Car) :
  parse_article article = Some c ->
  url c = link_href article
  /\ link_href article <> None
  /\ preco c = (format_0f (preco_numerico c) ++ " " ++ moeda c)%string.
Proof.
  unfold parse_article. intros Hc. cbv zeta in Hc.
  destruct (link_href article) as [u|]; [|discriminate].
  step_into Hc; injection Hc as <-; simpl; auto using eq_refl;
    (split; [reflexivity|]; split; [discriminate | reflexivity]).
Qed.

(** X14.  The visual-HTML strategy treats the articles one by one: the
    listings of a page are those of its articles in page order, so the
    listings of two runs of articles put together are the listings of the
    first followed by those of the second, and an article that is
    skipped removes nothing else.  Every listing carries the link of its
    article as URL, and an article without a link yields no listing. *)
Theorem html_articles_independent (a b : list Article) :
  _extract_from_html (a ++ b) = _extract_from_html a ++ _extract_from_html b
  /\ (List.length (_extract_from_html a) <= List.length a)%nat
  /\ (forall c, In c (_extract_from_html a) ->
        exists article link,
          In article a /\ link_href article = Some link /\ url c = Some link)
  /\ (Forall (fun article => link_href article = None) a ->
        _extract_from_html a = []).
Proof.
  split; [apply extract_from_html_app|]. split; [|split].
  - induction a as [|x a IH]; [simpl; lia|].
    rewrite extract_from_html_cons. destruct (parse_article x); simpl; lia.
  - induction a as [|x a IH]; [intros c []|].
    intros c. rewrite extract_from_html_cons.
    destruct (parse_article x) as [c0|] eqn:Ex.
    + intros [<-|Hc].
      * destruct (parse_article_fields _ _ Ex) as (Hu & Hl & _).
        destruct (link_href x) as [link|] eqn:El; [|congruence].
        exists x, link. split; [now left | now split].
      * destruct (IH c Hc) as (article & link & Hin & Hl & Hu).
        exists article, link. split; [now right | now split].
    + intros Hc. destruct (IH c Hc) as (article & link & Hin & Hl & Hu).
      exists article, link. split; [now right | now split].
  - induction 1 as [|x a Hx _ IH]; [reflexivity|].
    rewrite extract_from_html_cons. unfold parse_article. now rewrite Hx.
Qed.

Lemma make_car_fields (title : pyval) (price_val : Q) (currency : pyval)
  (year : option Z) (mileage : option string) (fuel link : pyval) (c : Car) :
  make_car title price_val currency year mileage fuel link = Listing c ->
  preco c = (format_0f (preco_numerico c) ++ " " ++ moeda c)%string
  /\ PStr (moeda c) = currency
  /\ PStr (titulo c) = title.
Proof.
  unfold make_car. intros Hc.
  destruct title; try discriminate; destruct currency; try discriminate.
  simpl in Hc. step_into Hc. injection Hc as <-. simpl. auto.
Qed.

(** X15.  In every listing, from either strategy, the display price is
    the numeric price printed without decimals, a space, and the
    currency code of the listing. *)
Theorem display_price_consistent :
  (forall (node : pyval) (c : Car),
      _parse_node_data node = Listing c ->
      preco c = (format_0f (preco_numerico c) ++ " " ++ moeda c)%string)
  /\ (forall (articles : list Article) (c : Car),
        In c (_extract_from_html articles) ->
        preco c = (format_0f (preco_numerico c) ++ " " ++ moeda c)%string).
Proof.
  split.
  - intros node c. unfold _parse_node_data.
    destruct (node_fields node) as [[[[[title link] price_val] currency] [[year mileage] fuel]]|];
      [|discriminate].
    intros Hc. now apply make_car_fields in Hc.
  - intros articles c Hc. apply extract_from_html_in in Hc.
    destruct Hc as (article & _ & Hp). now apply parse_article_fields in Hp.
Qed.

(** X16.  The structured-data strategy reads a price in exactly two
    shapes: a dictionary whose [amount] is a dictionary, giving the
    [units] as amount and the [currencyCode], PLN when there is none; or a
    bare string that does not contain the word [amount], taken as the
    amount itself with the record's [currency], PLN when there is none.
    Any other price, a bare number included, gives nothing. *)
Theorem price_shapes (d : list (string * pyval)) (amount currency : pyval) :
  price_fields (PDict d) = Some (amount, currency) <->
  (exists price a,
      dict_get "price" d = Some (PDict price)
      /\ dict_get "amount" price = Some (PDict a)
      /\ amount = match dict_get "units" a with Some u => u | None => PNone end
      /\ currency = match dict_get "currencyCode" a with
                    | Some code => code
                    | None => PStr "PLN"
                    end)
  \/ (exists s,
        dict_get "price" d = Some (PStr s)
        /\ str_in "amount" s = false
        /\ amount = PStr s
        /\ currency = match dict_get "currency" d with
                      | Some code => code
                      | None => PStr "PLN"
                      end).
Proof.
  unfold price_fields. simpl get_default.
  destruct (dict_get "price" d) as [price_obj|] eqn:Ep.
  - destruct price_obj as [| b | z | q | s | l | price]; simpl.
    + split; [discriminate|]. intros [(p & a & E & _)|(s & E & _)]; discriminate.
    + split; [discriminate|]. intros [(p & a & E & _)|(s & E & _)]; discriminate.
    + split; [discriminate|]. intros [(p & a & E & _)|(s & E & _)]; discriminate.
    + split; [discriminate|]. intros [(p & a & E & _)|(s & E & _)]; discriminate.
    + destruct (str_in "amount" s) eqn:Es; simpl.
      * split; [discriminate|].
        intros [(p & a & E & _)|(s' & E & Es' & _)]; [discriminate|].
        injection E as <-. congruence.
      * split.
        -- intros E. injection E as <- <-. right. now exists s.
        -- intros [(p & a & E & _)|(s' & E & _ & -> & ->)]; [discriminate|].
           now injection E as <-.
    + split.
      * destruct (existsb (fun v => eq_str v "amount") l); discriminate.
      * intros [(p & a & E & _)|(s & E & _)]; discriminate.
    + unfold dict_mem. destruct (dict_get "amount" price) as [a|] eqn:Ea.
      * destruct a as [| b | z | q | s | l | a]; simpl;
          try (split; [discriminate|];
               intros [(p & a' & E & Ea' & _)|(s' & E & _)];
               [injection E as <-; congruence | discriminate]).
        split.
        -- intros E. injection E as <- <-. left. now exists price, a.
        -- intros [(p & a' & E & Ea' & -> & ->)|(s' & E & _)]; [|discriminate].
           injection E as <-. rewrite Ea in Ea'. now injection Ea' as <-.
      * simpl. split; [discriminate|].
        intros [(p & a' & E & Ea' & _)|(s' & E & _)]; [|discriminate].
        injection E as <-. congruence.
  - simpl. split; [discriminate|].
    intros [(p & a & E & _)|(s & E & _)]; discriminate.
Qed.

(** X17.  A record yields no listing when its amount is falsy: units that
    are missing, null, zero, false or an empty string, or a bare price
    that is an empty string. *)
Theorem falsy_amount_rejected (node amount currency : pyval) :
  price_fields node = Some (amount, currency) ->
  truthy amount = false ->
  _parse_node_data node = Rejected.
Proof.
  intros Hp Ht. unfold _parse_node_data, node_fields. rewrite Hp. simpl fst.
  unfold price_value. rewrite Ht.
  destruct (get_default node "title" PNone); [|reflexivity].
  destruct (get_default node "url" PNone); reflexivity.
Qed.

End ExtractionShapes.

(* ===================================================================== *)
(** * Properties of the payload traversal and of the pagination *)
(* ===================================================================== *)

Section TraversalFacts.
Import Py car otomoto_scraper next_data.

(** Induction on a value with its elements and entries. *)
Lemma pyval_nested_ind (P : pyval -> Prop) :
  P PNone ->
  (forall b, P (PBool b)) ->
  (forall z, P (PInt z)) ->
  (forall q, P (PFloat q)) ->
  (forall s, P (PStr s)) ->
  (forall l, Forall P l -> P (PList l)) ->
  (forall d, Forall (fun kv => P (snd kv)) d -> P (PDict d)) ->
  forall v, P v.
Proof.
  intros HNone HBool HInt HFloat HStr HList HDict.
  fix IH 1. intros [| b | z | q | s | l | d].
  - exact HNone.
  - apply HBool.
  - apply HInt.
  - apply HFloat.
  - apply HStr.
  - apply HList. induction l as [|x l IHl]; constructor; [apply IH | exact IHl].
  - apply HDict. induction d as [|[k x] d IHd]; constructor; [apply IH | exact IHd].
Qed.

Lemma find_items_dict (d : list (string * pyval)) (item : pyval) :
  In item (find_items (PDict d)) <->
  In item (direct_items d)
  \/ exists k v, In (k, v) d /\ In item (find_items v).
Proof.
  simpl. rewrite in_app_iff. apply or_iff_compat_l.
  induction d as [|[k0 v0] d IH].
  - split; [intros [] | intros (k & v & [] & _)].
  - rewrite in_app_iff, IH. split.
    + intros [Hin|(k & v & Hkv & Hin)].
      * exists k0, v0. split; [now left|].
        destruct (is_dict_or_list v0); [exact Hin | contradiction].
      * exists k, v. split; [now right | exact Hin].
    + intros (k & v & [E|Hkv] & Hin).
      * injection E as -> ->. left.
        destruct v as [| | | | | l | d']; try contradiction; exact Hin.
      * right. now exists k, v.
Qed.

Lemma find_items_list (l : list pyval) (item : pyval) :
  In item (find_items (PList l)) <->
  exists v, In v l /\ In item (find_items v).
Proof.
  simpl. induction l as [|v0 l IH].
  - split; [intros [] | intros (v & [] & _)].
  - rewrite in_app_iff, IH. split.
    + intros [Hin|(v & Hv & Hin)]; [exists v0 | exists v]; split; auto;
        [now left | now right].
    + intros (v & [->|Hv] & Hin); [now left | right; now exists v].
Qed.

(** What the generator yields: the direct items of every dictionary of
    the payload, whatever its depth. *)
Lemma find_items_inside (obj item : pyval) :
  In item (find_items obj) <->
  exists d, inside (PDict d) obj /\ In item (direct_items d).
Proof.
  induction obj as [| b | z | q | s | l IH | d IH] using pyval_nested_ind;
    try (split; [intros [] | intros (d & Hd & _); inversion Hd]).
  - rewrite find_items_list. rewrite Forall_forall in IH. split.
    + intros (v & Hv & Hin). apply (IH v Hv) in Hin.
      destruct Hin as (d & Hd & Hin). exists d. split; [|exact Hin].
      now apply (inside_list _ v).
    + intros (d & Hd & Hin). inversion Hd as [|? ? ? Hkv Hv|v ? Hv Hd']; subst.
      exists v. split; [exact Hv|]. apply (IH v Hv). now exists d.
  - rewrite find_items_dict. rewrite Forall_forall in IH. split.
    + intros [Hin|(k & v & Hkv & Hin)].
      * exists d. split; [constructor | exact Hin].
      * apply (IH (k, v) Hkv) in Hin. destruct Hin as (d' & Hd' & Hin).
        exists d'. split; [|exact Hin]. now apply (inside_dict _ k v).
    + intros (d' & Hd' & Hin).
      inversion Hd' as [|k v ? Hkv Hv|]; subst.
      * now left.
      * right. exists k, v. split; [exact Hkv|].
        apply (IH (k, v) Hkv). now exists d'.
Qed.

Lemma edge_nodes_in (edges : list pyval) (item : pyval) :
  In item (edge_nodes edges) <->
  exists edge, In (PDict edge) edges /\ dict_get "node" edge = Some item.
Proof.
  induction edges as [|e edges IH]; simpl.
  - split; [intros [] | intros (edge & [] & _)].
  - destruct e as [| | | | | |edge0];
      try (rewrite IH; split;
           [intros (edge & Hin & Hn); exists edge; split; [now right | exact Hn]
           |intros (edge & [E|Hin] & Hn); [discriminate | now exists edge]]).
    destruct (dict_get "node" edge0) as [node|] eqn:En; simpl; rewrite IH.
    + split.
      * intros [<-|(edge & Hin & Hn)]; [exists edge0 | exists edge]; split; auto.
      * intros (edge & [E|Hin] & Hn).
        -- injection E as <-. left. congruence.
        -- right. now exists edge.
    + split.
      * intros (edge & Hin & Hn). exists edge. split; [now right | exact Hn].
      * intros (edge & [E|Hin] & Hn); [|now exists edge].
        injection E as <-. congruence.
Qed.

(** X18.  The traversal of the embedded payload yields exactly this: for
    every dictionary of the payload, at any depth, that has a list under
    [edges], the [node] of each element of that list that is a dictionary
    with a [node]; and for every dictionary that has no list under
    [edges] but has one under [list], each element of that list. *)
Theorem find_items_characterized (obj item : pyval) :
  In item (find_items obj) <->
  exists d,
    inside (PDict d) obj
    /\ ((exists edges edge,
            dict_get "edges" d = Some (PList edges)
            /\ In (PDict edge) edges
            /\ dict_get "node" edge = Some item)
        \/ ((forall edges, dict_get "edges" d <> Some (PList edges))
            /\ exists items,
                 dict_get "list" d = Some (PList items) /\ In item items)).
Proof.
  rewrite find_items_inside. split; intros (d & Hd & Hin); exists d;
    (split; [exact Hd|]).
  - unfold direct_items in Hin.
    destruct (dict_get "edges" d) as [[| | | | |edges|]|] eqn:Ee;
      try (right; split; [congruence|];
           destruct (dict_get "list" d) as [[| | | | |items|]|];
           try contradiction; now exists items).
    left. apply edge_nodes_in in Hin. destruct Hin as (edge & He & Hn).
    now exists edges, edge.
  - unfold direct_items.
    destruct Hin as [(edges & edge & -> & He & Hn)|(Hno & items & Hl & Hin)].
    + apply edge_nodes_in. now exists edge.
    + destruct (dict_get "edges" d) as [[| | | | |edges|]|] eqn:Ee;
        try (now rewrite Hl).
      now elim (Hno edges).
Qed.

End TraversalFacts.

Section PaginationFacts.
Import Py car otomoto_scraper next_data.
Context `{Builtins}.
Variable use_selenium : bool.
Variable session_get : string -> option Soup.
Variable driver_get : string -> option Soup.

Lemma parse_candidates_in (items : list pyval) (cars : list Car) (c : Car) :
  parse_candidates items = Some cars ->
  (In c cars <-> exists item, In item items /\ _parse_node_data item = Listing c).
Proof.
  revert cars. induction items as [|item items IH]; simpl; intros cars.
  - intros E. injection E as <-. split; [intros [] | intros (i & [] & _)].
  - destruct (_parse_node_data item) as [c0| |] eqn:Ep; [| |discriminate].
    + destruct (parse_candidates items) as [rest|]; [|discriminate].
      intros E. injection E as <-. simpl. rewrite (IH rest eq_refl). split.
      * intros [<-|(i & Hi & Hp)]; [exists item | exists i]; split; auto.
      * intros (i & [<-|Hi] & Hp); [left; congruence | right; now exists i].
    + intros E. rewrite (IH cars E). split.
      * intros (i & Hi & Hp). exists i. split; [now right | exact Hp].
      * intros (i & [<-|Hi] & Hp); [congruence | now exists i].
Qed.

Lemma parse_candidates_total (items : list pyval) :
  Forall (fun item => _parse_node_data item <> Untyped) items ->
  exists cars, parse_candidates items = Some cars.
Proof.
  induction 1 as [|item items Hitem _ (rest & IH)]; simpl; [now exists []|].
  destruct (_parse_node_data item) as [c| |]; [| |congruence]; rewrite IH; eauto.
Qed.

(** X19.  A page without the script element, or whose script is not
    JSON, yields no listing from the structured-data strategy.
    Otherwise the listings are those parsed from the records the
    traversal yields that are dictionaries with the keys [title] and
    [price] and one of [url] and [id]; there is a result whenever no
    such record leaves the declared types. *)
Theorem next_data_listings (soup : Soup) :
  (script soup = None \/ script soup = Some None ->
     _extract_next_data soup = Some [])
  /\ (forall data cars c,
        script soup = Some (Some data) ->
        _extract_next_data soup = Some cars ->
        (In c cars <->
         exists d,
           In (PDict d) (find_items data)
           /\ dict_mem "title" d = true
           /\ dict_mem "price" d = true
           /\ (dict_mem "url" d = true \/ dict_mem "id" d = true)
           /\ _parse_node_data (PDict d) = Listing c))
  /\ (forall data,
        script soup = Some (Some data) ->
        (forall item, In item (find_items data) -> is_candidate item = true ->
                      _parse_node_data item <> Untyped) ->
        exists cars, _extract_next_data soup = Some cars).
Proof.
  unfold _extract_next_data. split; [|split].
  - intros [-> | ->]; reflexivity.
  - intros data cars c -> Hcars.
    rewrite (parse_candidates_in _ _ c Hcars). split.
    + intros (item & Hin & Hp). apply filter_In in Hin. destruct Hin as [Hin Hc].
      destruct item as [| | | | | |d]; try discriminate Hc.
      simpl in Hc. apply andb_prop in Hc. destruct Hc as [Hc Hid].
      apply andb_prop in Hc. destruct Hc as [Ht Hpr].
      apply orb_prop in Hid. now exists d.
    + intros (d & Hin & Ht & Hpr & Hid & Hp). exists (PDict d).
      split; [|exact Hp]. apply filter_In. split; [exact Hin|].
      simpl. rewrite Ht, Hpr. simpl. destruct Hid as [-> | ->];
        now rewrite ?orb_true_r.
  - intros data -> Htyped. apply parse_candidates_total.
    apply Forall_forall. intros item Hin. apply filter_In in Hin.
    now apply Htyped.
Qed.

Local Abbreviation fetch := (fetch_page use_selenium session_get driver_get).
Local Abbreviation search := (search_cars use_selenium session_get driver_get).

(** The loop, unrolled: the pages fetched, their addresses, and when it
    stops. *)
Lemma pages_from_spec (params : CarSearchParams) (remaining : nat) :
  forall (page : Z) (urls : list string) (all : list Car),
  pages_from use_selenium session_get driver_get params page remaining
  = Some (urls, all) ->
  exists pages : list (list Car),
    Forall2 (fun url p => fetch url = Some p) urls pages
    /\ urls = map (fun i => _build_url params (page + Z.of_nat i))
                  (seq 0 (List.length urls))
    /\ (List.length urls <= remaining)%nat
    /\ ((0 < remaining)%nat -> urls <> [])
    /\ (forall i, (S i < List.length pages)%nat ->
                  (10 <= List.length (nth i pages []))%nat)
    /\ ((List.length urls < remaining)%nat ->
        (List.length (List.last pages []) < 10)%nat)
    /\ all = List.concat pages.
Proof.
  induction remaining as [|remaining IH]; intros page urls all; simpl.
  - intros E. injection E as <- <-. exists []. simpl.
    repeat split; try constructor; lia.
  - destruct (fetch (_build_url params page)) as [page_cars|] eqn:Ef; [|discriminate].
    destruct page_cars as [|c0 page_cars'] eqn:Ec.
    + intros E. injection E as <- <-. exists [[]]. simpl.
      rewrite Z.add_0_r. repeat split; try (constructor; [exact Ef | constructor]);
        try discriminate; lia.
    + rewrite <- Ec in *. clear Ec c0 page_cars'.
      destruct (List.length page_cars <? 10)%nat eqn:Elen.
      * intros E. injection E as <- <-. exists [page_cars]. simpl.
        rewrite Z.add_0_r, app_nil_r. apply Nat.ltb_lt in Elen.
        repeat split; try (constructor; [exact Ef | constructor]);
          try discriminate; lia.
      * destruct (pages_from use_selenium session_get driver_get params
                    (page + 1) remaining) as [[urls' all']|] eqn:Er; [|discriminate].
        intros E. injection E as <- <-. simpl fst; simpl snd.
        destruct (IH _ _ _ Er) as (pages & Hf & Hu & Hlen & Hne & Hfull & Hlast & Hall).
        apply Nat.ltb_ge in Elen.
        exists (page_cars :: pages). simpl List.length.
        split; [now constructor|]. split.
        { simpl. rewrite Z.add_0_r. f_equal. rewrite Hu at 1.
          rewrite <- seq_shift, map_map. apply map_ext. intros i.
          f_equal. lia. }
        split; [lia|]. split; [discriminate|]. split.
        { intros [|i] Hi; simpl; [exact Elen|]. apply Hfull. simpl in Hi. lia. }
        split.
        { intros Hlt. pose proof (Forall2_length Hf) as Hl.
          destruct pages as [|p pages'].
          - simpl in Hl. destruct remaining; [lia|]. elim Hne; [lia|].
            now destruct urls'.
          - change (List.last (page_cars :: p :: pages') [])
              with (List.last (p :: pages') []). apply Hlast. lia. }
        simpl. now rewrite Hall.
Qed.

(** X20.  A search requests the pages 1, 2, ... in turn, never more than
    [max_pages] of them and none at all when [max_pages] is not
    positive.  Every page requested before the last one brought at least
    ten listings, and when the search stops before the cap the last page
    brought fewer than ten, possibly none.  The result is the
    deduplication of the listings of the requested pages, in page
    order. *)
Theorem search_pagination
  (params : CarSearchParams) (max_pages : Z) (urls : list string) (cars : list Car) :
  search params max_pages = Some (urls, cars) ->
  exists pages : list (list Car),
    Forall2 (fun url p => fetch url = Some p) urls pages
    /\ urls = map (fun i => _build_url params (Z.of_nat i))
                  (seq 1 (List.length urls))
    /\ (Z.of_nat (List.length urls) <= Z.max 0 max_pages)%Z
    /\ ((0 < max_pages)%Z -> urls <> [])
    /\ (forall i, (S i < List.length pages)%nat ->
                  (10 <= List.length (nth i pages []))%nat)
    /\ ((Z.of_nat (List.length urls) < max_pages)%Z ->
        (List.length (List.last pages []) < 10)%nat)
    /\ cars = _deduplicate (List.concat pages).
Proof.
  unfold search_cars.
  destruct (pages_from use_selenium session_get driver_get params 1
              (Z.to_nat max_pages)) as [[urls' all]|] eqn:Ep; [|discriminate].
  intros E. injection E as <- <-.
  destruct (pages_from_spec _ _ _ _ _ Ep)
    as (pages & Hf & Hu & Hlen & Hne & Hfull & Hlast & Hall).
  exists pages. split; [exact Hf|]. split.
  { rewrite Hu at 1. rewrite <- seq_shift, map_map. apply map_ext. intros i.
    f_equal. lia. }
  split; [lia|]. split; [intros Hp; apply Hne; lia|].
  split; [exact Hfull|]. split; [intros Hp; apply Hlast; lia|].
  now rewrite Hall.
Qed.

Lemma pages_from_total (params : CarSearchParams) (remaining : nat) (page : Z) :
  (forall url, fetch url <> None) ->
  exists r, pages_from use_selenium session_get driver_get params page remaining
            = Some r.
Proof.
  intros Hf. revert page. induction remaining as [|remaining IH]; intros page; simpl.
  - eauto.
  - destruct (fetch (_build_url params page)) as [page_cars|] eqn:Ef;
      [|now elim (Hf _ Ef)].
    destruct page_cars; [eauto|].
    destruct (_ <? 10)%nat; [eauto|].
    destruct (IH (page + 1)%Z) as (r & ->). eauto.
Qed.

(** The listings returned are the deduplication of those of the pages
    requested. *)
Lemma search_cars_pages
  (params : CarSearchParams) (max_pages : Z) (urls : list string) (cars : list Car) :
  search params max_pages = Some (urls, cars) ->
  exists pages : list (list Car),
    Forall2 (fun url p => fetch url = Some p) urls pages
    /\ cars = _deduplicate (List.concat pages).
Proof.
  unfold search_cars.
  destruct (pages_from use_selenium session_get driver_get params 1
              (Z.to_nat max_pages)) as [[urls' all]|] eqn:Ep; [|discriminate].
  intros E. injection E as <- <-.
  destruct (pages_from_spec _ _ _ _ _ Ep) as (pages & Hf & _ & _ & _ & _ & _ & Hall).
  exists pages. split; [exact Hf | now rewrite Hall].
Qed.

(** X21.  A search returns listings with pairwise distinct keys, each of
    them found on one of the requested pages, and every key found on a
    requested page is the key of a returned listing.  A first page
    without listings ends the search with an empty result after that
    single request.  The search has a result whenever every fetch stays
    within the declared types. *)
Theorem search_results (params : CarSearchParams) (max_pages : Z) :
  (forall urls cars,
      search params max_pages = Some (urls, cars) ->
      NoDup (map car_key cars)
      /\ (forall c, In c cars ->
            exists url p, In url urls /\ fetch url = Some p /\ In c p)
      /\ (forall url p c, In url urls -> fetch url = Some p -> In c p ->
            exists c', In c' cars /\ car_key c' = car_key c))
  /\ ((0 < max_pages)%Z -> fetch (_build_url params 1) = Some [] ->
        search params max_pages = Some ([_build_url params 1], []))
  /\ ((forall url, fetch url <> None) ->
        exists r, search params max_pages = Some r).
Proof.
  split; [|split].
  - intros urls cars Hs.
    destruct (search_cars_pages _ _ _ _ Hs) as (pages & Hf & ->).
    assert (Hpages : forall c, In c (List.concat pages) <->
              exists url p, In url urls /\ fetch url = Some p /\ In c p).
    { intros c. rewrite in_concat. clear Hs. split.
      - intros (p & Hp & Hc). induction Hf as [|url p0 urls pages Hu _ IH];
          [contradiction|].
        destruct Hp as [->|Hp].
        + exists url, p. split; [now left | now split].
        + destruct (IH Hp) as (url' & p' & Hin & Hu' & Hc').
          exists url', p'. split; [now right | now split].
      - intros (url & p & Hin & Hu & Hc). exists p. split; [|exact Hc].
        induction Hf as [|url0 p0 urls pages Hu0 _ IH]; [contradiction|].
        destruct Hin as [->|Hin]; [left; congruence | right; now apply IH]. }
    split; [apply deduplicate_keys_nodup|]. split.
    + intros c Hc. apply Hpages. apply deduplicate_in in Hc.
      apply last_with_key_split in Hc. destruct Hc as (before & after & E & _).
      rewrite E. apply in_or_app. right. now left.
    + intros url p c Hin Hu Hc.
      assert (Hall : In c (List.concat pages)) by (apply Hpages; now exists url, p).
      destruct (in_last_with_key _ _ Hall) as (c' & Hc').
      exists c'. pose proof (last_with_key_key _ _ _ Hc') as Hk. split; [|exact Hk].
      apply deduplicate_in. now rewrite Hk.
  - intros Hp Hf. unfold search_cars.
    destruct (Z.to_nat max_pages) as [|n] eqn:En; [lia|].
    simpl. now rewrite Hf.
  - intros Hf. unfold search_cars.
    destruct (pages_from_total params (Z.to_nat max_pages) 1 Hf) as (r & ->). eauto.
Qed.

End PaginationFacts.

(* ===================================================================== *)
(** * Properties of the bulk run *)
(* ===================================================================== *)

Section BulkFacts.
Import Py car brand_model_validator full_extraction.
Context `{Builtins}.
Variable csv_exists : string -> bool.
Variable search : nat -> CarSearchParams -> Z -> outcome.

Local Abbreviation step := (process_model csv_exists search).
Local Abbreviation run_pairs := (process_pairs csv_exists search).
Local Abbreviation run := (run_full_extraction csv_exists search).

(** ** The progress set *)

Lemma in_done_app (b m : string) (d1 d2 : list (list pyval)) :
  in_done b m (d1 ++ d2) = in_done b m d1 || in_done b m d2.
Proof. apply existsb_app. Qed.

Lemma is_pair_self (b m : string) : is_pair b m (pair_tuple b m) = true.
Proof. simpl. now rewrite !String.eqb_refl. Qed.

Lemma in_done_add_same (b m : string) (done : list (list pyval)) :
  in_done b m (add_done b m done) = true.
Proof.
  unfold add_done. destruct (in_done b m done) eqn:E; [exact E|].
  rewrite in_done_app. simpl. rewrite !String.eqb_refl. now rewrite orb_true_r.
Qed.

Lemma in_done_add_mono (b m b' m' : string) (done : list (list pyval)) :
  in_done b m done = true -> in_done b m (add_done b' m' done) = true.
Proof.
  intros E. unfold add_done. destruct (in_done b' m' done); [exact E|].
  rewrite in_done_app, E. reflexivity.
Qed.

Lemma add_done_incl (b m : string) (done : list (list pyval)) (t : list pyval) :
  In t done -> In t (add_done b m done).
Proof.
  intros Ht. unfold add_done. destruct (in_done b m done); [exact Ht|].
  apply in_or_app. now left.
Qed.

Lemma add_done_hashable (b m : string) (done : list (list pyval)) :
  forallb (forallb hashable) done = true ->
  forallb (forallb hashable) (add_done b m done) = true.
Proof.
  intros E. unfold add_done. destruct (in_done b m done); [exact E|].
  rewrite forallb_app, E. reflexivity.
Qed.

Lemma load_progress_hashable (file : option (option pyval)) :
  forallb (forallb hashable) (_load_progress file) = true.
Proof.
  unfold _load_progress.
  destruct file as [[data|]|]; try reflexivity.
  destruct (get_default data "done" (PList [])) as [entries|]; [|reflexivity].
  destruct (elements entries) as [es|]; [|reflexivity].
  destruct (tuples_of es) as [done|]; [|reflexivity].
  destruct (forallb (forallb hashable) done) eqn:E; [exact E | reflexivity].
Qed.

Lemma tuples_of_lists (done : list (list pyval)) :
  tuples_of (map PList done) = Some done.
Proof.
  induction done as [|t done IH]; simpl; [reflexivity|]. now rewrite IH.
Qed.

Lemma load_progress_document (done : list (list pyval)) :
  forallb (forallb hashable) done = true ->
  _load_progress (Some (Some (progress_document done))) = done.
Proof.
  intros E. unfold _load_progress, progress_document. simpl.
  now rewrite tuples_of_lists, E.
Qed.

(** ** One iteration *)

(** What an iteration may do to the state. *)
Lemma step_cases (b : string) (model : ModelEntry) (w : World) :
  let m := value model in
  let path := csv_path_of b m in
  let params := mkCarSearchParams (Some b) (Some m) None None None None None None in
  (* skipped: already done *)
  (in_done b m (already_done w) = true
   /\ step b model w
      = Continue (mkWorld (already_done w) (count_skipped (stats w)) (csv_files w)
                          (progress_file w) (searched w)))
  \/ (* skipped: the file exists *)
  (in_done b m (already_done w) = false
   /\ path_exists csv_exists w path = true
   /\ step b model w
      = Continue (mkWorld (add_done b m (already_done w)) (count_skipped (stats w))
                          (csv_files w) (progress_file w) (searched w)))
  \/ (* searched *)
  (in_done b m (already_done w) = false
   /\ path_exists csv_exists w path = false
   /\ ((exists results,
          search (List.length (searched w)) params FULL_EXTRACTION_MAX_PAGES
          = Found results
          /\ step b model w
             = Continue
                 (_save_progress
                    (mkWorld (add_done b m (already_done w))
                       (match results with
                        | [] => count_empty (count_processed (stats w))
                        | _ => count_with_results (count_processed (stats w))
                        end)
                       (match results with
                        | [] => csv_files w
                        | _ => dict_set path results (csv_files w)
                        end)
                       (progress_file w) (searched w ++ [(b, m)]))))
       \/ (search (List.length (searched w)) params FULL_EXTRACTION_MAX_PAGES
           = Raised
           /\ step b model w
              = Continue (mkWorld (already_done w) (count_error (stats w))
                                  (csv_files w) (progress_file w)
                                  (searched w ++ [(b, m)])))
       \/ (search (List.length (searched w)) params FULL_EXTRACTION_MAX_PAGES
           = Interrupted
           /\ step b model w
              = Return (_save_progress
                          (mkWorld (already_done w) (stats w) (csv_files w)
                                   (progress_file w) (searched w ++ [(b, m)])))))).
Proof.
  intros m path params. unfold process_model. fold m. fold path. fold params.
  destruct (in_done b m (already_done w)); [now left|].
  destruct (path_exists csv_exists w path); [right; left; now repeat split|].
  right; right. split; [reflexivity|]. split; [reflexivity|].
  destruct (search _ params _) as [results| |].
  - left. exists results. split; [reflexivity|]. now destruct results.
  - right; left. now split.
  - right; right. now split.
Qed.


Lemma dict_set_in {V : Type} (k k' : string) (v v' : V) (d : list (string * V)) :
  In (k', v') (dict_set k v d) -> (k' = k /\ v' = v) \/ In (k', v') d.
Proof.
  induction d as [|[k0 v0] d IH]; simpl.
  - intros [E|[]]. left. split; congruence.
  - destruct (String.eqb_spec k0 k) as [->|Hne]; simpl.
    + intros [E|Hin]; [left; split; congruence | right; now right].
    + intros [E|Hin]; [right; now left|].
      destruct (IH Hin) as [E|Hin']; [now left | right; now right].
Qed.

Lemma nth_error_lt {A : Type} (l : list A) (i : nat) (x : A) :
  nth_error l i = Some x -> (i < List.length l)%nat.
Proof. intros E. apply nth_error_Some. congruence. Qed.

(** Induction along the iterations of the two loops. *)
Lemma run_pairs_ind (P : list (string * ModelEntry) -> World -> flow -> Prop) :
  (forall w, P [] w (Continue w)) ->
  (forall b model rest w w1 f,
      step b model w = Continue w1 -> run_pairs rest w1 = f ->
      P rest w1 f -> P ((b, model) :: rest) w f) ->
  (forall b model rest w w1,
      step b model w = Return w1 -> P ((b, model) :: rest) w (Return w1)) ->
  forall pairs w, P pairs w (run_pairs pairs w).
Proof.
  intros Hnil Hcont Hret. induction pairs as [|[b model] rest IH]; intros w; simpl.
  - apply Hnil.
  - destruct (step b model w) as [w1|w1] eqn:Es.
    + apply (Hcont b model rest w w1); [exact Es | reflexivity | apply IH].
    + now apply Hret.
Qed.

Lemma process_brands_pairs (brands : Brands) (w : World) :
  process_brands csv_exists search brands w = run_pairs (catalog_pairs brands) w.
Proof.
  assert (Hm : forall b models rest w,
    run_pairs (map (fun m => (b, m)) models ++ rest) w
    = match process_models csv_exists search b models w with
      | Continue w' => run_pairs rest w'
      | Return w' => Return w'
      end).
  { intros b models rest. induction models as [|m models IH]; intros w0; simpl.
    - reflexivity.
    - destruct (step b m w0); [apply IH | reflexivity]. }
  revert w. induction brands as [|[key data] brands IH]; intros w; simpl.
  - reflexivity.
  - rewrite Hm. destruct (process_models _ _ _ _ _); [apply IH | reflexivity].
Qed.

Lemma catalog_pairs_length (brands : Brands) :
  List.length (catalog_pairs brands) = total_models brands.
Proof.
  unfold catalog_pairs, total_models.
  induction brands as [|[key data] brands IH]; simpl; [reflexivity|].
  now rewrite length_app, length_map, IH.
Qed.

(** ** What the loops keep *)

(** The progress set only grows, and stays a set of hashable tuples. *)
Lemma run_pairs_done (pairs : list (string * ModelEntry)) (w : World) :
  let w' := world_of (run_pairs pairs w) in
  (forall t, In t (already_done w) -> In t (already_done w'))
  /\ (forall b m, in_done b m (already_done w) = true ->
                  in_done b m (already_done w') = true)
  /\ (forall b m, in_done b m (already_done w') = false ->
                  in_done b m (already_done w) = false)
  /\ (forallb (forallb hashable) (already_done w) = true ->
      forallb (forallb hashable) (already_done w') = true).
Proof.
  cbv zeta.
  assert (Hcontra : forall (done done' : list (list pyval)),
    (forall b m, in_done b m done = true -> in_done b m done' = true) ->
    forall b m, in_done b m done' = false -> in_done b m done = false).
  { intros done done' Hmono b m E. destruct (in_done b m done) eqn:E'; [|reflexivity].
    apply Hmono in E'. congruence. }
  apply (run_pairs_ind (fun _ w f =>
    (forall t, In t (already_done w) -> In t (already_done (world_of f)))
    /\ (forall b m, in_done b m (already_done w) = true ->
                    in_done b m (already_done (world_of f)) = true)
    /\ (forall b m, in_done b m (already_done (world_of f)) = false ->
                    in_done b m (already_done w) = false)
    /\ (forallb (forallb hashable) (already_done w) = true ->
        forallb (forallb hashable) (already_done (world_of f)) = true))).
  - intros w0. simpl. auto.
  - intros b model rest w0 w1 f Es _ (IH1 & IH2 & _ & IH4).
    assert (Hstep :
      (forall t, In t (already_done w0) -> In t (already_done w1))
      /\ (forall b' m', in_done b' m' (already_done w0) = true ->
                        in_done b' m' (already_done w1) = true)
      /\ (forallb (forallb hashable) (already_done w0) = true ->
          forallb (forallb hashable) (already_done w1) = true)).
    { destruct (step_cases b model w0)
        as [(_ & E)|[(_ & _ & E)|(_ & _ & [(r & _ & E)|[(_ & E)|(_ & E)]])]];
        rewrite E in Es; try discriminate Es; injection Es as <-; simpl;
        auto using add_done_incl, in_done_add_mono, add_done_hashable. }
    destruct Hstep as (S1 & S2 & S4).
    assert (Hmono : forall b' m', in_done b' m' (already_done w0) = true ->
                       in_done b' m' (already_done (world_of f)) = true) by auto.
    repeat split; auto. exact (Hcontra _ _ Hmono).
  - intros b model rest w0 w1 Es.
    destruct (step_cases b model w0)
      as [(_ & E)|[(_ & _ & E)|(_ & _ & [(r & _ & E)|[(_ & E)|(_ & E)]])]];
      rewrite E in Es; try discriminate Es; injection Es as <-; simpl; auto.
Qed.

(** The searches made: each for a pair of the catalog that was neither in
    the progress set nor had its file. *)
Lemma run_pairs_searched (pairs : list (string * ModelEntry)) (w : World) :
  exists new,
    searched (world_of (run_pairs pairs w)) = searched w ++ new
    /\ Forall (fun bm =>
                 in_done (fst bm) (snd bm) (already_done w) = false
                 /\ csv_exists (csv_path_of (fst bm) (snd bm)) = false
                 /\ exists model, In (fst bm, model) pairs /\ value model = snd bm)
              new.
Proof.
  apply (run_pairs_ind (fun pairs w f =>
    exists new,
      searched (world_of f) = searched w ++ new
      /\ Forall (fun bm =>
                   in_done (fst bm) (snd bm) (already_done w) = false
                   /\ csv_exists (csv_path_of (fst bm) (snd bm)) = false
                   /\ exists model, In (fst bm, model) pairs /\ value model = snd bm)
                new)).
  - intros w0. exists []. simpl. now rewrite app_nil_r.
  - intros b model rest w0 w1 f Es Ef (new & Hs & Hnew).
    assert (Hlift : Forall (fun bm =>
                 in_done (fst bm) (snd bm) (already_done w0) = false
                 /\ csv_exists (csv_path_of (fst bm) (snd bm)) = false
                 /\ exists model0, In (fst bm, model0) ((b, model) :: rest)
                                   /\ value model0 = snd bm) new
              /\ exists head,
                   searched w1 = searched w0 ++ head
                   /\ (head = [] \/
                       (head = [(b, value model)]
                        /\ in_done b (value model) (already_done w0) = false
                        /\ path_exists csv_exists w0 (csv_path_of b (value model)) = false))).
    { assert (Hd : forall b' m', in_done b' m' (already_done w1) = false ->
                      in_done b' m' (already_done w0) = false).
      { pose proof (run_pairs_done [(b, model)] w0) as Hd. simpl in Hd.
        rewrite Es in Hd. simpl in Hd. apply Hd. }
      split.
      - eapply Forall_impl; [|exact Hnew]. intros [b' m'] (H1 & H2 & model0 & Hin & Hv).
        simpl in *. split; [now apply Hd|]. split; [exact H2|].
        exists model0. split; [now right | exact Hv].
      - destruct (step_cases b model w0)
          as [(_ & E)|[(_ & _ & E)|(Hnd & Hpe & [(r & _ & E)|[(_ & E)|(_ & E)]])]];
          rewrite E in Es; try discriminate Es; injection Es as <-; simpl;
          try (exists []; rewrite app_nil_r; split; [reflexivity | now left]);
          (exists [(b, value model)]; split; [reflexivity | right; now repeat split]). }
    destruct Hlift as (Hnew' & head & Hh & Hcase).
    exists (head ++ new). rewrite Hs, Hh, app_assoc. split; [reflexivity|].
    apply Forall_app. split; [|exact Hnew'].
    destruct Hcase as [->|(-> & Hnd & Hpe)]; [constructor|].
    constructor; [|constructor]. simpl. split; [exact Hnd|]. split.
    + unfold path_exists in Hpe. now apply orb_false_elim in Hpe.
    + exists model. split; [now left | reflexivity].
  - intros b model rest w0 w1 Es.
    destruct (step_cases b model w0)
      as [(_ & E)|[(_ & _ & E)|(Hnd & Hpe & [(r & _ & E)|[(_ & E)|(_ & E)]])]];
      rewrite E in Es; try discriminate Es; injection Es as <-; simpl.
    exists [(b, value model)]. split; [reflexivity|].
    constructor; [|constructor]. simpl. split; [exact Hnd|]. split.
    + unfold path_exists in Hpe. now apply orb_false_elim in Hpe.
    + exists model. split; [now left | reflexivity].
Qed.


(** The counters, against each other and against the searches made. *)
Lemma run_pairs_counters (pairs : list (string * ModelEntry)) (w : World) :
  let f := run_pairs pairs w in
  let s := stats w in
  let s' := stats (world_of f) in
  let n := List.length (searched w) in
  let n' := List.length (searched (world_of f)) in
  (processed s' + with_results s + empty s
   = processed s + with_results s' + empty s')%nat
  /\ match f with
     | Continue _ =>
         (n' + processed s + errors s = n + processed s' + errors s')%nat
         /\ (skipped s' + n' = skipped s + n + List.length pairs)%nat
     | Return _ =>
         (n' + processed s + errors s = n + processed s' + errors s' + 1)%nat
         /\ (skipped s' + n' <= skipped s + n + List.length pairs)%nat
     end.
Proof.
  cbv zeta.
  apply (run_pairs_ind (fun pairs w f =>
    (processed (stats (world_of f)) + with_results (stats w) + empty (stats w)
     = processed (stats w) + with_results (stats (world_of f))
       + empty (stats (world_of f)))%nat
    /\ match f with
       | Continue _ =>
           (List.length (searched (world_of f)) + processed (stats w) + errors (stats w)
            = List.length (searched w) + processed (stats (world_of f))
              + errors (stats (world_of f)))%nat
           /\ (skipped (stats (world_of f)) + List.length (searched (world_of f))
               = skipped (stats w) + List.length (searched w) + List.length pairs)%nat
       | Return _ =>
           (List.length (searched (world_of f)) + processed (stats w) + errors (stats w)
            = List.length (searched w) + processed (stats (world_of f))
              + errors (stats (world_of f)) + 1)%nat
           /\ (skipped (stats (world_of f)) + List.length (searched (world_of f))
               <= skipped (stats w) + List.length (searched w) + List.length pairs)%nat
       end)).
  - intros w0. simpl. lia.
  - intros b model rest w0 w1 f Es _ IH.
    destruct (step_cases b model w0)
      as [(_ & E)|[(_ & _ & E)|(_ & _ & [(r & _ & E)|[(_ & E)|(_ & E)]])]];
      rewrite E in Es; try discriminate Es; injection Es as <-;
      try destruct r; simpl in *; rewrite ?length_app in *; simpl in *;
      destruct f; simpl in *; lia.
  - intros b model rest w0 w1 Es.
    destruct (step_cases b model w0)
      as [(_ & E)|[(_ & _ & E)|(_ & _ & [(r & _ & E)|[(_ & E)|(_ & E)]])]];
      rewrite E in Es; try discriminate Es; injection Es as <-;
      simpl; rewrite ?length_app; simpl; lia.
Qed.

(** Without an interruption the loops run to the end. *)
Lemma run_pairs_continue (pairs : list (string * ModelEntry)) (w : World) :
  (forall n params pages, search n params pages <> Interrupted) ->
  exists w', run_pairs pairs w = Continue w'.
Proof.
  intros Hnever.
  apply (run_pairs_ind (fun _ _ f => exists w', f = Continue w')).
  - intros w0. now exists w0.
  - intros; assumption.
  - intros b model rest w0 w1 Es.
    destruct (step_cases b model w0)
      as [(_ & E)|[(_ & _ & E)|(_ & _ & [(r & _ & E)|[(_ & E)|(Ei & E)]])]];
      rewrite E in Es; try discriminate Es.
    now apply Hnever in Ei.
Qed.

(** A search that found its answer leaves its pair in the progress set. *)
Lemma run_pairs_found (pairs : list (string * ModelEntry)) (w : World) :
  forall i b m results,
    (List.length (searched w) <= i)%nat ->
    nth_error (searched (world_of (run_pairs pairs w))) i = Some (b, m) ->
    search i (pair_params b m) FULL_EXTRACTION_MAX_PAGES = Found results ->
    in_done b m (already_done (world_of (run_pairs pairs w))) = true.
Proof.
  apply (run_pairs_ind (fun _ w f =>
    forall i b m results,
      (List.length (searched w) <= i)%nat ->
      nth_error (searched (world_of f)) i = Some (b, m) ->
      search i (pair_params b m) FULL_EXTRACTION_MAX_PAGES = Found results ->
      in_done b m (already_done (world_of f)) = true)).
  - intros w0 i b m results Hi Hn _. simpl in Hn.
    apply nth_error_lt in Hn. lia.
  - intros b0 model rest w0 w1 f Es Ef IH i b m results Hi Hn Hf.
    destruct (run_pairs_searched rest w1) as (new & Hs & _). rewrite Ef in Hs.
    destruct (run_pairs_done rest w1) as (_ & Hmono & _). rewrite Ef in Hmono.
    assert (Hhere :
      searched w1 = searched w0 ++ [(b0, value model)] ->
      (i = List.length (searched w0) -> in_done b m (already_done w1) = true) ->
      in_done b m (already_done (world_of f)) = true).
    { intros Hs1 Hat.
      destruct (Nat.eq_dec i (List.length (searched w0))) as [Ei|Ne].
      - apply Hmono. now apply Hat.
      - apply (IH i b m results); [|exact Hn|exact Hf].
        rewrite Hs1, length_app. simpl. lia. }
    assert (Hpair :
      searched w1 = searched w0 ++ [(b0, value model)] ->
      i = List.length (searched w0) -> (b, m) = (b0, value model)).
    { intros Hs1 Ei. rewrite Hs, Hs1, <- app_assoc in Hn.
      rewrite nth_error_app2 in Hn by lia.
      replace (i - List.length (searched w0))%nat with 0%nat in Hn by lia.
      simpl in Hn. congruence. }
    destruct (step_cases b0 model w0)
      as [(_ & E)|[(_ & _ & E)|(_ & _ & [(r & Er & E)|[(Er & E)|(_ & E)]])]];
      rewrite E in Es; try discriminate Es; injection Es as Ew.
    + apply (IH i b m results); [|exact Hn|exact Hf]. now rewrite <- Ew.
    + apply (IH i b m results); [|exact Hn|exact Hf]. now rewrite <- Ew.
    + apply Hhere; [now rewrite <- Ew|]. intros Ei.
      assert (Hp : (b, m) = (b0, value model)) by (apply Hpair; [now rewrite <- Ew | exact Ei]).
      injection Hp as -> ->. rewrite <- Ew. simpl. apply in_done_add_same.
    + apply Hhere; [now rewrite <- Ew|]. intros Ei.
      assert (Hp : (b, m) = (b0, value model)) by (apply Hpair; [now rewrite <- Ew | exact Ei]).
      injection Hp as -> ->. rewrite Ei in Hf. unfold pair_params in Hf. congruence.
  - intros b0 model rest w0 w1 Es i b m results Hi Hn Hf.
    destruct (step_cases b0 model w0)
      as [(_ & E)|[(_ & _ & E)|(_ & _ & [(r & _ & E)|[(_ & E)|(Er & E)]])]];
      rewrite E in Es; try discriminate Es; injection Es as Ew.
    rewrite <- Ew in Hn. simpl in Hn.
    assert (Ei : i = List.length (searched w0)).
    { apply nth_error_lt in Hn. rewrite length_app in Hn. simpl in Hn. lia. }
    rewrite nth_error_app2 in Hn by lia.
    replace (i - List.length (searched w0))%nat with 0%nat in Hn by lia.
    simpl in Hn. injection Hn as <- <-. rewrite Ei in Hf.
    unfold pair_params in Hf. congruence.
Qed.


(** The files written: each at a path that held nothing, with at least
    one listing, for a pair that is in the progress set. *)
Lemma run_pairs_files (pairs : list (string * ModelEntry)) (w : World) :
  let w' := world_of (run_pairs pairs w) in
  (NoDup (dict_keys (csv_files w)) -> NoDup (dict_keys (csv_files w')))
  /\ forall path rows,
       In (path, rows) (csv_files w') ->
       In (path, rows) (csv_files w)
       \/ (rows <> []
           /\ csv_exists path = false
           /\ exists b m, path = csv_path_of b m
                          /\ in_done b m (already_done w') = true).
Proof.
  cbv zeta.
  apply (run_pairs_ind (fun _ w f =>
    (NoDup (dict_keys (csv_files w)) -> NoDup (dict_keys (csv_files (world_of f))))
    /\ forall path rows,
         In (path, rows) (csv_files (world_of f)) ->
         In (path, rows) (csv_files w)
         \/ (rows <> []
             /\ csv_exists path = false
             /\ exists b m, path = csv_path_of b m
                            /\ in_done b m (already_done (world_of f)) = true))).
  - intros w0. simpl. auto.
  - intros b model rest w0 w1 f Es Ef (IHn & IHf).
    destruct (run_pairs_done rest w1) as (_ & Hmono & _). rewrite Ef in Hmono.
    destruct (step_cases b model w0)
      as [(_ & E)|[(_ & _ & E)|(_ & Hpe & [(r & _ & E)|[(_ & E)|(_ & E)]])]];
      rewrite E in Es; try discriminate Es; injection Es as Ew;
      rewrite <- Ew in IHn, IHf, Hmono; simpl in IHn, IHf, Hmono;
      try (split; assumption).
    destruct r as [|car r]; [split; assumption|].
    split.
    + intros Hd. apply IHn. now apply dict_set_keys.
    + intros path rows Hin. destruct (IHf path rows Hin) as [Hin'|Hnew]; [|now right].
      apply dict_set_in in Hin'. destruct Hin' as [(-> & ->)|Hin']; [|now left].
      right. split; [discriminate|]. split.
      * unfold path_exists in Hpe. now apply orb_false_elim in Hpe.
      * exists b, (value model). split; [reflexivity|].
        apply Hmono, in_done_add_same.
  - intros b model rest w0 w1 Es.
    destruct (step_cases b model w0)
      as [(_ & E)|[(_ & _ & E)|(_ & _ & [(r & _ & E)|[(_ & E)|(_ & E)]])]];
      rewrite E in Es; try discriminate Es; injection Es as <-; simpl; auto.
Qed.

(** A run that returns early has saved its progress set. *)
Lemma run_pairs_return (pairs : list (string * ModelEntry)) (w w' : World) :
  run_pairs pairs w = Return w' ->
  progress_file w' = Some (Some (progress_document (already_done w'))).
Proof.
  revert w'.
  apply (run_pairs_ind (fun _ _ f =>
    forall w', f = Return w' ->
               progress_file w' = Some (Some (progress_document (already_done w'))))).
  - discriminate.
  - intros; auto.
  - intros b model rest w0 w1 Es w' Ew. injection Ew as <-.
    destruct (step_cases b model w0)
      as [(_ & E)|[(_ & _ & E)|(_ & _ & [(r & _ & E)|[(_ & E)|(_ & E)]])]];
      rewrite E in Es; try discriminate Es; injection Es as <-; reflexivity.
Qed.

(** ** The whole run *)

(** The state the run starts from. *)
Local Abbreviation start file :=
  (mkWorld (_load_progress file) (mkStats 0 0 0 0 0) [] file []).

(** The run ends in the state the loops end in, with the progress set
    saved. *)
Lemma run_world (brands : Brands) (file : option (option pyval)) :
  let f := run_pairs (catalog_pairs brands) (start file) in
  let w := run brands file in
  already_done w = already_done (world_of f)
  /\ stats w = stats (world_of f)
  /\ csv_files w = csv_files (world_of f)
  /\ searched w = searched (world_of f)
  /\ progress_file w = Some (Some (progress_document (already_done w))).
Proof.
  cbv zeta. unfold run_full_extraction. rewrite process_brands_pairs.
  destruct (run_pairs (catalog_pairs brands) (start file)) as [w|w] eqn:E; simpl.
  - now repeat split.
  - repeat split. now apply run_pairs_return in E.
Qed.

Lemma in_catalog_pairs (brands : Brands) (b : string) (model : ModelEntry) :
  In (b, model) (catalog_pairs brands) <->
  exists key data, In (key, data) brands /\ brand_value data = b
                   /\ In model (models data).
Proof.
  unfold catalog_pairs. rewrite in_flat_map. split.
  - intros ([key data] & Hin & Hm). simpl in Hm. apply in_map_iff in Hm.
    destruct Hm as (m & E & Hm). injection E as <- <-. now exists key, data.
  - intros (key & data & Hin & <- & Hm). exists (key, data). split; [exact Hin|].
    simpl. apply in_map_iff. now exists model.
Qed.

(** No search is made for a pair of the progress set loaded at the
    start. *)
Lemma run_searched_not_loaded (brands : Brands) (file : option (option pyval))
  (b m : string) :
  In (b, m) (searched (run brands file)) ->
  in_done b m (_load_progress file) = false.
Proof.
  destruct (run_world brands file) as (_ & _ & _ & -> & _).
  destruct (run_pairs_searched (catalog_pairs brands) (start file))
    as (new & -> & Hnew).
  simpl. intros Hin. rewrite Forall_forall in Hnew.
  now destruct (Hnew _ Hin) as (H1 & _).
Qed.

(** Reading the progress file after the run gives the final progress
    set. *)
Lemma run_progress_read_back (brands : Brands) (file : option (option pyval)) :
  _load_progress (progress_file (run brands file))
  = already_done (run brands file).
Proof.
  destruct (run_world brands file) as (Hd & _ & _ & _ & Hp).
  destruct (run_pairs_done (catalog_pairs brands) (start file))
    as (_ & _ & _ & Hh).
  simpl in Hh. specialize (Hh (load_progress_hashable file)).
  rewrite Hp. apply load_progress_document. now rewrite Hd.
Qed.

(** X22.  The run searches only what is new.  Every search of the bulk
    run is for a (brand, model) pair of the catalog that was not in the
    progress set loaded at the start and whose CSV file did not exist
    before the run. *)
Theorem bulk_searches_only_new (brands : Brands) (file : option (option pyval))
  (b m : string) :
  In (b, m) (searched (run brands file)) ->
  in_done b m (_load_progress file) = false
  /\ csv_exists (csv_path_of b m) = false
  /\ exists key data model,
       In (key, data) brands /\ brand_value data = b
       /\ In model (models data) /\ value model = m.
Proof.
  destruct (run_world brands file) as (_ & _ & _ & -> & _).
  destruct (run_pairs_searched (catalog_pairs brands) (start file))
    as (new & -> & Hnew).
  simpl. intros Hin. rewrite Forall_forall in Hnew.
  destruct (Hnew _ Hin) as (H1 & H2 & model & Hc & Hv). simpl in *.
  split; [exact H1|]. split; [exact H2|].
  apply in_catalog_pairs in Hc. destruct Hc as (key & data & Hb & Hbv & Hm).
  now exists key, data, model.
Qed.





(** A search that found its answer leaves its pair in the final progress
    set. *)
Lemma run_found (brands : Brands) (file : option (option pyval))
  (i : nat) (b m : string) (results : list Car) :
  nth_error (searched (run brands file)) i = Some (b, m) ->
  search i (pair_params b m) FULL_EXTRACTION_MAX_PAGES = Found results ->
  in_done b m (already_done (run brands file)) = true.
Proof.
  destruct (run_world brands file) as (-> & _ & _ & -> & _).
  apply run_pairs_found. simpl. lia.
Qed.

End BulkFacts.

Section BulkResume.
Import Py car brand_model_validator full_extraction.
Context `{Builtins}.


End BulkResume.

(* ===================================================================== *)
(** * Properties of the file names of the bulk run *)
(* ===================================================================== *)

Section SanitizeFacts.
Import Py full_extraction.
Context `{Builtins}.

Local Abbreviation chars := list_ascii_of_string.

Lemma chars_app (a b : string) : chars (a ++ b) = (chars a ++ chars b)%list.
Proof. induction a as [|c a IH]; simpl; [reflexivity | now rewrite IH]. Qed.

(** What [replace] leaves: the new character, or an old one other than
    the one replaced. *)
Lemma replace_char_chars (old c : ascii) (s : string) :
  In c (chars (replace_char old "-" s)) ->
  c = "-"%char \/ (In c (chars s) /\ c <> old).
Proof.
  induction s as [|c0 s IH]; simpl; [tauto|].
  rewrite chars_app. intros Hin. apply in_app_or in Hin.
  destruct Hin as [Hin|Hin].
  - destruct (Ascii.eqb_spec c0 old) as [->|Hne]; simpl in Hin.
    + left. destruct Hin as [E|[]]. now symmetry.
    + destruct Hin as [E|[]]. subst c0. right. split; [now left | exact Hne].
  - destruct (IH Hin) as [E|(Hs & Hne)]; [now left | right; split; [now right | exact Hne]].
Qed.

Lemma replace_all_chars (olds : list ascii) (c : ascii) (s : string) :
  In c (chars (fold_left (fun name ch => replace_char ch "-" name) olds s)) ->
  c = "-"%char \/ (In c (chars s) /\ ~ In c olds).
Proof.
  revert s. induction olds as [|old olds IH]; intros s; simpl.
  - intros Hin. right. tauto.
  - intros Hin. destruct (IH _ Hin) as [E|(Hin' & Hno)]; [now left|].
    destruct (replace_char_chars _ _ _ Hin') as [E|(Hs & Hne)]; [now left|].
    right. split; [exact Hs|]. intros [E|Hin'']; [now symmetry in E | tauto].
Qed.

Lemma lstrip_dots_chars (c : ascii) (s : string) :
  In c (chars (lstrip_dots s)) -> In c (chars s).
Proof.
  induction s as [|c0 s IH]; simpl; [tauto|].
  destruct (Ascii.eqb c0 "."); simpl; tauto.
Qed.

Lemma rstrip_dots_chars (c : ascii) (s : string) :
  In c (chars (rstrip_dots s)) -> In c (chars s).
Proof.
  induction s as [|c0 s IH]; simpl; [tauto|].
  destruct (rstrip_dots s) as [|c1 rest].
  - destruct (Ascii.eqb c0 "."); simpl; tauto.
  - simpl in *. tauto.
Qed.

Lemma lstrip_dots_head (s rest : string) : lstrip_dots s <> String "." rest.
Proof.
  induction s as [|c s IH]; simpl; [discriminate|].
  destruct (Ascii.eqb_spec c "."); [exact IH|]. congruence.
Qed.

Lemma rstrip_dots_head (s : string) (c : ascii) (rest : string) :
  rstrip_dots s = String c rest -> exists rest', s = String c rest'.
Proof.
  destruct s as [|c0 s]; simpl; [discriminate|].
  destruct (rstrip_dots s).
  - destruct (Ascii.eqb c0 "."); [discriminate|]. intros E. injection E as <- _.
    now exists s.
  - intros E. injection E as <- _. now exists s.
Qed.

Lemma rstrip_dots_last (s front : string) : rstrip_dots s <> (front ++ ".")%string.
Proof.
  revert front. induction s as [|c s IH]; intros front; simpl.
  - destruct front; discriminate.
  - destruct (rstrip_dots s) as [|c1 rest] eqn:E.
    + destruct (Ascii.eqb_spec c "."); [destruct front; discriminate|].
      destruct front as [|c2 [|c3 front]]; simpl; congruence.
    + destruct front as [|c2 front]; simpl; [congruence|].
      intros E'. injection E' as _ E'. now apply (IH front).
Qed.

(** X28.  Sanitised names are safe.  Provided that stripping the name
    brings in no character that was not there, the name [_sanitize]
    returns holds none of the nine characters it replaces, does not begin
    with a dot and does not end with one. *)
Theorem sanitize_safe (name : string) :
  let replaced :=
    fold_left (fun name ch => replace_char ch "-" name) forbidden_chars name in
  (forall c, In c (chars (strip replaced)) -> In c (chars replaced)) ->
  (forall c, In c (chars (_sanitize name)) -> ~ In c forbidden_chars)
  /\ (forall rest, _sanitize name <> String "." rest)
  /\ (forall front, _sanitize name <> (front ++ ".")%string).
Proof.
  intros replaced Hstrip. unfold _sanitize. fold replaced. repeat split.
  - intros c Hin. unfold strip_dots in Hin.
    apply rstrip_dots_chars, lstrip_dots_chars, Hstrip in Hin.
    destruct (replace_all_chars _ _ _ Hin) as [->|(_ & Hno)]; [|exact Hno].
    unfold forbidden_chars. simpl. intros Hc.
    repeat (destruct Hc as [Hc|Hc]; [discriminate Hc|]). exact Hc.
  - intros rest E. unfold strip_dots in E.
    apply rstrip_dots_head in E. destruct E as (rest' & E).
    now apply lstrip_dots_head in E.
  - intros front. apply rstrip_dots_last.
Qed.

End SanitizeFacts.

(* ===================================================================== *)
(** * Properties of the command line run *)
(* ===================================================================== *)

Section MainFacts.
Import Py car helpers brand_model_validator full_extraction main.
Context `{Builtins}.
Variable brands : Brands.
Variable search : CarSearchParams -> outcome.

Local Abbreviation run := (main.main brands search).

(** X29.  An unknown brand stops the run before any search.  When a
    non-empty brand is asked for and no entry of the catalog passes the
    validator's test, [main] makes no search, prints the empty statistics
    with the error, the validator's message and the first five catalog
    keys as suggestions, and exits with code 1. *)
Theorem main_unknown_brand (params : CarSearchParams) (brand : string) :
  marca params = Some brand ->
  brand <> EmptyString ->
  (forall key data, In (key, data) brands ->
                    brand_matches (strip (lower brand)) key data = false) ->
  let ended := run params in
  searches ended = []
  /\ exit_code ended = 1%Z
  /\ summary (printed ended) = empty_output
  /\ erro (printed ended) = Some "Parâmetros inválidos"%string
  /\ detalhes (printed ended)
     = Some [("Marca '" ++ brand ++ "' não encontrada.")%string]
  /\ sugestoes (printed ended)
     = Some (mkSuggestions (Some (firstn 5 (dict_keys brands))) None).
Proof.
  intros Em Hne Hnone. cbv zeta. unfold main.main, normalise. rewrite Em.
  assert (Ht : truthy_str (Some brand) = true).
  { simpl. destruct (String.eqb_spec brand ""); [contradiction | reflexivity]. }
  rewrite Ht. unfold validate_search_params.
  destruct (String.eqb_spec brand ""); [contradiction|].
  assert (Hf : find_brand (strip (lower brand)) brands = None).
  { apply find_brand_none, Forall_forall. intros [key data] Hin. now apply Hnone. }
  rewrite Hf. simpl. now repeat split.
Qed.

(** X30.  The search is made with the catalog's own values.  When
    [main] makes a search for a request that names a brand, it makes one
    search; the year, mileage, price, gearbox and fuel of the request are
    passed on unchanged, and the brand passed on is the canonical value
    of the first catalog entry that passes the validator's test, or the
    brand as typed when that value is empty. *)
Theorem main_searches_canonical (params p : CarSearchParams) (brand : string) :
  marca params = Some brand ->
  brand <> EmptyString ->
  In p (searches (run params)) ->
  searches (run params) = [p]
  /\ with_names p (marca params) (modelo params) = params
  /\ exists data,
       find_brand (strip (lower brand)) brands = Some data
       /\ marca p = (if (brand_value data =? "")%string then Some brand
                     else Some (brand_value data)).
Proof.
  intros Em Hne. unfold main.main, normalise. rewrite Em.
  assert (Ht : truthy_str (Some brand) = true).
  { simpl. destruct (String.eqb_spec brand ""); [contradiction | reflexivity]. }
  rewrite Ht.
  assert (Hv : forall r,
    r = validate_search_params brands (Some brand) (modelo params) ->
    valid r = true ->
    exists data, find_brand (strip (lower brand)) brands = Some data
                 /\ result_brand_value r = Some (brand_value data)).
  { intros r -> Hvalid. unfold validate_search_params in *.
    destruct (String.eqb_spec brand ""); [contradiction|].
    destruct (find_brand (strip (lower brand)) brands) as [data|];
      [|discriminate Hvalid].
    exists data. split; [reflexivity|].
    destruct (truthy_str (modelo params)); [|reflexivity].
    now destruct (find_model _ _). }
  destruct (valid (validate_search_params brands (Some brand) (modelo params)))
    eqn:Hvalid; [|intros []].
  destruct (Hv _ eq_refl Hvalid) as (data & Hfind & Hbv).
  set (q := with_names params _ _).
  assert (Hq : with_names q (marca params) (modelo params) = params
               /\ marca q = (if (brand_value data =? "")%string then Some brand
                             else Some (brand_value data))).
  { subst q. split; [now destruct params|]. unfold with_names. cbn [marca].
    rewrite Hbv. cbn [truthy_str]. now destruct (brand_value data =? "")%string. }
  destruct Hq as (Hq1 & Hq2). rewrite Em in Hq1.
  destruct (search q) as [[|c l]| |]; cbn [searches]; intros [E|[]]; subst p;
    (split; [reflexivity|]; split; [exact Hq1|]; now exists data).
Qed.

End MainFacts.

(* ===================================================================== *)
(** * The further properties on sample inputs *)
(* ===================================================================== *)

Section MoreSamples.
Import Py car helpers config brand_model_validator otomoto_scraper observe.
Import next_data full_extraction reference examples scenarios.

(** ** The aggregator *)

Lemma pages_above_100 : Exists (fun c => 100 < preco_numerico c) pages.
Proof. apply Exists_cons_hd. reflexivity. Qed.

Lemma interval_bounds_witness :
  Exists (fun c => 100 < preco_numerico c) pages
  /\ exists lo hi,
       preco_intervalo (calculate_price_interval pages)
       = {| interval_min := Some lo; interval_max := Some hi |}
       /\ 100 < lo /\ lo <= hi.
Proof.
  split; [exact pages_above_100|].
  destruct (interval_bounds pages pages_above_100)
    as (lo & hi & Hi & _ & _ & Hlo & Hle).
  now exists lo, hi.
Defined.


Lemma used_listings_within_interval_witness :
  Exists (fun c => 100 < preco_numerico c) pages
  /\ exists used : list Car,
       anuncios_usados_para_calculo (calculate_price_interval pages)
       = Some (map to_dict used)
       /\ (viaturas_consideradas (calculate_price_interval pages)
           <= List.length used)%nat.
Proof.
  split; [exact pages_above_100|].
  destruct (used_listings_within_interval pages pages_above_100)
    as (used & lo & hi & Hu & _ & _ & Hn).
  now exists used.
Defined.

(** ** The validator *)

Lemma model_lookup_ignores_case_witness :
  find_brand (strip (lower "BMW")) catalog
  = Some (mkBrand "bmw" "BMW" [mkModel "x5" "X5"; mkModel "seria-3" "Seria 3"])
  /\ lower (text (mkModel "x5" "X5")) = strip (lower " x5 ")
  /\ valid (validate_search_params catalog (Some "BMW"%string) (Some " x5 "%string))
     = true
  /\ result_brand_value
       (validate_search_params catalog (Some "BMW"%string) (Some " x5 "%string))
     = Some "bmw"%string.
Proof.
  assert (Hb : find_brand (strip (lower "BMW")) catalog
               = Some (mkBrand "bmw" "BMW"
                         [mkModel "x5" "X5"; mkModel "seria-3" "Seria 3"]))
    by reflexivity.
  assert (Hm : lower (text (mkModel "x5" "X5")) = strip (lower " x5 "))
    by reflexivity.
  split; [exact Hb|]. split; [exact Hm|].
  assert (Hne1 : "BMW"%string <> EmptyString) by discriminate.
  assert (Hne2 : " x5 "%string <> EmptyString) by discriminate.
  assert (Hin : In (mkModel "x5" "X5")
                   (models (mkBrand "bmw" "BMW"
                              [mkModel "x5" "X5"; mkModel "seria-3" "Seria 3"])))
    by (simpl; left; reflexivity).
  destruct (model_lookup_ignores_case catalog "BMW" " x5 " _ _
              Hne1 Hne2 Hb Hin (or_introl Hm)) as (Hv & _ & Hbv & _).
  split; [exact Hv | exact Hbv].
Defined.

Lemma unknown_model_witness :
  find_brand (strip (lower "BMW")) catalog
  = Some (mkBrand "bmw" "BMW" [mkModel "x5" "X5"; mkModel "seria-3" "Seria 3"])
  /\ valid (validate_search_params catalog (Some "BMW"%string) (Some "Z9"%string))
     = false
  /\ suggestions
       (validate_search_params catalog (Some "BMW"%string) (Some "Z9"%string))
     = {| marcas := None; modelos_disponiveis := Some ["X5"; "Seria 3"]%string |}.
Proof.
  assert (Hb : find_brand (strip (lower "BMW")) catalog
               = Some (mkBrand "bmw" "BMW"
                         [mkModel "x5" "X5"; mkModel "seria-3" "Seria 3"]))
    by reflexivity.
  split; [exact Hb|].
  assert (Hne1 : "BMW"%string <> EmptyString) by discriminate.
  assert (Hne2 : "Z9"%string <> EmptyString) by discriminate.
  assert (Hno : forall m,
            In m (models (mkBrand "bmw" "BMW"
                            [mkModel "x5" "X5"; mkModel "seria-3" "Seria 3"])) ->
            model_matches (strip (lower "Z9")) m = false).
  { intros m Hin. simpl in Hin.
    repeat (destruct Hin as [Hin|Hin]; [subst m; reflexivity|]). contradiction. }
  destruct (unknown_model catalog "BMW" "Z9" _ Hne1 Hne2 Hb Hno)
    as (Hv & _ & _ & _ & Hs).
  split; [exact Hv | exact Hs].
Defined.

Lemma values_from_catalog_witness :
  result_brand_value
    (validate_search_params catalog (Some "BMW"%string) (Some "X5"%string))
  = Some "bmw"%string
  /\ exists key data, In (key, data) catalog /\ brand_value data = "bmw"%string.
Proof.
  assert (Hr : result_brand_value
                 (validate_search_params catalog (Some "BMW"%string)
                                         (Some "X5"%string))
               = Some "bmw"%string) by reflexivity.
  split; [exact Hr|].
  destruct (values_from_catalog catalog (Some "BMW"%string) (Some "X5"%string)
              "bmw" Hr) as (key & data & Hin & Hv & _).
  now exists key, data.
Defined.

Lemma empty_catalog_rejects_witness :
  "bmw"%string <> EmptyString
  /\ valid (validate_search_params [] (Some "bmw"%string) None) = false.
Proof.
  assert (Hne : "bmw"%string <> EmptyString) by discriminate.
  split; [exact Hne|].
  now destruct (empty_catalog_rejects "bmw" None Hne) as (Hv & _).
Defined.

(** ** The parser *)

Lemma falsy_amount_rejected_witness :
  price_fields zero_node = Some (PInt 0, PStr "PLN")
  /\ truthy (PInt 0) = false
  /\ _parse_node_data zero_node = Rejected.
Proof.
  assert (Hp : price_fields zero_node = Some (PInt 0, PStr "PLN")) by reflexivity.
  assert (Ht : truthy (PInt 0) = false) by reflexivity.
  split; [exact Hp|]. split; [exact Ht|].
  exact (falsy_amount_rejected zero_node _ _ Hp Ht).
Defined.

(** ** The search *)

Lemma search_pagination_witness :
  search_cars false site no_browser sample_params 3
  = Some (fst two_pages, snd two_pages)
  /\ List.length (fst two_pages) = 2%nat
  /\ List.length (snd two_pages) = 12%nat
  /\ exists pages : list (list Car),
       Forall2 (fun url p => fetch_page false site no_browser url = Some p)
               (fst two_pages) pages
       /\ snd two_pages = _deduplicate (List.concat pages).
Proof.
  assert (Hs : search_cars false site no_browser sample_params 3
               = Some (fst two_pages, snd two_pages)) by (vm_compute; reflexivity).
  split; [exact Hs|]. split; [vm_compute; reflexivity|].
  split; [vm_compute; reflexivity|].
  destruct (search_pagination false site no_browser sample_params 3 _ _ Hs)
    as (pages & Hf & _ & _ & _ & _ & _ & Hd).
  exists pages. split; [exact Hf | exact Hd].
Defined.

(** ** The bulk run *)

Lemma bulk_searches_only_new_witness :
  searched (run_full_extraction files_before answers catalog progress_before)
  = [("bmw", "seria-3"); ("fiat", "500")]%string
  /\ in_done "bmw" "seria-3" (_load_progress progress_before) = false
  /\ files_before (csv_path_of "bmw" "seria-3") = false.
Proof.
  assert (Hs : searched (run_full_extraction files_before answers catalog
                                             progress_before)
               = [("bmw", "seria-3"); ("fiat", "500")]%string)
    by (vm_compute; reflexivity).
  split; [exact Hs|].
  assert (Hin : In ("bmw", "seria-3")%string
                   (searched (run_full_extraction files_before answers catalog
                                                  progress_before)))
    by (rewrite Hs; left; reflexivity).
  destruct (bulk_searches_only_new files_before answers catalog progress_before
              "bmw" "seria-3" Hin) as (Hd & Hf & _).
  split; [exact Hd | exact Hf].
Defined.

Lemma answers_never_interrupted (n : nat) (params : CarSearchParams) (pages : Z) :
  answers n params pages <> Interrupted.
Proof. destruct n as [|[|n]]; discriminate. Qed.



(** ** The file names *)

Lemma sanitize_safe_witness :
  _sanitize " A/C: 3.0?. " = "A-C- 3.0-"%string
  /\ forall c, In c (list_ascii_of_string (_sanitize " A/C: 3.0?. ")) ->
               ~ In c forbidden_chars.
Proof.
  split; [reflexivity|].
  assert (Hstrip : forall c,
    In c (list_ascii_of_string
            (strip (fold_left (fun name ch => replace_char ch "-" name)
                              forbidden_chars " A/C: 3.0?. "%string))) ->
    In c (list_ascii_of_string
            (fold_left (fun name ch => replace_char ch "-" name)
                       forbidden_chars " A/C: 3.0?. "%string))).
  { intros c. vm_compute. tauto. }
  now destruct (sanitize_safe " A/C: 3.0?. " Hstrip) as (Hc & _).
Defined.

(** ** The command line run *)

Lemma main_unknown_brand_witness :
  marca unknown_request = Some "Trabant"%string
  /\ main.searches (main.main catalog no_listing unknown_request) = []
  /\ main.exit_code (main.main catalog no_listing unknown_request) = 1%Z.
Proof.
  assert (Hm : marca unknown_request = Some "Trabant"%string) by reflexivity.
  assert (Hne : "Trabant"%string <> EmptyString) by discriminate.
  assert (Hno : forall key data, In (key, data) catalog ->
                  brand_matches (strip (lower "Trabant")) key data = false).
  { intros key data Hin. simpl in Hin.
    repeat (destruct Hin as [Hin|Hin]; [injection Hin as <- <-; reflexivity|]).
    contradiction. }
  split; [exact Hm|].
  destruct (main_unknown_brand catalog no_listing unknown_request "Trabant"
              Hm Hne Hno) as (Hs & He & _).
  split; [exact Hs | exact He].
Defined.

Lemma main_searches_canonical_witness :
  In canonical_request (main.searches (main.main catalog no_listing typed_request))
  /\ main.searches (main.main catalog no_listing typed_request)
     = [canonical_request].
Proof.
  assert (Hm : marca typed_request = Some "BMW"%string) by reflexivity.
  assert (Hne : "BMW"%string <> EmptyString) by discriminate.
  assert (Hin : In canonical_request
                   (main.searches (main.main catalog no_listing typed_request)))
    by (left; reflexivity).
  split; [exact Hin|].
  now destruct (main_searches_canonical catalog no_listing typed_request
                  canonical_request "BMW" Hm Hne Hin) as (Hs & _).
Defined.

End MoreSamples.
